(** * Product registry chaincode (chaincode/smartcontracts.go)

    A shallow embedding of the supply-chain smart contract: the product
    record, its JSON wire format as produced and consumed by Go's
    [encoding/json], the key-value world state reached through the
    chaincode stub, and the contract's transactions. *)

From Stdlib Require Import NArith ZArith Ascii String List Lia Bool.
From stdpp Require Import base option list gmap strings sorting.

Set Warnings "-register-all".

Local Open Scope string_scope.
Local Open Scope N_scope.

(** Go strings and byte slices are sequences of bytes: [string], whose
    characters are the 256 byte values. *)
Definition byteN (c : ascii) : N := N_of_ascii c.
Definition byte_of (n : N) : ascii := ascii_of_N n.

Fixpoint skip (n : nat) (s : string) : string :=
  match n, s with
  | O, _ => s
  | S _, EmptyString => EmptyString
  | S n', String _ t => skip n' t
  end.

Fixpoint take_str (n : nat) (s : string) : string :=
  match n, s with
  | O, _ => EmptyString
  | S _, EmptyString => EmptyString
  | S n', String c t => String c (take_str n' t)
  end.

(** ** unicode/utf8 *)
Module utf8.

Definition RuneError : N := 0xFFFD.
Definition RuneSelf : N := 0x80.
Definition MaxRune : N := 0x10FFFF.
Definition surrogateMin : N := 0xD800.
Definition surrogateMax : N := 0xDFFF.

(** The [first] table together with [acceptRanges]: what the lead byte
    announces. [Lead sz lo hi]: a sequence of [sz] bytes whose second byte
    lies in [lo..hi]. *)
Inductive leadInfo :=
| Ascii1
| Invalid
| Lead (sz : nat) (lo hi : N).

Definition first (p0 : ascii) : leadInfo :=
  let b := byteN p0 in
  if b <? 0x80 then Ascii1
  else if b <? 0xC2 then Invalid
  else if b <? 0xE0 then Lead 2 0x80 0xBF
  else if b =? 0xE0 then Lead 3 0xA0 0xBF
  else if b <? 0xED then Lead 3 0x80 0xBF
  else if b =? 0xED then Lead 3 0x80 0x9F
  else if b <? 0xF0 then Lead 3 0x80 0xBF
  else if b =? 0xF0 then Lead 4 0x90 0xBF
  else if b <? 0xF4 then Lead 4 0x80 0xBF
  else if b =? 0xF4 then Lead 4 0x80 0x8F
  else Invalid.

Definition inRange (lo hi : N) (c : ascii) : bool :=
  (lo <=? byteN c) && (byteN c <=? hi).

Definition cont (c : ascii) : bool := inRange 0x80 0xBF c.

Definition maskx (c : ascii) : N := N.land (byteN c) 0x3F.

(** [DecodeRune p]: the first rune of [p] and its width in bytes;
    [(RuneError, 1)] for an invalid or truncated encoding, [(RuneError, 0)]
    for the empty input. *)
Definition DecodeRune (p : string) : N * nat :=
  match p with
  | EmptyString => (RuneError, 0%nat)
  | String p0 t =>
    match first p0 with
    | Ascii1 => (byteN p0, 1%nat)
    | Invalid => (RuneError, 1%nat)
    | Lead sz lo hi =>
      match t with
      | EmptyString => (RuneError, 1%nat)
      | String b1 t1 =>
        if negb (inRange lo hi b1) then (RuneError, 1%nat)
        else if (sz <=? 2)%nat then
          (N.lor (N.shiftl (N.land (byteN p0) 0x1F) 6) (maskx b1), 2%nat)
        else
          match t1 with
          | EmptyString => (RuneError, 1%nat)
          | String b2 t2 =>
            if negb (cont b2) then (RuneError, 1%nat)
            else if (sz <=? 3)%nat then
              (N.lor (N.lor (N.shiftl (N.land (byteN p0) 0x0F) 12)
                            (N.shiftl (maskx b1) 6)) (maskx b2), 3%nat)
            else
              match t2 with
              | EmptyString => (RuneError, 1%nat)
              | String b3 _ =>
                if negb (cont b3) then (RuneError, 1%nat)
                else
                  (N.lor (N.lor (N.lor (N.shiftl (N.land (byteN p0) 0x07) 18)
                                       (N.shiftl (maskx b1) 12))
                                (N.shiftl (maskx b2) 6)) (maskx b3), 4%nat)
              end
          end
      end
    end
  end.

(** [EncodeRune r]: the UTF-8 encoding of [r]; runes out of range and
    surrogate halves are written as [RuneError]. *)
Definition encode3 (r : N) : string :=
  String (byte_of (N.lor 0xE0 (N.shiftr r 12)))
 (String (byte_of (N.lor 0x80 (N.land (N.shiftr r 6) 0x3F)))
 (String (byte_of (N.lor 0x80 (N.land r 0x3F))) EmptyString)).

Definition EncodeRune (r : N) : string :=
  if r <=? 0x7F then String (byte_of r) EmptyString
  else if r <=? 0x7FF then
    String (byte_of (N.lor 0xC0 (N.shiftr r 6)))
   (String (byte_of (N.lor 0x80 (N.land r 0x3F))) EmptyString)
  else if (MaxRune <? r) || ((surrogateMin <=? r) && (r <=? surrogateMax)) then
    encode3 RuneError
  else if r <=? 0xFFFF then encode3 r
  else
    String (byte_of (N.lor 0xF0 (N.shiftr r 18)))
   (String (byte_of (N.lor 0x80 (N.land (N.shiftr r 12) 0x3F)))
   (String (byte_of (N.lor 0x80 (N.land (N.shiftr r 6) 0x3F)))
   (String (byte_of (N.lor 0x80 (N.land r 0x3F))) EmptyString))).

(** A decoding step is an encoding error when it yields [RuneError] with
    width 1, as opposed to a well-formed encoding of U+FFFD (width 3). *)
Definition isError (d : N * nat) : bool :=
  (fst d =? RuneError) && (snd d =? 1)%nat.

Fixpoint valid_go (fuel : nat) (s : string) : bool :=
  match fuel, s with
  | _, EmptyString => true
  | O, _ => false
  | S f, _ =>
    let d := DecodeRune s in
    if isError d then false else valid_go f (skip (snd d) s)
  end.

(** [ValidString s]: [s] consists entirely of valid UTF-8-encoded runes. *)
Definition ValidString (s : string) : bool := valid_go (String.length s) s.

End utf8.

(** ** The product record *)

(** [ProductEntity], with the wire name of each field in its JSON tag. *)
Record ProductEntity := mkProduct {
  ProductID : string;          (* product_id *)
  ProductName : string;        (* product_name *)
  ProductStatus : string;      (* product_status *)
  CurrentOwner : string;       (* current_owner *)
  CreatedDate : string;        (* created_date *)
  UpdatedDate : string;        (* updated_date *)
  ProductCategory : string;    (* product_category *)
  ProductDescription : string  (* product_description *)
}.

(** The zero value of the struct, as declared by [var product ProductEntity]. *)
Definition zeroProduct : ProductEntity := mkProduct "" "" "" "" "" "" "" "".

Inductive field :=
| FProductID | FProductName | FProductStatus | FCurrentOwner
| FCreatedDate | FUpdatedDate | FProductCategory | FProductDescription.

(** The struct's fields in declaration order: the order in which
    [json.Marshal] writes them and [json.Unmarshal] looks names up. *)
Definition fields : list field :=
  [FProductID; FProductName; FProductStatus; FCurrentOwner;
   FCreatedDate; FUpdatedDate; FProductCategory; FProductDescription].

Definition fieldName (f : field) : string :=
  match f with
  | FProductID => "product_id"
  | FProductName => "product_name"
  | FProductStatus => "product_status"
  | FCurrentOwner => "current_owner"
  | FCreatedDate => "created_date"
  | FUpdatedDate => "updated_date"
  | FProductCategory => "product_category"
  | FProductDescription => "product_description"
  end.

Definition getField (f : field) (p : ProductEntity) : string :=
  match f with
  | FProductID => ProductID p
  | FProductName => ProductName p
  | FProductStatus => ProductStatus p
  | FCurrentOwner => CurrentOwner p
  | FCreatedDate => CreatedDate p
  | FUpdatedDate => UpdatedDate p
  | FProductCategory => ProductCategory p
  | FProductDescription => ProductDescription p
  end.

Definition setField (f : field) (v : string) (p : ProductEntity) : ProductEntity :=
  match f with
  | FProductID =>
    mkProduct v (ProductName p) (ProductStatus p) (CurrentOwner p)
      (CreatedDate p) (UpdatedDate p) (ProductCategory p) (ProductDescription p)
  | FProductName =>
    mkProduct (ProductID p) v (ProductStatus p) (CurrentOwner p)
      (CreatedDate p) (UpdatedDate p) (ProductCategory p) (ProductDescription p)
  | FProductStatus =>
    mkProduct (ProductID p) (ProductName p) v (CurrentOwner p)
      (CreatedDate p) (UpdatedDate p) (ProductCategory p) (ProductDescription p)
  | FCurrentOwner =>
    mkProduct (ProductID p) (ProductName p) (ProductStatus p) v
      (CreatedDate p) (UpdatedDate p) (ProductCategory p) (ProductDescription p)
  | FCreatedDate =>
    mkProduct (ProductID p) (ProductName p) (ProductStatus p) (CurrentOwner p)
      v (UpdatedDate p) (ProductCategory p) (ProductDescription p)
  | FUpdatedDate =>
    mkProduct (ProductID p) (ProductName p) (ProductStatus p) (CurrentOwner p)
      (CreatedDate p) v (ProductCategory p) (ProductDescription p)
  | FProductCategory =>
    mkProduct (ProductID p) (ProductName p) (ProductStatus p) (CurrentOwner p)
      (CreatedDate p) (UpdatedDate p) v (ProductDescription p)
  | FProductDescription =>
    mkProduct (ProductID p) (ProductName p) (ProductStatus p) (CurrentOwner p)
      (CreatedDate p) (UpdatedDate p) (ProductCategory p) v
  end.

(** ** encoding/json, at the type [ProductEntity] *)
Module json.

Inductive Error :=
| SyntaxError
| UnmarshalTypeError (value : string) (fld : string).

(** *** Encoding (encode.go) *)

Definition hex (n : N) : ascii :=
  match String.get (N.to_nat n) "0123456789abcdef" with
  | Some c => c
  | None => "0"%char
  end.

(** The bytes the codec names. *)
Definition dquote : ascii := byte_of 34.
Definition lf : ascii := byte_of 10.
Definition cr : ascii := byte_of 13.
Definition tab : ascii := byte_of 9.
Definition bs : ascii := byte_of 8.
Definition ff : ascii := byte_of 12.

(** [htmlSafeSet]: the ASCII bytes written as they are: everything from
    the space on except the double quote, the backslash and the three
    characters the HTML escaping covers. *)
Definition htmlSafe (b : ascii) : bool :=
  (0x20 <=? byteN b) && (byteN b <? 0x80) &&
  negb (Ascii.eqb b dquote) && negb (Ascii.eqb b "\") &&
  negb (Ascii.eqb b "&") && negb (Ascii.eqb b "<") && negb (Ascii.eqb b ">").

(** A backslash, a [u] and four hexadecimal digits. *)
Definition escapeU (h1 h2 h3 h4 : ascii) : string :=
  String "\" (String "u" (String h1 (String h2 (String h3 (String h4 ""))))).

(** One turn of the loop of [appendString]: what is written for the
    rune at the head of [src] and how many bytes of [src] it covers. The
    loop copies runs of unescaped bytes at once; written byte by byte
    here. Control characters other than the three named ones take the
    six-byte escape (later versions of Go shorten two more of them,
    which reads back the same). *)
Definition quoteStep (src : string) : string * nat :=
  match src with
  | EmptyString => (EmptyString, 0%nat)
  | String b _ =>
    if byteN b <? utf8.RuneSelf then
      if htmlSafe b then (String b "", 1%nat)
      else if Ascii.eqb b "\" || Ascii.eqb b dquote then (String "\" (String b ""), 1%nat)
      else if Ascii.eqb b lf then ("\n", 1%nat)
      else if Ascii.eqb b cr then ("\r", 1%nat)
      else if Ascii.eqb b tab then ("\t", 1%nat)
      else
        (escapeU "0" "0" (hex (N.shiftr (byteN b) 4)) (hex (N.land (byteN b) 0xF)), 1%nat)
    else
      let d := utf8.DecodeRune src in
      if utf8.isError d then (escapeU "f" "f" "f" "d", snd d)
      else if (fst d =? 0x2028) || (fst d =? 0x2029) then
        (escapeU "2" "0" "2" (hex (N.land (fst d) 0xF)), snd d)
      else (take_str (snd d) src, snd d)
  end.

Fixpoint quote_go (fuel : nat) (src : string) : string :=
  match fuel, src with
  | _, EmptyString => EmptyString
  | O, _ => EmptyString
  | S f, _ =>
    let '(out, n) := quoteStep src in
    out +:+ quote_go f (skip n src)
  end.

Definition quoteBody (src : string) : string := quote_go (String.length src) src.

(** [appendString] with [escapeHTML] set, as [Marshal] calls it. *)
Definition appendString (src : string) : string :=
  String dquote (quoteBody src +:+ String dquote "").

Fixpoint appendFields (p : ProductEntity) (fs : list field) (sep : string) : string :=
  match fs with
  | [] => EmptyString
  | f :: fs' =>
    sep +:+ appendString (fieldName f) +:+ ":" +:+ appendString (getField f p)
        +:+ appendFields p fs' ","
  end.

(** The text [Marshal] writes for a [ProductEntity]: one object, the
    eight fields in declaration order, no white space. *)
Definition encode (p : ProductEntity) : string :=
  "{" +:+ appendFields p fields "" +:+ "}".

(** [Marshal]: a struct of strings cannot make it fail. *)
Definition Marshal (p : ProductEntity) : string + Error := inl (encode p).

(** What writing a string as a JSON literal and reading it back makes of
    it: every byte that does not belong to a well-formed UTF-8 encoding
    becomes the encoding of U+FFFD; the well-formed encodings stay. *)
Definition coerceStep (s : string) : string * nat :=
  let d := utf8.DecodeRune s in
  if utf8.isError d then (utf8.EncodeRune utf8.RuneError, 1%nat)
  else (take_str (snd d) s, snd d).

Fixpoint coerce_go (fuel : nat) (s : string) : string :=
  match fuel, s with
  | _, EmptyString => EmptyString
  | O, _ => EmptyString
  | S f, _ =>
    let '(out, n) := coerceStep s in
    out +:+ coerce_go f (skip n s)
  end.

Definition coerceUTF8 (s : string) : string := coerce_go (String.length s) s.

Definition coerceProduct (p : ProductEntity) : ProductEntity :=
  mkProduct (coerceUTF8 (ProductID p)) (coerceUTF8 (ProductName p))
            (coerceUTF8 (ProductStatus p)) (coerceUTF8 (CurrentOwner p))
            (coerceUTF8 (CreatedDate p)) (coerceUTF8 (UpdatedDate p))
            (coerceUTF8 (ProductCategory p)) (coerceUTF8 (ProductDescription p)).

(** The product's strings are all valid UTF-8. *)
Definition validProduct (p : ProductEntity) : bool :=
  forallb (fun f => utf8.ValidString (getField f p)) fields.

(** *** Decoding of string literals (decode.go) *)

Definition hexval (c : ascii) : option N :=
  let b := byteN c in
  if (0x30 <=? b) && (b <=? 0x39) then Some (b - 0x30)
  else if (0x61 <=? b) && (b <=? 0x66) then Some (b - 0x61 + 10)
  else if (0x41 <=? b) && (b <=? 0x46) then Some (b - 0x41 + 10)
  else None.

(** [getu4 s]: the number written by a backslash, a [u] and four
    hexadecimal digits at the head of [s]; [None] stands for Go's -1. *)
Definition getu4 (s : string) : option N :=
  match s with
  | String "\" (String "u" (String h1 (String h2 (String h3 (String h4 _))))) =>
    match hexval h1, hexval h2, hexval h3, hexval h4 with
    | Some a, Some b, Some c, Some d => Some (((a * 16 + b) * 16 + c) * 16 + d)
    | _, _, _, _ => None
    end
  | _ => None
  end.

Module utf16.
Definition surr1 : N := 0xD800.
Definition surr2 : N := 0xDC00.
Definition surr3 : N := 0xE000.
Definition IsSurrogate (r : N) : bool := (surr1 <=? r) && (r <? surr3).
Definition DecodeRune (r1 : N) (r2 : option N) : N :=
  match r2 with
  | Some r2 =>
    if (surr1 <=? r1) && (r1 <? surr2) && (surr2 <=? r2) && (r2 <? surr3)
    then N.lor (N.shiftl (r1 - surr1) 10) (r2 - surr2) + 0x10000
    else utf8.RuneError
  | None => utf8.RuneError
  end.
End utf16.

(** One turn of the loop of [unquoteBytes]: the bytes written for the
    head of the literal and what remains of it; [None] when the literal
    is not well formed. *)
Definition unquoteStep (s : string) : option (string * string) :=
  match s with
  | EmptyString => None
  | String c t =>
    if Ascii.eqb c "\" then
      match t with
      | EmptyString => None
      | String e t' =>
        if Ascii.eqb e dquote || Ascii.eqb e "\" || Ascii.eqb e "/" || Ascii.eqb e "'"
        then Some (String e "", t')
        else if Ascii.eqb e "b" then Some (String bs "", t')
        else if Ascii.eqb e "f" then Some (String ff "", t')
        else if Ascii.eqb e "n" then Some (String lf "", t')
        else if Ascii.eqb e "r" then Some (String cr "", t')
        else if Ascii.eqb e "t" then Some (String tab "", t')
        else if Ascii.eqb e "u" then
          match getu4 s with
          | None => None
          | Some rr =>
            let r6 := skip 6 s in
            if utf16.IsSurrogate rr then
              let dec := utf16.DecodeRune rr (getu4 r6) in
              if negb (dec =? utf8.RuneError)
              then Some (utf8.EncodeRune dec, skip 6 r6)
              else Some (utf8.EncodeRune utf8.RuneError, r6)
            else Some (utf8.EncodeRune rr, r6)
          end
        else None
      end
    else if Ascii.eqb c dquote || (byteN c <? 0x20) then None
    else if byteN c <? utf8.RuneSelf then Some (String c "", t)
    else
      let d := utf8.DecodeRune s in
      Some (utf8.EncodeRune (fst d), skip (snd d) s)
  end.

Fixpoint unquote_go (fuel : nat) (s : string) : option string :=
  match fuel, s with
  | _, EmptyString => Some EmptyString
  | O, _ => None
  | S f, _ =>
    match unquoteStep s with
    | None => None
    | Some (out, rest) =>
      match unquote_go f rest with
      | None => None
      | Some tl => Some (out +:+ tl)
      end
    end
  end.

(** [unquoteBytes] on the text between the two quotes of a literal. *)
Definition unquote (s : string) : option string := unquote_go (String.length s) s.

(** *** The scanner (scanner.go), building the value it reads *)

Inductive value :=
| JNull
| JBool (b : bool)
| JNumber
| JString (s : string)
| JArray (elems : list value)
| JObject (members : list (string * value)).

(** The entries of the scanner's [parseState] stack, each with what has
    been read of its container so far (latest first). *)
Inductive frame :=
| parseObjectKey (acc : list (string * value)) (key : option string)
| parseObjectValue (acc : list (string * value)) (key : string)
| parseArrayValue (acc : list value).

Inductive stepState :=
| stateBeginValue
| stateBeginValueOrEmpty
| stateBeginStringOrEmpty
| stateBeginString
| stateEndValue
| stateEndTop (v : value)
| stateInString (raw : string)
| stateInStringEsc (raw : string)
| stateInStringEscU (digits : nat) (raw : string)
| stateNeg
| state1
| state0
| stateDot
| stateDot0
| stateE
| stateESign
| stateE0
| stateLit (rest : string) (v : value).

Record scanner := mkScanner {
  step : stepState;
  parseState : list frame
}.

Definition maxNestingDepth : N := 10000.

Definition isSpace (c : ascii) : bool :=
  Ascii.eqb c " " || Ascii.eqb c tab || Ascii.eqb c cr || Ascii.eqb c lf.

Definition isDigit (c : ascii) : bool := (0x30 <=? byteN c) && (byteN c <=? 0x39).
Definition isDigit19 (c : ascii) : bool := (0x31 <=? byteN c) && (byteN c <=? 0x39).
Definition isHex (c : ascii) : bool :=
  match hexval c with Some _ => true | None => false end.

Definition pushParseState (f : frame) (next : stepState) (ps : list frame)
  : option scanner :=
  if N.of_nat (length (f :: ps)) <=? maxNestingDepth
  then Some (mkScanner next (f :: ps))
  else None.

(** A value is complete: hand it to the enclosing container, or finish. *)
Definition endValue (v : value) (ps : list frame) : option scanner :=
  match ps with
  | [] => Some (mkScanner (stateEndTop v) [])
  | parseObjectKey acc _ :: ps' =>
    match v with
    | JString k => Some (mkScanner stateEndValue (parseObjectKey acc (Some k) :: ps'))
    | _ => None
    end
  | parseObjectValue acc k :: ps' =>
    Some (mkScanner stateEndValue (parseObjectValue ((k, v) :: acc) k :: ps'))
  | parseArrayValue acc :: ps' =>
    Some (mkScanner stateEndValue (parseArrayValue (v :: acc) :: ps'))
  end.

(** [popParseState]: the innermost container is closed. *)
Definition popParseState (ps : list frame) : option scanner :=
  match ps with
  | parseObjectValue acc _ :: ps' => endValue (JObject (rev acc)) ps'
  | parseObjectKey acc None :: ps' => endValue (JObject (rev acc)) ps'
  | parseArrayValue acc :: ps' => endValue (JArray (rev acc)) ps'
  | _ => None
  end.

Definition beginString (ps : list frame) (c : ascii) : option scanner :=
  if Ascii.eqb c dquote then Some (mkScanner (stateInString "") ps) else None.

Definition beginValue (ps : list frame) (c : ascii) : option scanner :=
  if Ascii.eqb c "{" then pushParseState (parseObjectKey [] None) stateBeginStringOrEmpty ps
  else if Ascii.eqb c "[" then pushParseState (parseArrayValue []) stateBeginValueOrEmpty ps
  else if Ascii.eqb c dquote then Some (mkScanner (stateInString "") ps)
  else if Ascii.eqb c "-" then Some (mkScanner stateNeg ps)
  else if Ascii.eqb c "0" then Some (mkScanner state0 ps)
  else if Ascii.eqb c "t" then Some (mkScanner (stateLit "rue" (JBool true)) ps)
  else if Ascii.eqb c "f" then Some (mkScanner (stateLit "alse" (JBool false)) ps)
  else if Ascii.eqb c "n" then Some (mkScanner (stateLit "ull" JNull) ps)
  else if isDigit19 c then Some (mkScanner state1 ps)
  else None.

(** [stateEndValue] on a byte that is not white space. *)
Definition afterValue (ps : list frame) (c : ascii) : option scanner :=
  match ps with
  | [] => None
  | parseObjectKey acc (Some k) :: ps' =>
    if Ascii.eqb c ":" then Some (mkScanner stateBeginValue (parseObjectValue acc k :: ps'))
    else None
  | parseObjectKey _ None :: _ => None
  | parseObjectValue acc _ :: ps' =>
    if Ascii.eqb c "," then Some (mkScanner stateBeginString (parseObjectKey acc None :: ps'))
    else if Ascii.eqb c "}" then popParseState ps
    else None
  | parseArrayValue _ :: _ =>
    if Ascii.eqb c "," then Some (mkScanner stateBeginValue ps)
    else if Ascii.eqb c "]" then popParseState ps
    else None
  end.

(** A number is over at the first byte that cannot continue it; that
    byte is then read in the state that follows a value. *)
Definition endNumber (ps : list frame) (c : ascii) : option scanner :=
  match endValue JNumber ps with
  | None => None
  | Some s' =>
    if isSpace c then Some s'
    else
      match step s' with
      | stateEndValue => afterValue (parseState s') c
      | _ => None
      end
  end.

Definition scanStep (s : scanner) (c : ascii) : option scanner :=
  let ps := parseState s in
  match step s with
  | stateBeginValue =>
    if isSpace c then Some s else beginValue ps c
  | stateBeginValueOrEmpty =>
    if isSpace c then Some s
    else if Ascii.eqb c "]" then popParseState ps
    else beginValue ps c
  | stateBeginStringOrEmpty =>
    if isSpace c then Some s
    else if Ascii.eqb c "}" then popParseState ps
    else beginString ps c
  | stateBeginString =>
    if isSpace c then Some s else beginString ps c
  | stateEndValue =>
    if isSpace c then Some s else afterValue ps c
  | stateEndTop _ =>
    if isSpace c then Some s else None
  | stateInString raw =>
    if Ascii.eqb c dquote then
      match unquote raw with
      | Some str => endValue (JString str) ps
      | None => None
      end
    else if Ascii.eqb c "\" then Some (mkScanner (stateInStringEsc (raw +:+ String c "")) ps)
    else if byteN c <? 0x20 then None
    else Some (mkScanner (stateInString (raw +:+ String c "")) ps)
  | stateInStringEsc raw =>
    if Ascii.eqb c "b" || Ascii.eqb c "f" || Ascii.eqb c "n" || Ascii.eqb c "r"
       || Ascii.eqb c "t" || Ascii.eqb c "\" || Ascii.eqb c "/" || Ascii.eqb c dquote
    then Some (mkScanner (stateInString (raw +:+ String c "")) ps)
    else if Ascii.eqb c "u" then Some (mkScanner (stateInStringEscU 4 (raw +:+ String c "")) ps)
    else None
  | stateInStringEscU n raw =>
    if isHex c then
      match n with
      | S (S n') => Some (mkScanner (stateInStringEscU (S n') (raw +:+ String c "")) ps)
      | _ => Some (mkScanner (stateInString (raw +:+ String c "")) ps)
      end
    else None
  | stateNeg =>
    if Ascii.eqb c "0" then Some (mkScanner state0 ps)
    else if isDigit19 c then Some (mkScanner state1 ps)
    else None
  | state1 =>
    if isDigit c then Some s
    else if Ascii.eqb c "." then Some (mkScanner stateDot ps)
    else if Ascii.eqb c "e" || Ascii.eqb c "E" then Some (mkScanner stateE ps)
    else endNumber ps c
  | state0 =>
    if Ascii.eqb c "." then Some (mkScanner stateDot ps)
    else if Ascii.eqb c "e" || Ascii.eqb c "E" then Some (mkScanner stateE ps)
    else endNumber ps c
  | stateDot =>
    if isDigit c then Some (mkScanner stateDot0 ps) else None
  | stateDot0 =>
    if isDigit c then Some s
    else if Ascii.eqb c "e" || Ascii.eqb c "E" then Some (mkScanner stateE ps)
    else endNumber ps c
  | stateE =>
    if Ascii.eqb c "+" || Ascii.eqb c "-" then Some (mkScanner stateESign ps)
    else if isDigit c then Some (mkScanner stateE0 ps)
    else None
  | stateESign =>
    if isDigit c then Some (mkScanner stateE0 ps) else None
  | stateE0 =>
    if isDigit c then Some s else endNumber ps c
  | stateLit rest v =>
    match rest with
    | String x rest' =>
      if Ascii.eqb c x then
        match rest' with
        | EmptyString => endValue v ps
        | _ => Some (mkScanner (stateLit rest' v) ps)
        end
      else None
    | EmptyString => None
    end
  end.

Fixpoint scan (s : option scanner) (data : string) : option scanner :=
  match data with
  | EmptyString => s
  | String c rest =>
    match s with
    | None => None
    | Some s' => scan (scanStep s' c) rest
    end
  end.

(** [eof]: the input is over; a pending number ends here. *)
Definition eof (s : option scanner) : option value :=
  match s with
  | None => None
  | Some s' =>
    match scanStep s' " " with
    | Some (mkScanner (stateEndTop v) _) => Some v
    | _ => None
    end
  end.

(** [checkValid] and the walk of the decoder over the text, in one
    pass: the value [data] denotes, or [None] for a syntax error. *)
Definition parse (data : string) : option value :=
  eof (scan (Some (mkScanner stateBeginValue [])) data).

(** *** Storing a value into the struct (decode.go) *)

Definition foldRune (r : N) : N :=
  if r =? 0x17F then 0x53 else if r =? 0x212A then 0x4B else r.

Definition foldStep (s : string) : string * nat :=
  match s with
  | EmptyString => (EmptyString, 0%nat)
  | String c _ =>
    if byteN c <? utf8.RuneSelf then
      (String (if (0x61 <=? byteN c) && (byteN c <=? 0x7A)
               then byte_of (byteN c - 0x20) else c) "", 1%nat)
    else
      let d := utf8.DecodeRune s in
      (utf8.EncodeRune (foldRune (fst d)), snd d)
  end.

Fixpoint fold_go (fuel : nat) (s : string) : string :=
  match fuel, s with
  | _, EmptyString => EmptyString
  | O, _ => EmptyString
  | S f, _ =>
    let '(out, n) := foldStep s in
    out +:+ fold_go f (skip n s)
  end.

(** [foldName]: the key under which names are compared without regard
    to case. Only the two non-ASCII runes that fold onto ASCII letters
    matter for ASCII field names; the other runes stay outside ASCII. *)
Definition foldName (s : string) : string := fold_go (String.length s) s.

(** The field a member name designates: an exact match first, a
    case-insensitive one otherwise. *)
Definition findField (key : string) : option field :=
  match List.find (fun f => String.eqb (fieldName f) key) fields with
  | Some f => Some f
  | None => List.find (fun f => String.eqb (foldName (fieldName f)) (foldName key)) fields
  end.

Definition kindName (v : value) : string :=
  match v with
  | JNull => "null"
  | JBool _ => "bool"
  | JNumber => "number"
  | JString _ => "string"
  | JArray _ => "array"
  | JObject _ => "object"
  end.

(** [saveError] keeps the first error of a decoding. *)
Definition saveError (saved : option Error) (e : Error) : option Error :=
  match saved with
  | None => Some e
  | Some _ => saved
  end.

Definition decodeMember (acc : ProductEntity * option Error) (m : string * value)
  : ProductEntity * option Error :=
  match findField (fst m) with
  | None => acc
  | Some f =>
    match snd m with
    | JString s => (setField f s (fst acc), snd acc)
    | JNull => acc
    | v => (fst acc, saveError (snd acc) (UnmarshalTypeError (kindName v) (fieldName f)))
    end
  end.

Definition decodeValue (v : value) (p : ProductEntity) : ProductEntity * option Error :=
  match v with
  | JObject ms => fold_left decodeMember ms (p, None)
  | JNull => (p, None)
  | _ => (p, Some (UnmarshalTypeError (kindName v) ""))
  end.

(** [Unmarshal(data, &p)]: the struct after the call and the error
    returned. A syntax error leaves the struct as it was; a value of the
    wrong type is reported while the other members are still stored. *)
Definition Unmarshal (data : string) (p : ProductEntity) : ProductEntity * option Error :=
  match parse data with
  | None => (p, Some SyntaxError)
  | Some v => decodeValue v p
  end.

End json.

(** ** Errors *)

(** The errors the contract returns. The wrappers stand for the
    [fmt.Errorf] calls of the source, each with the error or identifier
    it formats; errors of the stub and of [encoding/json] that the source
    returns as they are keep their own constructor. *)
Inductive error :=
| HostError (msg : string)        (* an error of the stub, returned or wrapped *)
| JSONError (e : json.Error)
| ErrTimestamp (err : error)      (* unable to retrieve transaction timestamp: %v *)
| ErrAlreadyExists (id : string)  (* product with ID %s already exists *)
| ErrRetrieving (err : error)     (* error retrieving product: %v *)
| ErrDoesNotExist (id : string)   (* product with ID %s does not exist *)
| ErrFetching (err : error)       (* error fetching product details: %v *)
| ErrNotFound (id : string)       (* product with ID %s not found *)
| ErrChecking (err : error).      (* error checking product existence: %v *)

(** The error kinds of the specification. *)
Inductive ErrorKind :=
| AlreadyExists
| NotFound
| TimestampUnavailable
| StoreUnavailable
| SerializationFailure.

Definition kindOf (e : error) : ErrorKind :=
  match e with
  | HostError _ => StoreUnavailable
  | JSONError _ => SerializationFailure
  | ErrTimestamp _ => TimestampUnavailable
  | ErrAlreadyExists _ => AlreadyExists
  | ErrRetrieving _ => StoreUnavailable
  | ErrDoesNotExist _ => NotFound
  | ErrFetching _ => StoreUnavailable
  | ErrNotFound _ => NotFound
  | ErrChecking _ => StoreUnavailable
  end.

Inductive result (A : Type) :=
| Ok (a : A)
| Err (e : error).
Arguments Ok {A} a.
Arguments Err {A} e.

(** ** The world state and the chaincode stub *)

(** The stub belongs to the host platform, not to the repository. It is
    taken as the store the contract needs from its environment: get and
    put by key, a range scan in key order, the transaction timestamp,
    each call free to fail with an error of the host. *)

(** The ledger's world state: the value stored under each key. *)
Abbreviation World := (gmap string string).

(** A transaction runs against the world state and may write to it. *)
Definition M (A : Type) : Type := World -> World * result A.

Definition ret {A} (a : A) : M A := fun w => (w, Ok a).
Definition fail {A} (e : error) : M A := fun w => (w, Err e).
Definition bind {A B} (c : M A) (k : A -> M B) : M B :=
  fun w =>
    match c w with
    | (w', Ok a) => k a w'
    | (w', Err e) => (w', Err e)
    end.
(** [wrap f c]: [c], its error passed through [f]. *)
Definition wrap {A} (f : error -> error) (c : M A) : M A :=
  fun w =>
    match c w with
    | (w', Ok a) => (w', Ok a)
    | (w', Err e) => (w', Err (f e))
    end.

Notation "'do' x <- c ; k" := (bind c (fun x => k))
  (at level 10, x name, c at level 100, k at level 200).

(** The transaction timestamp of the proposal. *)
Record Timestamp := mkTimestamp { Seconds : Z; Nanos : Z }.

(** What the host gives one transaction besides the world state: its
    timestamp, and which calls of the stub fail, each with the message of
    the host's error. The contract is read against every such host. *)
Record TransactionContext := mkContext {
  txTimestamp : Timestamp + string;
  getStateFault : string -> option string;
  putStateFault : string -> string -> option string;
  rangeFault : option string;
  nextFault : string -> option string
}.

(** [GetState]: the value under [key], [None] (Go's nil) when there is none. *)
Definition GetState (ctx : TransactionContext) (key : string) : M (option string) :=
  fun w =>
    match getStateFault ctx key with
    | Some msg => (w, Err (HostError msg))
    | None => (w, Ok (w !! key))
    end.

Definition PutState (ctx : TransactionContext) (key value : string) : M unit :=
  fun w =>
    match putStateFault ctx key value with
    | Some msg => (w, Err (HostError msg))
    | None => (<[key := value]> w, Ok tt)
    end.

Definition GetTxTimestamp (ctx : TransactionContext) : M Timestamp :=
  fun w =>
    match txTimestamp ctx with
    | inl timestamp => (w, Ok timestamp)
    | inr msg => (w, Err (HostError msg))
    end.

(** Keys are ordered byte by byte. *)
Definition keyLe (a b : string * string) : Prop := String.le a.1 b.1.

Definition inKeyRange (startKey endKey k : string) : bool :=
  String.leb startKey k && (String.eqb endKey "" || String.ltb k endKey).

(** [GetStateByRange]: the entries whose key lies between [startKey]
    (included) and [endKey] (excluded) in key order; an empty bound is
    open. The iterator is the list of entries still to come. *)
Definition GetStateByRange (ctx : TransactionContext) (startKey endKey : string)
  : M (list (string * string)) :=
  fun w =>
    match rangeFault ctx with
    | Some msg => (w, Err (HostError msg))
    | None =>
      (w, Ok (List.filter (fun kv => inKeyRange startKey endKey kv.1)
                          (merge_sort keyLe (map_to_list w))))
    end.

(** [Next] on an iterator whose next entry is [kv]. *)
Definition Next (ctx : TransactionContext) (kv : string * string)
  : result (string * string) :=
  match nextFault ctx kv.1 with
  | Some msg => Err (HostError msg)
  | None => Ok kv
  end.

(** ** The contract *)
Section Contract.

(** [time.Unix(sec, nsec).Format(time.RFC3339)], in the time zone of the
    process. *)
Variable RFC3339 : Z -> Z -> string.

(** The oracle timestamp: the transaction timestamp as the contract formats it. *)
Definition stamp (timestamp : Timestamp) : string :=
  RFC3339 (Seconds timestamp) (Nanos timestamp).

Definition fetchTransactionTimestamp (ctx : TransactionContext) : M string :=
  do timestamp <- wrap ErrTimestamp (GetTxTimestamp ctx);
  ret (RFC3339 (Seconds timestamp) (Nanos timestamp)).

Definition saveProduct (ctx : TransactionContext) (product : ProductEntity) : M unit :=
  match json.Marshal product with
  | inr e => fail (JSONError e)
  | inl productBytes => PutState ctx (ProductID product) productBytes
  end.

Definition initialProducts (timeNow : string) : list ProductEntity :=
  [ mkProduct "prod1" "Gaming Laptop" "Manufactured" "TechCorp" timeNow timeNow
              "Electronics" "A high-performance gaming laptop";
    mkProduct "prod2" "5G Smartphone" "Manufactured" "MobileCo" timeNow timeNow
              "Electronics" "Latest 5G-enabled smartphone" ].

Fixpoint saveAll (ctx : TransactionContext) (ps : list ProductEntity) : M unit :=
  match ps with
  | [] => ret tt
  | product :: rest => do u <- saveProduct ctx product; saveAll ctx rest
  end.

Definition InitializeLedger (ctx : TransactionContext) : M unit :=
  do timeNow <- fetchTransactionTimestamp ctx;
  saveAll ctx (initialProducts timeNow).

Definition CheckProductExistence (ctx : TransactionContext) (id : string) : M bool :=
  do productBytes <- wrap ErrChecking (GetState ctx id);
  ret (match productBytes with Some _ => true | None => false end).

Definition RegisterProduct (ctx : TransactionContext)
    (id name owner description category : string) : M unit :=
  do exists_ <- CheckProductExistence ctx id;
  if exists_ : bool then fail (ErrAlreadyExists id)
  else
    do timeNow <- fetchTransactionTimestamp ctx;
    let newProduct :=
      mkProduct id name "Manufactured" owner timeNow timeNow category description in
    saveProduct ctx newProduct.

(** [if v != "" { product.F = v }] *)
Definition assignIfSet (f : field) (v : string) (product : ProductEntity) : ProductEntity :=
  if String.eqb v "" then product else setField f v product.

Definition ModifyProduct (ctx : TransactionContext)
    (id status owner description category : string) : M unit :=
  do productBytes <- wrap ErrRetrieving (GetState ctx id);
  match productBytes with
  | None => fail (ErrDoesNotExist id)
  | Some productBytes =>
    (* the error of Unmarshal is not looked at *)
    let product := fst (json.Unmarshal productBytes zeroProduct) in
    let product := assignIfSet FProductStatus status product in
    let product := assignIfSet FCurrentOwner owner product in
    let product := assignIfSet FProductDescription description product in
    let product := assignIfSet FProductCategory category product in
    do updated <- fetchTransactionTimestamp ctx;
    let product := setField FUpdatedDate updated product in
    saveProduct ctx product
  end.

Definition TransferOwnership (ctx : TransactionContext) (id newOwner : string) : M unit :=
  ModifyProduct ctx id "" newOwner "" "".

Definition RetrieveProduct (ctx : TransactionContext) (id : string) : M ProductEntity :=
  do productBytes <- wrap ErrFetching (GetState ctx id);
  match productBytes with
  | None => fail (ErrNotFound id)
  | Some productBytes =>
    match json.Unmarshal productBytes zeroProduct with
    | (_, Some err) => fail (JSONError err)
    | (product, None) => ret product
    end
  end.

(** The loop of [ListAllProducts] over the iterator. *)
Fixpoint listLoop (ctx : TransactionContext) (iterator : list (string * string))
    (allProducts : list ProductEntity) : result (list ProductEntity) :=
  match iterator with
  | [] => Ok allProducts
  | kv :: rest =>
    match Next ctx kv with
    | Err e => Err e
    | Ok queryResponse =>
      match json.Unmarshal queryResponse.2 zeroProduct with
      | (_, Some err) => Err (JSONError err)
      | (product, None) => listLoop ctx rest (allProducts ++ [product])
      end
    end
  end.

Definition ListAllProducts (ctx : TransactionContext) : M (list ProductEntity) :=
  do resultsIterator <- GetStateByRange ctx "" "";
  fun w => (w, listLoop ctx resultsIterator []).

(** *** Sequences of transactions *)

Inductive Op :=
| OpRegister (id name owner description category : string)
| OpModify (id status owner description category : string)
| OpTransfer (id newOwner : string).

Definition invoke (ctx : TransactionContext) (op : Op) : M unit :=
  match op with
  | OpRegister id name owner description category =>
    RegisterProduct ctx id name owner description category
  | OpModify id status owner description category =>
    ModifyProduct ctx id status owner description category
  | OpTransfer id newOwner => TransferOwnership ctx id newOwner
  end.

(** The world state after the transactions of [tr], each in its own
    context, run one after the other from [w]. *)
Fixpoint run (tr : list (TransactionContext * Op)) (w : World) : World :=
  match tr with
  | [] => w
  | (ctx, op) :: tr' => run tr' (invoke ctx op w).1
  end.

(** The oracle timestamp of a transaction, when the host provides one. *)
Definition stampOf (ctx : TransactionContext) : option string :=
  match txTimestamp ctx with
  | inl timestamp => Some (stamp timestamp)
  | inr _ => None
  end.

Definition stamps (tr : list (TransactionContext * Op)) : list string :=
  omap (fun step => stampOf step.1) tr.

End Contract.

(** The identifier a registration is asked to create, if the operation is one. *)
Definition registeredId (op : Op) : option string :=
  match op with
  | OpRegister id _ _ _ _ => Some id
  | _ => None
  end.

Definition registersValidId (step : TransactionContext * Op) : Prop :=
  forall id, registeredId step.2 = Some id -> utf8.ValidString id = true.

(** ** Vocabulary of the specification *)

(** An operation fails with an error of kind [k] and leaves the world
    state [w] as it was. *)
Definition failsWith {A} (k : ErrorKind) (w : World) (r : World * result A) : Prop :=
  exists e, r = (w, Err e) /\ kindOf e = k.

(** The record a key holds: what deserializing its value yields. *)
Definition stored (w : World) (k : string) : option ProductEntity :=
  match w !! k with
  | Some bytes =>
    match json.Unmarshal bytes zeroProduct with
    | (p, None) => Some p
    | (_, Some _) => None
    end
  | None => None
  end.

(** The partial-update merge rule in the specification's words: a
    proposed value replaces the field when it is not empty; [updatedAt] is
    refreshed; [id], [name] and [createdAt] are not part of the update. *)
Definition proposed (value current : string) : string :=
  if decide (value = "") then current else value.

Definition mergeRule (p : ProductEntity) (status owner description category now : string)
  : ProductEntity :=
  mkProduct (ProductID p) (ProductName p)
            (proposed status (ProductStatus p))
            (proposed owner (CurrentOwner p))
            (CreatedDate p) now
            (proposed category (ProductCategory p))
            (proposed description (ProductDescription p)).

(** The specification's claim on timestamps, for the transactions of
    [tr1] followed by those of [tr2] from the empty ledger: every record
    there after [tr1] has createdAt no later than updatedAt, and the
    record under its key after [tr2] has the same createdAt. *)
Definition timestampsHold (RFC3339 : Z -> Z -> string) (le : relation string)
    (tr1 tr2 : list (TransactionContext * Op)) : Prop :=
  forall k p,
    stored (run RFC3339 tr1 ∅) k = Some p ->
    le (CreatedDate p) (UpdatedDate p) /\
    exists q, stored (run RFC3339 (tr1 ++ tr2) ∅) k = Some q /\
              CreatedDate q = CreatedDate p.

(** The oracle timestamps of the transactions never decrease. *)
Definition nonDecreasing (RFC3339 : Z -> Z -> string) (le : relation string)
    (tr : list (TransactionContext * Op)) : Prop :=
  StronglySorted le (stamps RFC3339 tr).

(** A JSON round trip gives the record back. *)
Definition roundTrips (p : ProductEntity) : Prop :=
  forall bytes, json.Marshal p = inl bytes -> json.Unmarshal bytes zeroProduct = (p, None).

(** ** Sample data *)

(** A host that never fails: the in-memory store. *)
Definition quietContext (seconds : Z) : TransactionContext :=
  mkContext (inl (mkTimestamp seconds 0)) (fun _ => None) (fun _ _ => None) None (fun _ => None).

(** A clock for the examples: three instants of one morning, UTC. *)
Definition sampleClock (seconds nanos : Z) : string :=
  if (seconds <=? 1)%Z then "2025-10-14T10:30:00Z"
  else if (seconds =? 2)%Z then "2025-10-14T11:45:00Z"
  else "2025-10-14T12:00:00Z".

Definition widget : ProductEntity :=
  mkProduct "p1" "Widget" "Manufactured" "Acme"
            "2025-10-14T10:30:00Z" "2025-10-14T10:30:00Z" "cat" "desc".

Definition sampleWorld : World := {[ "p1" := json.encode widget ]}.

(** A byte that is not UTF-8, and the encoding of U+FFFD it is read back as. *)
Definition badByte : string := String (byte_of 0xFF) "".
Definition replacement : string := utf8.EncodeRune utf8.RuneError.

Definition badName : ProductEntity :=
  mkProduct "p1" badByte "Manufactured" "Acme"
            "2025-10-14T10:30:00Z" "2025-10-14T10:30:00Z" "cat" "desc".

(** Two registrations whose identifiers are written as the same JSON
    text, then an update of the second. *)
Definition aliasSetup : list (TransactionContext * Op) :=
  [ (quietContext 1, OpRegister replacement "first" "Acme" "desc" "cat");
    (quietContext 2, OpRegister badByte "second" "Acme" "desc" "cat") ].
Definition aliasUpdate : list (TransactionContext * Op) :=
  [ (quietContext 3, OpModify badByte "Shipped" "" "" "") ].

Definition sampleTrace : list (TransactionContext * Op) :=
  [ (quietContext 1, OpRegister "p1" "Widget" "Acme" "desc" "cat");
    (quietContext 2, OpModify "p1" "Shipped" "" "" "") ].
Definition sampleTrace2 : list (TransactionContext * Op) :=
  [ (quietContext 3, OpTransfer "p1" "Globex") ].

(** Stored bytes that are not a product: text that is not JSON, and an
    object whose name is a number. *)
Definition garbageWorld : World := {[ "p1" := "garbage" ]}.
Definition partialBytes : string :=
  "{" +:+ json.appendString "product_id" +:+ ":" +:+ json.appendString "p1" +:+ ","
      +:+ json.appendString "product_name" +:+ ":7}".
Definition partialWorld : World := {[ "p1" := partialBytes ]}.

(** Two products registered in the order B, A. *)
Definition twoProducts : World :=
  run sampleClock
      [ (quietContext 1, OpRegister "B" "Bolt" "Acme" "desc" "cat");
        (quietContext 2, OpRegister "A" "Anvil" "Acme" "desc" "cat") ] ∅.

(** ** Vocabulary of the proofs *)

(** All bytes are outside ASCII. *)
Fixpoint highBytes (s : string) : bool :=
  match s with
  | EmptyString => true
  | String c t => (0x80 <=? byteN c) && highBytes t
  end.


(** Text that the scanner, inside a string literal, takes as part of the literal. *)
Definition litSafe (out : string) : Prop :=
  forall raw ps,
    json.scan (Some (json.mkScanner (json.stateInString raw) ps)) out
    = Some (json.mkScanner (json.stateInString (raw +:+ out)) ps).


(** The scanner states in which a quote opens a string. *)
Definition opensString (st : json.stepState) : Prop :=
  st = json.stateBeginValue \/ st = json.stateBeginString \/ st = json.stateBeginStringOrEmpty.


(** The member [Marshal] writes for a field, as the scanner reads it back. *)
Definition memberOf (p : ProductEntity) (f : field) : string * json.value :=
  (json.coerceUTF8 (fieldName f), json.JString (json.coerceUTF8 (getField f p))).


(** The record [ModifyProduct] saves, from the one it read. *)
Definition modified (p : ProductEntity) (status owner description category now : string)
  : ProductEntity :=
  setField FUpdatedDate now
    (assignIfSet FProductCategory category
       (assignIfSet FProductDescription description
          (assignIfSet FCurrentOwner owner
             (assignIfSet FProductStatus status p)))).


(** The entries a scan with open bounds goes through. *)
Definition scanned (w : World) : list (string * string) :=
  merge_sort keyLe (map_to_list w).


(** Deserializing the value of the entry yields the product. *)
Definition decodes (kv : string * string) (p : ProductEntity) : Prop :=
  json.Unmarshal kv.2 zeroProduct = (p, None).


(** Every value is a readable record filed under its own identifier,
    with well-formed dates in order. *)
Definition Good (tle : relation string) (w : World) : Prop :=
  forall k bytes, w !! k = Some bytes ->
    exists q, json.Unmarshal bytes zeroProduct = (q, None) /\
              ProductID q = k /\ utf8.ValidString k = true /\
              utf8.ValidString (CreatedDate q) = true /\
              utf8.ValidString (UpdatedDate q) = true /\
              tle (CreatedDate q) (UpdatedDate q).

(** No record was updated after [t]. *)
Definition Before (tle : relation string) (w : World) (t : string) : Prop :=
  forall k q, stored w k = Some q -> tle (UpdatedDate q) t.


Definition handedOver : ProductEntity :=
  mkProduct "p1" "Widget" "Manufactured" "Globex"
            "2025-10-14T10:30:00Z" "2025-10-14T11:45:00Z" "cat" "desc".
Definition shipped : ProductEntity :=
  mkProduct "p1" "Widget" "Shipped" "Acme"
            "2025-10-14T10:30:00Z" "2025-10-14T11:45:00Z" "cat" "desc".

Definition anvil : ProductEntity :=
  mkProduct "A" "Anvil" "Manufactured" "Acme"
            "2025-10-14T11:45:00Z" "2025-10-14T11:45:00Z" "cat" "desc".
Definition bolt : ProductEntity :=
  mkProduct "B" "Bolt" "Manufactured" "Acme"
            "2025-10-14T10:30:00Z" "2025-10-14T10:30:00Z" "cat" "desc".

Definition blank : ProductEntity :=
  mkProduct "" "" "Manufactured" "" "2025-10-14T10:30:00Z" "2025-10-14T10:30:00Z" "" "".


(** ** Vocabulary of the further properties *)

(** The two records [InitializeLedger] writes at the time [timeNow]. *)
Definition seed1 (timeNow : string) : ProductEntity :=
  mkProduct "prod1" "Gaming Laptop" "Manufactured" "TechCorp" timeNow timeNow
            "Electronics" "A high-performance gaming laptop".
Definition seed2 (timeNow : string) : ProductEntity :=
  mkProduct "prod2" "5G Smartphone" "Manufactured" "MobileCo" timeNow timeNow
            "Electronics" "Latest 5G-enabled smartphone".

(** Every key of [w] is still a key of [w']: nothing was deleted. *)
Definition keeps (w w' : World) : Prop :=
  forall k, is_Some (w !! k) -> is_Some (w' !! k).

(** A string of bytes that [json.Marshal] writes as they are. *)
Fixpoint plain (s : string) : bool :=
  match s with
  | EmptyString => true
  | String c t => json.htmlSafe c && plain t
  end.

(** The text of a member: the name and the value between quotes. *)
Definition member (name value : string) : string :=
  String json.dquote (name +:+ String json.dquote
    (String ":" (String json.dquote (value +:+ String json.dquote "")))).

(** A host whose timestamp service is down. *)
Definition noClock : TransactionContext :=
  mkContext (inr "no timestamp") (fun _ => None) (fun _ _ => None) None (fun _ => None).

(** A host whose store cannot be read. *)
Definition noReads : TransactionContext :=
  mkContext (inl (mkTimestamp 2 0)) (fun _ => Some "unavailable") (fun _ _ => None)
            None (fun _ => None).

(** A host whose store refuses every write. *)
Definition noWrites : TransactionContext :=
  mkContext (inl (mkTimestamp 2 0)) (fun _ => None) (fun _ _ => Some "read only")
            None (fun _ => None).

(** A host whose store refuses the writes under [prod2] only. *)
Definition noProd2 : TransactionContext :=
  mkContext (inl (mkTimestamp 2 0)) (fun _ => None)
            (fun k _ => if String.eqb k "prod2" then Some "refused" else None)
            None (fun _ => None).

(** A host whose range scans fail. *)
Definition noScan : TransactionContext :=
  mkContext (inl (mkTimestamp 2 0)) (fun _ => None) (fun _ _ => None)
            (Some "scan failed") (fun _ => None).

(** A host none of whose calls fails. *)
Definition faultless (ctx : TransactionContext) : Prop :=
  (forall k, getStateFault ctx k = None) /\
  (forall k v, putStateFault ctx k v = None) /\
  rangeFault ctx = None /\
  (forall k, nextFault ctx k = None).

(** The strings are all valid UTF-8. *)
Definition allValid (l : list string) : bool := forallb utf8.ValidString l.

(** The identifier a transaction is about. *)
Definition target (op : Op) : string :=
  match op with
  | OpRegister id _ _ _ _ => id
  | OpModify id _ _ _ _ => id
  | OpTransfer id _ => id
  end.

(** The value under [id], if there is one, carries [id] as its product_id. *)
Definition filed (w : World) (id : string) : Prop :=
  forall bytes, w !! id = Some bytes ->
    ProductID (json.Unmarshal bytes zeroProduct).1 = id.

(** A ledger whose one record is not under its own identifier. *)
Definition misfiled : World := {[ "k" := json.encode widget ]}.

(** A ledger with something else under [prod1]. *)
Definition staleSeed : World := {[ "prod1" := "junk" ]}.


(** * Properties *)

(** ** The arithmetic of UTF-8 *)

Ltac nlia := zify; Z.to_euclidean_division_equations; lia.

Lemma lor_shiftl_add (a b n : N) : b < 2 ^ n -> N.lor (N.shiftl a n) b = a * 2 ^ n + b.
Proof.
  intros Hb. rewrite <- N.lxor_lor, <- N.add_nocarry_lxor, N.shiftl_mul_pow2; try reflexivity.
  all: apply N.bits_inj; intros i; rewrite N.land_spec, N.bits_0.
  all: destruct (N.lt_ge_cases i n) as [Hi|Hi].
  all: try (rewrite N.shiftl_spec_low by assumption; reflexivity).
  all: assert (N.testbit b i = false) as ->
      by (destruct (N.eq_dec b 0) as [->|Hz]; [apply N.bits_0|];
          apply N.bits_above_log2; apply N.log2_lt_pow2; [lia|];
          eapply N.lt_le_trans; [exact Hb|]; apply N.pow_le_mono_r; lia).
  all: apply Bool.andb_false_r.
Qed.

Lemma lor_high_low (c x n : N) : x < 2 ^ n -> c mod 2 ^ n = 0 -> N.lor c x = c + x.
Proof.
  intros Hx Hc.
  assert (c = N.shiftl (c / 2 ^ n) n) as Hs.
  { rewrite N.shiftl_mul_pow2. pose proof (N.div_mod' c (2 ^ n)). lia. }
  rewrite Hs at 1. rewrite lor_shiftl_add by assumption.
  pose proof (N.div_mod' c (2 ^ n)). lia.
Qed.

Lemma enc_dec2 (n0 n1 : N) :
  0xC2 <= n0 <= 0xDF -> 0x80 <= n1 <= 0xBF ->
  let r := N.lor (N.shiftl (N.land n0 0x1F) 6) (N.land n1 0x3F) in
  0x80 <= r <= 0x7FF /\ N.lor 0xC0 (N.shiftr r 6) = n0 /\ N.lor 0x80 (N.land r 0x3F) = n1.
Proof.
  intros H0 H1 r. subst r.
  change 0x1F with (N.ones 5). change 0x3F with (N.ones 6).
  rewrite !N.land_ones.
  rewrite lor_shiftl_add by (apply N.mod_lt; discriminate).
  rewrite N.shiftr_div_pow2.
  change (2 ^ 5) with 32. change (2 ^ 6) with 64.
  rewrite (lor_high_low 0xC0 _ 5), (lor_high_low 0x80 _ 6); try reflexivity.
  all: change (2 ^ 5) with 32; change (2 ^ 6) with 64.
  all: nlia.
Qed.

Lemma shr6 (a b : N) : b < 64 -> N.shiftr (a * 64 + b) 6 = a.
Proof. intros. rewrite N.shiftr_div_pow2. change (2 ^ 6) with 64. nlia. Qed.

Lemma low6 (a b : N) : b < 64 -> N.land (a * 64 + b) 0x3F = b.
Proof.
  intros. change 0x3F with (N.ones 6). rewrite N.land_ones.
  change (2 ^ 6) with 64. nlia.
Qed.

Lemma lor6 (a b : N) : b < 64 -> N.lor (N.shiftl a 6) b = a * 64 + b.
Proof. intros. rewrite lor_shiftl_add; [reflexivity | assumption]. Qed.

Lemma mask_cont (n : N) : 0x80 <= n <= 0xBF -> N.land n 0x3F < 64 /\ n = 0x80 + N.land n 0x3F.
Proof.
  intros. change 0x3F with (N.ones 6). rewrite N.land_ones.
  change (2 ^ 6) with 64. nlia.
Qed.

Lemma lor80 (y : N) : y < 64 -> N.lor 0x80 y = 0x80 + y.
Proof. intros. apply (lor_high_low _ _ 6); [assumption | reflexivity]. Qed.

Lemma packed3 (x y1 y2 : N) :
  y1 < 64 -> y2 < 64 ->
  N.lor (N.lor (N.shiftl x 12) (N.shiftl y1 6)) y2 = (x * 64 + y1) * 64 + y2.
Proof.
  intros.
  replace (N.shiftl x 12) with (N.shiftl (N.shiftl x 6) 6)
    by (rewrite N.shiftl_shiftl; reflexivity).
  rewrite <- N.shiftl_lor, (lor6 x y1), lor6 by assumption. reflexivity.
Qed.

Lemma packed4 (x y1 y2 y3 : N) :
  y1 < 64 -> y2 < 64 -> y3 < 64 ->
  N.lor (N.lor (N.lor (N.shiftl x 18) (N.shiftl y1 12)) (N.shiftl y2 6)) y3
  = ((x * 64 + y1) * 64 + y2) * 64 + y3.
Proof.
  intros.
  replace (N.shiftl x 18) with (N.shiftl (N.shiftl x 12) 6)
    by (rewrite N.shiftl_shiftl; reflexivity).
  replace (N.shiftl y1 12) with (N.shiftl (N.shiftl y1 6) 6)
    by (rewrite N.shiftl_shiftl; reflexivity).
  rewrite <- !N.shiftl_lor, packed3, lor6 by assumption. reflexivity.
Qed.

Lemma enc_dec3 (n0 n1 n2 : N) :
  0xE0 <= n0 <= 0xEF -> 0x80 <= n1 <= 0xBF -> 0x80 <= n2 <= 0xBF ->
  (n0 = 0xE0 -> 0xA0 <= n1) -> (n0 = 0xED -> n1 <= 0x9F) ->
  let r := N.lor (N.lor (N.shiftl (N.land n0 0x0F) 12) (N.shiftl (N.land n1 0x3F) 6))
                 (N.land n2 0x3F) in
  0x800 <= r <= 0xFFFF /\ ~ (0xD800 <= r <= 0xDFFF) /\
  N.lor 0xE0 (N.shiftr r 12) = n0 /\
  N.lor 0x80 (N.land (N.shiftr r 6) 0x3F) = n1 /\
  N.lor 0x80 (N.land r 0x3F) = n2.
Proof.
  intros H0 H1 H2 Hlo Hhi r. subst r.
  destruct (mask_cont n1 H1) as [B1 E1]. destruct (mask_cont n2 H2) as [B2 E2].
  assert (N.land n0 0x0F < 16 /\ n0 = 0xE0 + N.land n0 0x0F) as [B0 E0].
  { change 0x0F with (N.ones 4). rewrite N.land_ones. change (2 ^ 4) with 16. nlia. }
  set (x := N.land n0 0x0F) in *. set (y1 := N.land n1 0x3F) in *.
  set (y2 := N.land n2 0x3F) in *.
  rewrite packed3 by assumption.
  replace (N.shiftr ((x * 64 + y1) * 64 + y2) 12) with x
    by (rewrite <- (N.shiftr_shiftr _ 6 6), !shr6 by assumption; reflexivity).
  rewrite shr6, !low6, !lor80, (lor_high_low 0xE0 x 4) by (assumption || reflexivity).
  repeat split; lia.
Qed.

Lemma enc_dec4 (n0 n1 n2 n3 : N) :
  0xF0 <= n0 <= 0xF4 -> 0x80 <= n1 <= 0xBF -> 0x80 <= n2 <= 0xBF -> 0x80 <= n3 <= 0xBF ->
  (n0 = 0xF0 -> 0x90 <= n1) -> (n0 = 0xF4 -> n1 <= 0x8F) ->
  let r := N.lor (N.lor (N.lor (N.shiftl (N.land n0 0x07) 18) (N.shiftl (N.land n1 0x3F) 12))
                        (N.shiftl (N.land n2 0x3F) 6)) (N.land n3 0x3F) in
  0x10000 <= r <= 0x10FFFF /\
  N.lor 0xF0 (N.shiftr r 18) = n0 /\
  N.lor 0x80 (N.land (N.shiftr r 12) 0x3F) = n1 /\
  N.lor 0x80 (N.land (N.shiftr r 6) 0x3F) = n2 /\
  N.lor 0x80 (N.land r 0x3F) = n3.
Proof.
  intros H0 H1 H2 H3 Hlo Hhi r. subst r.
  destruct (mask_cont n1 H1) as [B1 E1]. destruct (mask_cont n2 H2) as [B2 E2].
  destruct (mask_cont n3 H3) as [B3 E3].
  assert (N.land n0 0x07 < 8 /\ n0 = 0xF0 + N.land n0 0x07) as [B0 E0].
  { change 0x07 with (N.ones 3). rewrite N.land_ones. change (2 ^ 3) with 8. nlia. }
  set (x := N.land n0 0x07) in *. set (y1 := N.land n1 0x3F) in *.
  set (y2 := N.land n2 0x3F) in *. set (y3 := N.land n3 0x3F) in *.
  rewrite packed4 by assumption.
  replace (N.shiftr (((x * 64 + y1) * 64 + y2) * 64 + y3) 18) with x
    by (rewrite <- (N.shiftr_shiftr _ 12 6), <- (N.shiftr_shiftr _ 6 6), !shr6 by assumption;
        reflexivity).
  replace (N.shiftr (((x * 64 + y1) * 64 + y2) * 64 + y3) 12) with (x * 64 + y1)
    by (rewrite <- (N.shiftr_shiftr _ 6 6), !shr6 by assumption; reflexivity).
  rewrite shr6, !low6, !lor80, (lor_high_low 0xF0 x 3) by (assumption || reflexivity).
  repeat split; lia.
Qed.

(** ** Strings as byte sequences *)
Lemma str_app_cons (c : ascii) (s t : string) : String c s +:+ t = String c (s +:+ t).
Proof. reflexivity. Qed.
Lemma str_app_nil_l (s : string) : "" +:+ s = s.
Proof. reflexivity. Qed.
Lemma str_app_nil_r (s : string) : s +:+ "" = s.
Proof. induction s as [|c s IH]; [reflexivity|]. rewrite str_app_cons, IH. reflexivity. Qed.
Lemma str_app_assoc (s t u : string) : (s +:+ t) +:+ u = s +:+ (t +:+ u).
Proof. induction s as [|c s IH]; [reflexivity|]. rewrite !str_app_cons, IH. reflexivity. Qed.
Lemma str_length_app (s t : string) :
  String.length (s +:+ t) = (String.length s + String.length t)%nat.
Proof. induction s as [|c s IH]; [reflexivity|]. rewrite str_app_cons. simpl. rewrite IH. reflexivity. Qed.
Lemma take_app_length (w t : string) : take_str (String.length w) (w +:+ t) = w.
Proof. induction w as [|c w IH]; [reflexivity|]. rewrite str_app_cons. simpl. rewrite IH. reflexivity. Qed.
Lemma skip_app_length (w t : string) : skip (String.length w) (w +:+ t) = t.
Proof. induction w as [|c w IH]; [reflexivity|]. rewrite str_app_cons. simpl. exact IH. Qed.

Lemma byte_of_byteN (c : ascii) : byte_of (byteN c) = c.
Proof. apply ascii_N_embedding. Qed.

Lemma first_ascii (b : ascii) : utf8.first b = utf8.Ascii1 <-> byteN b < 0x80.
Proof.
  unfold utf8.first.
  repeat match goal with
         | |- context [N.ltb ?a ?b] => destruct (N.ltb_spec a b)
         | |- context [N.eqb ?a ?b] => destruct (N.eqb_spec a b)
         end; split; intros; (discriminate || lia || reflexivity).
Qed.

Lemma first_lead (b : ascii) sz lo hi :
  utf8.first b = utf8.Lead sz lo hi ->
  0x80 <= lo /\ hi <= 0xBF /\
  ((sz = 2%nat /\ 0xC2 <= byteN b <= 0xDF) \/
   (sz = 3%nat /\ 0xE0 <= byteN b <= 0xEF /\
    (byteN b = 0xE0 -> lo = 0xA0) /\ (byteN b = 0xED -> hi = 0x9F)) \/
   (sz = 4%nat /\ 0xF0 <= byteN b <= 0xF4 /\
    (byteN b = 0xF0 -> lo = 0x90) /\ (byteN b = 0xF4 -> hi = 0x8F))).
Proof.
  unfold utf8.first.
  repeat match goal with
         | |- context [N.ltb ?a ?b] => destruct (N.ltb_spec a b)
         | |- context [N.eqb ?a ?b] => destruct (N.eqb_spec a b)
         end; intros [= <- <- <-] || discriminate; (split; [lia | split; [lia|]]).
  all: first [ left; split; [reflexivity | lia]
             | right; left; repeat split; (reflexivity || lia)
             | right; right; repeat split; (reflexivity || lia) ].
Qed.

Lemma inRange_spec lo hi c : utf8.inRange lo hi c = true <-> lo <= byteN c <= hi.
Proof. unfold utf8.inRange. rewrite andb_true_iff, !N.leb_le. tauto. Qed.

(** A successful decoding step covers a well-formed encoding [w] at the
    head of the input; encoding the rune gives [w] back, and the step
    does not depend on what follows [w]. *)
Lemma DecodeRune_ok (s : string) :
  s <> "" -> utf8.isError (utf8.DecodeRune s) = false ->
  exists w tl,
    s = w +:+ tl /\ String.length w = snd (utf8.DecodeRune s) /\
    (1 <= String.length w)%nat /\
    utf8.EncodeRune (fst (utf8.DecodeRune s)) = w /\
    (forall rest, utf8.DecodeRune (w +:+ rest) = utf8.DecodeRune s) /\
    (forall b t, s = String b t -> 0x80 <= byteN b -> highBytes w = true).
Proof.
  destruct s as [|b0 t]; [congruence|]. intros _.
  unfold utf8.DecodeRune at 1 2 3 4.
  destruct (utf8.first b0) eqn:Hf.
  - intros _. apply first_ascii in Hf.
    exists (String b0 ""), t.
    split; [reflexivity|]. split; [reflexivity|]. split; [simpl; lia|]. split; [|split].
    + unfold utf8.EncodeRune. simpl fst.
      destruct (N.leb_spec (byteN b0) 0x7F); [|lia]. rewrite byte_of_byteN. reflexivity.
    + intros rest. simpl. apply first_ascii in Hf. rewrite Hf. reflexivity.
    + intros b t' [= <- <-] ?. lia.
  - discriminate.
  - destruct (first_lead _ _ _ _ Hf) as (Hlo & Hhi & Hsz).
    destruct t as [|b1 t1]; [discriminate|].
    destruct (utf8.inRange lo hi b1) eqn:R1; [|discriminate]. simpl negb. cbv iota.
    pose proof R1 as R1'. apply inRange_spec in R1'.
    destruct Hsz as [(-> & H0) | [(-> & H0 & Ha & Hb) | (-> & H0 & Ha & Hb)]].
    + (* two bytes *)
      intros _. simpl Nat.leb. cbv iota.
      exists (String b0 (String b1 "")), t1.
      destruct (enc_dec2 (byteN b0) (byteN b1)) as (Hr & E0 & E1); [lia | lia |].
      split; [reflexivity|]. split; [reflexivity|]. split; [simpl; lia|]. split; [|split].
      * unfold utf8.EncodeRune, utf8.maskx. simpl fst.
        destruct (N.leb_spec (N.lor (N.shiftl (N.land (byteN b0) 31) 6) (N.land (byteN b1) 63)) 0x7F);
          [lia|].
        destruct (N.leb_spec (N.lor (N.shiftl (N.land (byteN b0) 31) 6) (N.land (byteN b1) 63)) 0x7FF);
          [|lia].
        rewrite E0, E1, !byte_of_byteN. reflexivity.
      * intros rest. simpl. rewrite Hf, R1. reflexivity.
      * intros b t' [= <- <-] ?. simpl.
        destruct (N.leb_spec 128 (byteN b0)); [|lia].
        destruct (N.leb_spec 128 (byteN b1)); [|lia]. reflexivity.
    + (* three bytes *)
      simpl Nat.leb. cbv iota.
      destruct t1 as [|b2 t2]; [discriminate|].
      destruct (utf8.cont b2) eqn:R2; [|discriminate]. simpl negb. cbv iota.
      intros _. pose proof R2 as R2'. apply inRange_spec in R2'.
      exists (String b0 (String b1 (String b2 ""))), t2.
      destruct (enc_dec3 (byteN b0) (byteN b1) (byteN b2)) as (Hr & Hs & E0 & E1 & E2);
        [lia | lia | lia | intros E; specialize (Ha E); lia | intros E; specialize (Hb E); lia |].
      split; [reflexivity|]. split; [reflexivity|]. split; [simpl; lia|]. split; [|split].
      * unfold utf8.EncodeRune, utf8.maskx, utf8.encode3. simpl fst.
        set (r := N.lor _ (N.land (byteN b2) 63)) in *.
        destruct (N.leb_spec r 0x7F); [lia|].
        destruct (N.leb_spec r 0x7FF); [lia|].
        unfold utf8.MaxRune, utf8.surrogateMin, utf8.surrogateMax.
        destruct (N.ltb_spec 0x10FFFF r); [lia|].
        destruct (N.leb_spec 0xD800 r), (N.leb_spec r 0xDFFF); try lia; simpl orb; cbv iota.
        all: destruct (N.leb_spec r 0xFFFF); [|lia].
        all: rewrite E0, E1, E2, !byte_of_byteN; reflexivity.
      * intros rest. simpl. rewrite Hf, R1, R2. reflexivity.
      * intros b t' [= <- <-] ?. simpl.
        destruct (N.leb_spec 128 (byteN b0)); [|lia].
        destruct (N.leb_spec 128 (byteN b1)); [|lia].
        destruct (N.leb_spec 128 (byteN b2)); [|lia]. reflexivity.
    + (* four bytes *)
      simpl Nat.leb. cbv iota.
      destruct t1 as [|b2 t2]; [discriminate|].
      destruct (utf8.cont b2) eqn:R2; [|discriminate]. simpl negb. cbv iota.
      destruct t2 as [|b3 t3]; [discriminate|].
      destruct (utf8.cont b3) eqn:R3; [|discriminate]. simpl negb. cbv iota.
      intros _. pose proof R2 as R2'. apply inRange_spec in R2'.
      pose proof R3 as R3'. apply inRange_spec in R3'.
      exists (String b0 (String b1 (String b2 (String b3 "")))), t3.
      destruct (enc_dec4 (byteN b0) (byteN b1) (byteN b2) (byteN b3))
        as (Hr & E0 & E1 & E2 & E3);
        [lia | lia | lia | lia | intros E; specialize (Ha E); lia
         | intros E; specialize (Hb E); lia |].
      split; [reflexivity|]. split; [reflexivity|]. split; [simpl; lia|]. split; [|split].
      * unfold utf8.EncodeRune, utf8.maskx. simpl fst.
        set (r := N.lor _ (N.land (byteN b3) 63)) in *.
        destruct (N.leb_spec r 0x7F); [lia|].
        destruct (N.leb_spec r 0x7FF); [lia|].
        unfold utf8.MaxRune, utf8.surrogateMin, utf8.surrogateMax.
        destruct (N.ltb_spec 0x10FFFF r); [lia|].
        destruct (N.leb_spec 0xD800 r), (N.leb_spec r 0xDFFF); try lia; simpl orb; cbv iota.
        all: destruct (N.leb_spec r 0xFFFF); [lia|].
        all: rewrite E0, E1, E2, E3, !byte_of_byteN; reflexivity.
      * intros rest. simpl. rewrite Hf, R1, R2, R3. reflexivity.
      * intros b t' [= <- <-] ?. simpl.
        destruct (N.leb_spec 128 (byteN b0)); [|lia].
        destruct (N.leb_spec 128 (byteN b1)); [|lia].
        destruct (N.leb_spec 128 (byteN b2)); [|lia].
        destruct (N.leb_spec 128 (byteN b3)); [|lia]. reflexivity.
Qed.

(** ** String literals: what is written is read back coerced *)
Lemma scan_app (st : option json.scanner) (a b : string) :
  json.scan st (a +:+ b) = json.scan (json.scan st a) b.
Proof.
  revert st. induction a as [|c a IH]; intros st; [reflexivity|].
  rewrite str_app_cons. simpl. destruct st as [s'|].
  - apply IH.
  - clear IH. induction b; [reflexivity|]. reflexivity.
Qed.

Lemma scan_None (b : string) : json.scan None b = None.
Proof. destruct b; reflexivity. Qed.

Lemma litSafe_nil : litSafe "".
Proof. intros raw ps. simpl. rewrite str_app_nil_r. reflexivity. Qed.

Lemma litSafe_app a b : litSafe a -> litSafe b -> litSafe (a +:+ b).
Proof.
  intros Ha Hb raw ps. rewrite scan_app, Ha, Hb, str_app_assoc. reflexivity.
Qed.

Lemma eqb_high (b c : ascii) : 0x80 <= byteN b -> byteN c < 0x80 -> Ascii.eqb b c = false.
Proof.
  intros Hb Hc. destruct (Ascii.eqb_spec b c) as [->|]; [lia | reflexivity].
Qed.

Lemma litSafe_high (w : string) : highBytes w = true -> litSafe w.
Proof.
  induction w as [|c w IH]; intros H; [apply litSafe_nil|].
  simpl in H. apply andb_true_iff in H as [Hc Hw]. apply N.leb_le in Hc.
  change (String c w) with (String c "" +:+ w). apply litSafe_app; [|auto].
  intros raw ps. simpl. unfold json.scanStep. simpl.
  rewrite !eqb_high by (assumption || (vm_compute; reflexivity)).
  destruct (N.ltb_spec (byteN c) 32); [lia|]. reflexivity.
Qed.

Lemma isError_width d : utf8.isError d = true -> snd d = 1%nat.
Proof.
  unfold utf8.isError. intros H. apply andb_true_iff in H as [_ H].
  apply Nat.eqb_eq in H. exact H.
Qed.

Ltac eval_quoteStep :=
  repeat match goal with
  | |- context [json.quoteStep ?s] =>
    let o := eval vm_compute in (json.quoteStep s) in
    change (json.quoteStep s) with o
  end;
  repeat match goal with
  | |- context [json.coerceStep ?s] =>
    let o := eval vm_compute in (json.coerceStep s) in
    change (json.coerceStep s) with o
  end; cbv beta iota delta [fst snd].

Lemma quoteStep_ascii (b : ascii) (t : string) :
  byteN b < 0x80 ->
  snd (json.quoteStep (String b t)) = snd (json.coerceStep (String b t)) /\
  litSafe (fst (json.quoteStep (String b t))) /\
  forall rest,
    json.unquoteStep (fst (json.quoteStep (String b t)) +:+ rest)
    = Some (fst (json.coerceStep (String b t)), rest).
Proof.
  intros Hb.
  destruct b as [[] [] [] [] [] [] [] []];
    try (exfalso; vm_compute in Hb; discriminate Hb); clear Hb.
  all: eval_quoteStep.
  all: split; [reflexivity|split].
  all: try (intros rest; vm_compute; reflexivity).
  all: intros raw ps; cbv -[String.append]; rewrite ?str_app_assoc; reflexivity.
Qed.

Lemma quoteStep_high (b : ascii) (t : string) :
  0x80 <= byteN b ->
  snd (json.quoteStep (String b t)) = snd (json.coerceStep (String b t)) /\
  litSafe (fst (json.quoteStep (String b t))) /\
  forall rest,
    json.unquoteStep (fst (json.quoteStep (String b t)) +:+ rest)
    = Some (fst (json.coerceStep (String b t)), rest).
Proof.
  intros Hb. unfold json.quoteStep, json.coerceStep.
  unfold utf8.RuneSelf. destruct (N.ltb_spec (byteN b) 0x80) as [?|_]; [lia|].
  destruct (utf8.isError (utf8.DecodeRune (String b t))) eqn:He.
  - rewrite (isError_width _ He). cbn [fst snd].
    split; [reflexivity|split].
    + intros raw ps. cbv -[String.append]. rewrite ?str_app_assoc. reflexivity.
    + intros rest. vm_compute. reflexivity.
  - destruct (DecodeRune_ok (String b t)) as (w & tl & Hs & Hlen & Hpos & Henc & Hdec & Hhigh);
      [discriminate | exact He |].
    specialize (Hhigh b t eq_refl Hb).
    assert (take_str (snd (utf8.DecodeRune (String b t))) (String b t) = w) as Htake.
    { rewrite <- Hlen, Hs. apply take_app_length. }
    set (d := utf8.DecodeRune (String b t)) in *.
    destruct ((fst d =? 0x2028) || (fst d =? 0x2029)) eqn:Hsep; cbn [fst snd].
    + split; [reflexivity|].
      apply orb_true_iff in Hsep as [Hsep|Hsep]; apply N.eqb_eq in Hsep; rewrite Hsep in *;
        (split; [intros raw ps; cbv -[String.append]; rewrite ?str_app_assoc; reflexivity|]);
        intros rest; rewrite Htake, <- Henc; vm_compute; reflexivity.
    + split; [reflexivity|]. rewrite Htake. split; [apply litSafe_high; exact Hhigh|].
      intros rest.
      destruct w as [|b' w']; [simpl in Hpos; lia|].
      assert (b' = b) as -> by (rewrite str_app_cons in Hs; congruence).
      rewrite str_app_cons. unfold json.unquoteStep.
      rewrite !eqb_high by (assumption || (vm_compute; reflexivity)).
      unfold utf8.RuneSelf.
      destruct (N.ltb_spec (byteN b) 32); [lia|].
      destruct (N.ltb_spec (byteN b) 128); [lia|]. simpl orb. cbv iota.
      rewrite <- str_app_cons, Hdec. fold d. rewrite Henc, <- Hlen, skip_app_length.
      reflexivity.
Qed.

Lemma quoteStep_spec (b : ascii) (t : string) :
  snd (json.quoteStep (String b t)) = snd (json.coerceStep (String b t)) /\
  litSafe (fst (json.quoteStep (String b t))) /\
  forall rest,
    json.unquoteStep (fst (json.quoteStep (String b t)) +:+ rest)
    = Some (fst (json.coerceStep (String b t)), rest).
Proof.
  destruct (N.lt_ge_cases (byteN b) 0x80);
    [apply quoteStep_ascii | apply quoteStep_high]; assumption.
Qed.

Lemma coerceStep_width (b : ascii) (t : string) :
  (1 <= snd (json.coerceStep (String b t)) <= String.length (String b t))%nat.
Proof.
  unfold json.coerceStep.
  destruct (utf8.isError (utf8.DecodeRune (String b t))) eqn:He; cbn [snd].
  - simpl. lia.
  - destruct (DecodeRune_ok (String b t)) as (w & tl & Hs & Hlen & Hpos & _);
      [discriminate | exact He |].
    rewrite <- Hlen. rewrite Hs. rewrite str_length_app. lia.
Qed.

Lemma skip_length (n : nat) (s : string) :
  String.length (skip n s) = (String.length s - n)%nat.
Proof.
  revert s. induction n as [|n IH]; intros [|c s]; simpl; rewrite ?IH; lia.
Qed.

Lemma take_skip (n : nat) (s : string) : take_str n s +:+ skip n s = s.
Proof.
  revert s. induction n as [|n IH]; intros [|c s]; simpl; auto.
  rewrite str_app_cons, IH. reflexivity.
Qed.

Lemma DecodeRune_width_pos (b : ascii) (t : string) :
  (1 <= snd (utf8.DecodeRune (String b t)))%nat.
Proof.
  destruct (utf8.isError (utf8.DecodeRune (String b t))) eqn:He.
  - rewrite (isError_width _ He). lia.
  - destruct (DecodeRune_ok (String b t)) as (w & tl & Hs & Hlen & Hpos & _);
      [discriminate | exact He |]. lia.
Qed.

Lemma unquoteStep_shrinks (s out rest : string) :
  json.unquoteStep s = Some (out, rest) -> (String.length rest < String.length s)%nat.
Proof.
  destruct s as [|c t]; [discriminate|]. unfold json.unquoteStep.
  pose proof (DecodeRune_width_pos c t) as Hw.
  pose proof (skip_length 6 (String c t)) as H6.
  pose proof (skip_length 6 (skip 6 (String c t))) as H12.
  pose proof (skip_length (snd (utf8.DecodeRune (String c t))) (String c t)) as Hd.
  set (d := utf8.DecodeRune (String c t)) in *.
  set (r6 := skip 6 (String c t)) in *.
  set (r12 := skip 6 r6) in *.
  change (String.length (String c t)) with (S (String.length t)) in *.
  repeat match goal with
         | |- context [if ?x then _ else _] => destruct x
         | |- context [match ?x with _ => _ end] => destruct x
         end; intros [= <- <-] || discriminate; cbn [String.length] in *; lia.
Qed.

Lemma quote_unquote_go (fuel : nat) (s : string) :
  (String.length s <= fuel)%nat ->
  litSafe (json.quote_go fuel s) /\
  forall fu, (String.length (json.quote_go fuel s) <= fu)%nat ->
             json.unquote_go fu (json.quote_go fuel s) = Some (json.coerce_go fuel s).
Proof.
  revert s. induction fuel as [|f IH]; intros s Hlen.
  - destruct s; [|simpl in Hlen; lia]. split; [apply litSafe_nil|].
    intros fu _. destruct fu; reflexivity.
  - destruct s as [|b t].
    { split; [apply litSafe_nil|]. intros fu _. destruct fu; reflexivity. }
    cbn [json.quote_go json.coerce_go].
    destruct (quoteStep_spec b t) as (Hn & Hsafe & Hunq).
    pose proof (coerceStep_width b t) as Hw.
    destruct (json.quoteStep (String b t)) as [out n].
    destruct (json.coerceStep (String b t)) as [c m].
    cbn [fst snd] in *. subst m.
    destruct (IH (skip n (String b t))) as (IHsafe & IHunq).
    { rewrite skip_length. cbn [String.length] in *. lia. }
    split; [apply litSafe_app; assumption|].
    intros fu Hfu. specialize (Hunq (json.quote_go f (skip n (String b t)))).
    pose proof (unquoteStep_shrinks _ _ _ Hunq) as Hshr.
    destruct fu as [|fu']; [lia|].
    destruct (out +:+ json.quote_go f (skip n (String b t))) as [|x xs] eqn:Hx;
      [simpl in Hshr; lia|].
    cbn [json.unquote_go]. rewrite Hunq, IHunq; [reflexivity|].
    cbn [String.length] in *. lia.
Qed.

Lemma unquote_quoteBody (s : string) :
  json.unquote (json.quoteBody s) = Some (json.coerceUTF8 s).
Proof.
  unfold json.unquote, json.quoteBody, json.coerceUTF8.
  apply quote_unquote_go; lia.
Qed.

Lemma litSafe_quoteBody (s : string) : litSafe (json.quoteBody s).
Proof. apply quote_unquote_go. unfold lt. lia. Qed.

Lemma coerce_go_valid (fuel : nat) (s : string) :
  (String.length s <= fuel)%nat -> utf8.valid_go fuel s = true -> json.coerce_go fuel s = s.
Proof.
  revert s. induction fuel as [|f IH]; intros s Hlen Hv.
  - destruct s; [reflexivity | simpl in Hlen; lia].
  - destruct s as [|b t]; [reflexivity|].
    cbn [utf8.valid_go json.coerce_go] in *. unfold json.coerceStep.
    pose proof (DecodeRune_width_pos b t) as Hw.
    destruct (utf8.isError (utf8.DecodeRune (String b t))); [discriminate|].
    rewrite IH; [apply take_skip | | exact Hv].
    rewrite skip_length. cbn [String.length] in *. lia.
Qed.

Lemma coerceUTF8_valid (s : string) : utf8.ValidString s = true -> json.coerceUTF8 s = s.
Proof. apply coerce_go_valid. lia. Qed.

(** ** Objects: reading back what [Marshal] writes *)
Lemma scan_appendString st ps (s rest : string) :
  opensString st ->
  json.scan (Some (json.mkScanner st ps)) (json.appendString s +:+ rest)
  = json.scan (json.endValue (json.JString (json.coerceUTF8 s)) ps) rest.
Proof.
  intros Hst. unfold json.appendString. rewrite str_app_cons.
  assert (json.scanStep (json.mkScanner st ps) json.dquote
          = Some (json.mkScanner (json.stateInString "") ps)) as H1
    by (destruct Hst as [-> | [-> | ->]]; reflexivity).
  cbn [json.scan]. rewrite H1, str_app_assoc, scan_app, litSafe_quoteBody, str_app_nil_l.
  rewrite str_app_cons, str_app_nil_l. cbn [json.scan].
  assert (json.scanStep (json.mkScanner (json.stateInString (json.quoteBody s)) ps) json.dquote
          = json.endValue (json.JString (json.coerceUTF8 s)) ps) as H2.
  { unfold json.scanStep. cbn [json.step json.parseState].
    change (Ascii.eqb json.dquote json.dquote) with true. cbv iota.
    rewrite unquote_quoteBody. reflexivity. }
  rewrite H2. reflexivity.
Qed.

Lemma scan_member st ps acc (p : ProductEntity) (f : field) (rest : string) :
  st = json.stateBeginString \/ st = json.stateBeginStringOrEmpty ->
  json.scan (Some (json.mkScanner st (json.parseObjectKey acc None :: ps)))
            (json.appendString (fieldName f) +:+ ":" +:+ json.appendString (getField f p) +:+ rest)
  = json.scan (Some (json.mkScanner json.stateEndValue
                       (json.parseObjectValue (memberOf p f :: acc) (memberOf p f).1 :: ps)))
              rest.
Proof.
  intros Hst. rewrite scan_appendString by (unfold opensString; tauto).
  cbn [json.endValue]. change (":" +:+ ?x) with (String ":" x). cbn [json.scan].
  change (json.scanStep _ ":") with
    (Some (json.mkScanner json.stateBeginValue
             (json.parseObjectValue acc (json.coerceUTF8 (fieldName f)) :: ps))).
  rewrite scan_appendString by (unfold opensString; tauto). reflexivity.
Qed.

Lemma scan_fields ps (p : ProductEntity) (fs : list field) acc k (rest : string) :
  exists k',
    json.scan (Some (json.mkScanner json.stateEndValue (json.parseObjectValue acc k :: ps)))
              (json.appendFields p fs "," +:+ rest)
    = json.scan (Some (json.mkScanner json.stateEndValue
                         (json.parseObjectValue (rev (map (memberOf p) fs) ++ acc) k' :: ps)))
                rest.
Proof.
  revert acc k. induction fs as [|f fs IH]; intros acc k.
  - exists k. reflexivity.
  - cbn [json.appendFields]. rewrite !str_app_assoc.
    change ("," +:+ ?x) with (String "," x). cbn [json.scan].
    change (json.scanStep _ ",") with
      (Some (json.mkScanner json.stateBeginString (json.parseObjectKey acc None :: ps))).
    rewrite scan_member by tauto.
    destruct (IH (memberOf p f :: acc) (memberOf p f).1) as [k' Hk'].
    exists k'. rewrite Hk'. cbn [map rev]. rewrite <- app_assoc. reflexivity.
Qed.

Lemma appendFields_cons (p : ProductEntity) f fs sep :
  json.appendFields p (f :: fs) sep
  = sep +:+ json.appendString (fieldName f) +:+ ":" +:+ json.appendString (getField f p)
        +:+ json.appendFields p fs ",".
Proof. reflexivity. Qed.

Lemma parse_encode (p : ProductEntity) :
  json.parse (json.encode p) = Some (json.JObject (map (memberOf p) fields)).
Proof.
  unfold json.parse, json.encode, fields at 1.
  rewrite (appendFields_cons p FProductID _ ""), !str_app_assoc, str_app_nil_l.
  change ("{" +:+ ?x) with (String "{" x). cbn [json.scan].
  change (json.scanStep _ "{") with
    (Some (json.mkScanner json.stateBeginStringOrEmpty [json.parseObjectKey [] None])).
  rewrite scan_member by tauto.
  destruct (scan_fields [] p
              [FProductName; FProductStatus; FCurrentOwner; FCreatedDate; FUpdatedDate;
               FProductCategory; FProductDescription]
              [memberOf p FProductID] (memberOf p FProductID).1 "}") as [k' Hk'].
  rewrite Hk'. reflexivity.
Qed.

Lemma findField_name (f : field) : json.findField (json.coerceUTF8 (fieldName f)) = Some f.
Proof. destruct f; vm_compute; reflexivity. Qed.

Lemma decodeMember_memberOf (p q : ProductEntity) (e : option json.Error) (f : field) :
  json.decodeMember (q, e) (memberOf p f) = (setField f (json.coerceUTF8 (getField f p)) q, e).
Proof. unfold json.decodeMember, memberOf. cbn [fst snd]. rewrite findField_name. reflexivity. Qed.

(** Reading back what [Marshal] wrote: no error, and every field is the
    coerced form of the field written, whatever the struct held before. *)
Lemma Unmarshal_encode (p p0 : ProductEntity) :
  json.Unmarshal (json.encode p) p0 = (json.coerceProduct p, None).
Proof.
  unfold json.Unmarshal. rewrite parse_encode. unfold json.decodeValue, fields.
  cbn [map fold_left]. rewrite !decodeMember_memberOf. reflexivity.
Qed.

Lemma coerceProduct_valid (p : ProductEntity) :
  json.validProduct p = true -> json.coerceProduct p = p.
Proof.
  unfold json.validProduct, fields. cbn [forallb getField].
  rewrite !andb_true_iff. intros (H1 & H2 & H3 & H4 & H5 & H6 & H7 & H8 & _).
  unfold json.coerceProduct. rewrite !coerceUTF8_valid by assumption.
  destruct p; reflexivity.
Qed.

(** Coercion never shortens a string, and lengthens one that is not
    valid UTF-8: each offending byte becomes three. *)
Lemma take_str_length (n : nat) (s : string) :
  (n <= String.length s)%nat -> String.length (take_str n s) = n.
Proof.
  revert s. induction n as [|n IH]; intros [|c s] H; simpl in *; try lia.
  rewrite IH; lia.
Qed.

Lemma coerce_go_length (fuel : nat) (s : string) :
  (String.length s <= fuel)%nat ->
  (String.length s <= String.length (json.coerce_go fuel s))%nat /\
  (utf8.valid_go fuel s = false ->
   (String.length s < String.length (json.coerce_go fuel s))%nat).
Proof.
  revert s. induction fuel as [|f IH]; intros s Hlen.
  - destruct s; [|simpl in Hlen; lia]. split; [reflexivity | discriminate].
  - destruct s as [|b t]; [split; [reflexivity | discriminate]|].
    cbn [utf8.valid_go json.coerce_go]. unfold json.coerceStep.
    pose proof (coerceStep_width b t) as Hw. unfold json.coerceStep in Hw.
    destruct (utf8.isError (utf8.DecodeRune (String b t))) eqn:He; cbn [snd] in Hw.
    + destruct (IH (skip 1 (String b t))) as [IH1 _].
      { rewrite skip_length. cbn [String.length] in *. lia. }
      rewrite str_length_app, skip_length in *.
      change (String.length (utf8.EncodeRune utf8.RuneError)) with 3%nat.
      cbn [String.length] in *. split; intros; lia.
    + destruct (IH (skip (snd (utf8.DecodeRune (String b t))) (String b t))) as [IH1 IH2].
      { rewrite skip_length. cbn [String.length] in *. lia. }
      rewrite str_length_app, take_str_length, skip_length in * by lia.
      split; [lia|]. intros Hv. specialize (IH2 Hv). lia.
Qed.

Lemma coerceUTF8_fixed (s : string) : json.coerceUTF8 s = s -> utf8.ValidString s = true.
Proof.
  intros H. destruct (utf8.ValidString s) eqn:Hv; [reflexivity|].
  destruct (coerce_go_length (String.length s) s) as [_ Hlt]; [lia|].
  specialize (Hlt Hv). fold (json.coerceUTF8 s) in Hlt. rewrite H in Hlt. lia.
Qed.

(** Only the products whose strings are valid UTF-8 survive the round trip. *)
Lemma roundTrips_valid (p : ProductEntity) : roundTrips p -> json.validProduct p = true.
Proof.
  intros H. specialize (H _ eq_refl). rewrite Unmarshal_encode in H.
  injection H as H. unfold json.validProduct, fields. cbn [forallb getField].
  destruct p. unfold json.coerceProduct in H. cbn in H. injection H as ????????.
  rewrite !andb_true_iff. repeat split; apply coerceUTF8_fixed; assumption.
Qed.

(** ** The transactions *)

Section ContractProperties.

Variable RFC3339 : Z -> Z -> string.

Lemma GetState_found ctx id w bytes :
  GetState ctx id w = (w, Ok (Some bytes)) <->
  getStateFault ctx id = None /\ w !! id = Some bytes.
Proof.
  unfold GetState. destruct (getStateFault ctx id); split.
  - discriminate.
  - intros [? _]. discriminate.
  - intros [= ->]. auto.
  - intros [_ ->]. reflexivity.
Qed.

Lemma GetState_missing ctx id w :
  GetState ctx id w = (w, Ok None) <->
  getStateFault ctx id = None /\ w !! id = None.
Proof.
  unfold GetState. destruct (getStateFault ctx id); split.
  - discriminate.
  - intros [? _]. discriminate.
  - intros [= ->]. auto.
  - intros [_ ->]. reflexivity.
Qed.

Lemma fetchTransactionTimestamp_ok ctx ts w :
  txTimestamp ctx = inl ts ->
  fetchTransactionTimestamp RFC3339 ctx w = (w, Ok (stamp RFC3339 ts)).
Proof.
  intros H. unfold fetchTransactionTimestamp, bind, wrap, GetTxTimestamp, ret.
  rewrite H. reflexivity.
Qed.

Lemma fetchTransactionTimestamp_err ctx msg w :
  txTimestamp ctx = inr msg ->
  fetchTransactionTimestamp RFC3339 ctx w = (w, Err (ErrTimestamp (HostError msg))).
Proof.
  intros H. unfold fetchTransactionTimestamp, bind, wrap, GetTxTimestamp, ret.
  rewrite H. reflexivity.
Qed.

Lemma saveProduct_eq ctx p w :
  saveProduct ctx p w =
  match putStateFault ctx (ProductID p) (json.encode p) with
  | Some msg => (w, Err (HostError msg))
  | None => (<[ProductID p := json.encode p]> w, Ok tt)
  end.
Proof. reflexivity. Qed.

Lemma assignIfSet_proposed f v p :
  getField f (assignIfSet f v p) = proposed v (getField f p).
Proof.
  unfold assignIfSet, proposed.
  destruct (String.eqb_spec v ""), (decide (v = "")); try congruence.
  destruct f, p; reflexivity.
Qed.

Lemma modified_mergeRule p status owner description category now :
  modified p status owner description category now
  = mergeRule p status owner description category now.
Proof.
  unfold modified, mergeRule, assignIfSet, proposed.
  destruct (String.eqb_spec status ""), (decide (status = "")); try congruence;
  destruct (String.eqb_spec owner ""), (decide (owner = "")); try congruence;
  destruct (String.eqb_spec description ""), (decide (description = "")); try congruence;
  destruct (String.eqb_spec category ""), (decide (category = "")); try congruence;
  destruct p; reflexivity.
Qed.

(** What a registration does, case by case. *)
Lemma RegisterProduct_cases ctx id name owner description category w :
  (exists e, RegisterProduct RFC3339 ctx id name owner description category w = (w, Err e)) \/
  (exists ts,
     getStateFault ctx id = None /\ w !! id = None /\ txTimestamp ctx = inl ts /\
     let p := mkProduct id name "Manufactured" owner (stamp RFC3339 ts) (stamp RFC3339 ts)
                        category description in
     putStateFault ctx id (json.encode p) = None /\
     RegisterProduct RFC3339 ctx id name owner description category w
     = (<[id := json.encode p]> w, Ok tt)).
Proof.
  unfold RegisterProduct, CheckProductExistence, bind, wrap, GetState, ret, fail.
  destruct (getStateFault ctx id) as [e|] eqn:Hg; [left; eauto|].
  destruct (w !! id) as [bytes|] eqn:Hw; [left; eauto|].
  destruct (txTimestamp ctx) as [ts|e] eqn:Ht.
  - rewrite (fetchTransactionTimestamp_ok _ ts) by assumption.
    rewrite saveProduct_eq. cbn [ProductID].
    destruct (putStateFault ctx id _) as [e|] eqn:Hp; [left; eauto|].
    right. exists ts. cbv zeta. rewrite Hp. auto.
  - rewrite (fetchTransactionTimestamp_err _ e) by assumption. left; eauto.
Qed.

(** What an update does, case by case. *)
Lemma ModifyProduct_cases ctx id status owner description category w :
  (exists e, ModifyProduct RFC3339 ctx id status owner description category w = (w, Err e)) \/
  (exists bytes ts,
     getStateFault ctx id = None /\ w !! id = Some bytes /\ txTimestamp ctx = inl ts /\
     let p := modified (json.Unmarshal bytes zeroProduct).1
                       status owner description category (stamp RFC3339 ts) in
     putStateFault ctx (ProductID p) (json.encode p) = None /\
     ModifyProduct RFC3339 ctx id status owner description category w
     = (<[ProductID p := json.encode p]> w, Ok tt)).
Proof.
  unfold ModifyProduct, bind, wrap, GetState, ret, fail.
  destruct (getStateFault ctx id) as [e|] eqn:Hg; [left; eauto|].
  destruct (w !! id) as [bytes|] eqn:Hw; [|left; eauto].
  destruct (txTimestamp ctx) as [ts|e] eqn:Ht.
  - rewrite (fetchTransactionTimestamp_ok _ ts) by assumption.
    rewrite saveProduct_eq. fold (modified (json.Unmarshal bytes zeroProduct).1
                                   status owner description category (stamp RFC3339 ts)).
    destruct (putStateFault ctx _ _) as [e|] eqn:Hp; [left; eauto|].
    right. exists bytes, ts. cbv zeta. rewrite Hp. auto.
  - rewrite (fetchTransactionTimestamp_err _ e) by assumption. left; eauto.
Qed.

Lemma ModifyProduct_present ctx id status owner description category w bytes ts :
  GetState ctx id w = (w, Ok (Some bytes)) ->
  txTimestamp ctx = inl ts ->
  ModifyProduct RFC3339 ctx id status owner description category w
  = saveProduct ctx (modified (json.Unmarshal bytes zeroProduct).1
                              status owner description category (stamp RFC3339 ts)) w.
Proof.
  intros Hg Ht. apply GetState_found in Hg as [Hg Hw].
  unfold ModifyProduct, bind, wrap, GetState, ret, fail. rewrite Hg, Hw.
  rewrite (fetchTransactionTimestamp_ok _ ts) by assumption. reflexivity.
Qed.


(** C1. Register on an identifier that already has a record fails with
    AlreadyExists and writes nothing; so does a second Register of an
    identifier after a first one succeeded. *)
Theorem RegisterProduct_already_exists ctx w id name owner description category :
  ((exists bytes, GetState ctx id w = (w, Ok (Some bytes))) ->
   RegisterProduct RFC3339 ctx id name owner description category w
   = (w, Err (ErrAlreadyExists id)) /\
   failsWith AlreadyExists w
     (RegisterProduct RFC3339 ctx id name owner description category w)) /\
  (forall ctx0 w0 name0 owner0 description0 category0,
     RegisterProduct RFC3339 ctx0 id name0 owner0 description0 category0 w0 = (w, Ok tt) ->
     getStateFault ctx id = None ->
     failsWith AlreadyExists w
       (RegisterProduct RFC3339 ctx id name owner description category w)).
Proof.
  assert (forall bytes, getStateFault ctx id = None -> w !! id = Some bytes ->
            RegisterProduct RFC3339 ctx id name owner description category w
            = (w, Err (ErrAlreadyExists id))) as Hdup.
  { intros bytes Hg Hw.
    unfold RegisterProduct, CheckProductExistence, bind, wrap, GetState, ret, fail.
    rewrite Hg, Hw. reflexivity. }
  split.
  - intros [bytes Hb]. apply GetState_found in Hb as [Hg Hw].
    rewrite (Hdup bytes Hg Hw). split; [reflexivity|].
    exists (ErrAlreadyExists id). auto.
  - intros ctx0 w0 name0 owner0 description0 category0 Hfirst Hg.
    destruct (RegisterProduct_cases ctx0 id name0 owner0 description0 category0 w0)
      as [[e He] | (ts & _ & _ & _ & _ & Hok)]; [congruence|].
    rewrite Hok in Hfirst. injection Hfirst as <-.
    rewrite (Hdup _ Hg (lookup_insert_eq _ _ _)).
    exists (ErrAlreadyExists id). auto.
Qed.

(** C2. On an identifier without a record, Retrieve fails with NotFound,
    Exists returns false, Modify and TransferOwnership fail with NotFound,
    and the world state is left as it was. *)
Theorem absent_record_not_found ctx w id :
  GetState ctx id w = (w, Ok None) ->
  failsWith NotFound w (RetrieveProduct ctx id w) /\
  CheckProductExistence ctx id w = (w, Ok false) /\
  (forall status owner description category,
     failsWith NotFound w
       (ModifyProduct RFC3339 ctx id status owner description category w)) /\
  (forall newOwner,
     failsWith NotFound w (TransferOwnership RFC3339 ctx id newOwner w)).
Proof.
  intros H. apply GetState_missing in H as [Hg Hw].
  assert (forall status owner description category,
            ModifyProduct RFC3339 ctx id status owner description category w
            = (w, Err (ErrDoesNotExist id))) as Hm.
  { intros. unfold ModifyProduct, bind, wrap, GetState, fail. rewrite Hg, Hw. reflexivity. }
  repeat split.
  - exists (ErrNotFound id). split; [|reflexivity].
    unfold RetrieveProduct, bind, wrap, GetState, fail. rewrite Hg, Hw. reflexivity.
  - unfold CheckProductExistence, bind, wrap, GetState, ret. rewrite Hg, Hw. reflexivity.
  - intros. exists (ErrDoesNotExist id). rewrite Hm. auto.
  - intros. exists (ErrDoesNotExist id). unfold TransferOwnership. rewrite Hm. auto.
Qed.

(** The merge rule keeps strings valid. *)
Lemma proposed_valid v cur :
  utf8.ValidString v = true -> utf8.ValidString cur = true ->
  utf8.ValidString (proposed v cur) = true.
Proof. intros Hv Hc. unfold proposed. destruct (decide (v = "")); assumption. Qed.

Lemma validProduct_fields p :
  json.validProduct p = true <->
  allValid [ProductID p; ProductName p; ProductStatus p; CurrentOwner p;
            CreatedDate p; UpdatedDate p; ProductCategory p; ProductDescription p] = true.
Proof. reflexivity. Qed.

Lemma mergeRule_valid p status owner description category now :
  json.validProduct p = true ->
  allValid [status; owner; description; category; now] = true ->
  json.validProduct (mergeRule p status owner description category now) = true.
Proof.
  rewrite !validProduct_fields. unfold allValid, mergeRule.
  cbn [forallb ProductID ProductName ProductStatus CurrentOwner CreatedDate
       UpdatedDate ProductCategory ProductDescription].
  rewrite !andb_true_iff.
  intros (H1 & H2 & H3 & H4 & H5 & H6 & H7 & H8 & _) (A1 & A2 & A3 & A4 & A5 & _).
  repeat split; auto using proposed_valid.
Qed.

(** C3 (amended). Modify on a present record that carries the
    identifier as its product_id, when the strings of the record, the
    four proposed values and the formatted timestamp are valid UTF-8:
    the call succeeds, and in the record the identifier holds
    afterwards each of status, owner, description and category is the
    proposed value exactly when that value is not empty and is as it was
    otherwise; id, name and createdAt are as they were. No other key is
    written. *)
Theorem ModifyProduct_merge_rule ctx w id status owner description category bytes p e ts :
  GetState ctx id w = (w, Ok (Some bytes)) ->
  json.Unmarshal bytes zeroProduct = (p, e) ->
  txTimestamp ctx = inl ts ->
  ProductID p = id ->
  json.validProduct p = true ->
  allValid [status; owner; description; category; stamp RFC3339 ts] = true ->
  let p' := mergeRule p status owner description category (stamp RFC3339 ts) in
  putStateFault ctx id (json.encode p') = None ->
  exists w' q,
    ModifyProduct RFC3339 ctx id status owner description category w = (w', Ok tt) /\
    stored w' id = Some q /\
    (ProductStatus q = if decide (status = "") then ProductStatus p else status) /\
    (CurrentOwner q = if decide (owner = "") then CurrentOwner p else owner) /\
    (ProductDescription q = if decide (description = "") then ProductDescription p
                            else description) /\
    (ProductCategory q = if decide (category = "") then ProductCategory p else category) /\
    ProductID q = ProductID p /\ ProductName q = ProductName p /\
    CreatedDate q = CreatedDate p /\
    (forall k, k <> id -> w' !! k = w !! k).
Proof.
  intros Hg Hu Ht Hid Hv Ha p' Hp.
  assert (json.validProduct p' = true) as Hv' by (apply mergeRule_valid; assumption).
  exists (<[id := json.encode p']> w), p'. split.
  - rewrite (ModifyProduct_present _ _ _ _ _ _ _ bytes ts Hg Ht), Hu. cbn [fst].
    rewrite modified_mergeRule, saveProduct_eq. fold p'.
    change (ProductID p') with (ProductID p). rewrite Hid, Hp. reflexivity.
  - split.
    + unfold stored. rewrite lookup_insert_eq, Unmarshal_encode.
      rewrite coerceProduct_valid by exact Hv'. reflexivity.
    + repeat split. intros k Hk. apply lookup_insert_ne. congruence.
Qed.

(** C4. TransferOwnership is Modify with only the owner proposed: the
    same result, error or world state, from the same state in the same
    transaction context. So it fails as Modify does on an absent record,
    and on a present one it saves the record with the new owner (the
    old one if the new owner is empty) and the oracle timestamp as
    updatedAt, every other field as it was. *)
Theorem TransferOwnership_is_ModifyProduct ctx id newOwner w :
  TransferOwnership RFC3339 ctx id newOwner w
  = ModifyProduct RFC3339 ctx id "" newOwner "" "" w /\
  (GetState ctx id w = (w, Ok None) ->
   TransferOwnership RFC3339 ctx id newOwner w = (w, Err (ErrDoesNotExist id))) /\
  (forall bytes p e ts,
     GetState ctx id w = (w, Ok (Some bytes)) ->
     json.Unmarshal bytes zeroProduct = (p, e) ->
     txTimestamp ctx = inl ts ->
     let p' := setField FUpdatedDate (stamp RFC3339 ts)
                 (setField FCurrentOwner (proposed newOwner (CurrentOwner p)) p) in
     putStateFault ctx (ProductID p) (json.encode p') = None ->
     TransferOwnership RFC3339 ctx id newOwner w
     = (<[ProductID p := json.encode p']> w, Ok tt)).
Proof.
  split; [reflexivity|]. unfold TransferOwnership. split.
  - intros Hg. apply GetState_missing in Hg as [Hg Hw].
    unfold ModifyProduct, bind, wrap, GetState, fail. rewrite Hg, Hw. reflexivity.
  - intros bytes p e ts Hg Hu Ht.
    set (p' := setField FUpdatedDate (stamp RFC3339 ts)
                 (setField FCurrentOwner (proposed newOwner (CurrentOwner p)) p)).
    intros Hp.
    rewrite (ModifyProduct_present _ _ _ _ _ _ _ bytes ts Hg Ht), Hu. cbn [fst].
    rewrite modified_mergeRule, saveProduct_eq.
    replace (mergeRule p "" newOwner "" "" (stamp RFC3339 ts)) with p'
      by (destruct p; reflexivity).
    change (ProductID p') with (ProductID p). rewrite Hp. reflexivity.
Qed.


(** C10. Register checks nothing about its arguments but that the
    identifier is free: for any five strings, the empty ones included, it
    writes under the identifier a record with status Manufactured and
    both timestamps equal to the oracle timestamp, and that record is
    what the key holds afterwards. *)
Theorem RegisterProduct_no_validation ctx w id name owner description category ts :
  GetState ctx id w = (w, Ok None) ->
  txTimestamp ctx = inl ts ->
  let p := mkProduct id name "Manufactured" owner (stamp RFC3339 ts) (stamp RFC3339 ts)
                     category description in
  putStateFault ctx id (json.encode p) = None ->
  RegisterProduct RFC3339 ctx id name owner description category w
  = (<[id := json.encode p]> w, Ok tt) /\
  ProductStatus p = "Manufactured" /\
  CreatedDate p = stamp RFC3339 ts /\ UpdatedDate p = stamp RFC3339 ts /\
  (json.validProduct p = true ->
   forall ctx', getStateFault ctx' id = None ->
     RetrieveProduct ctx' id (<[id := json.encode p]> w)
     = (<[id := json.encode p]> w, Ok p)).
Proof.
  intros Hg Ht p Hp. apply GetState_missing in Hg as [Hg Hw].
  destruct (RegisterProduct_cases ctx id name owner description category w)
    as [[e He] | (ts' & _ & _ & Ht' & _ & Hok)].
  - exfalso. revert He.
    unfold RegisterProduct, CheckProductExistence, bind, wrap, GetState, ret, fail.
    rewrite Hg, Hw, (fetchTransactionTimestamp_ok _ ts) by assumption.
    rewrite saveProduct_eq. cbn [ProductID]. fold p. rewrite Hp. discriminate.
  - assert (ts' = ts) as -> by congruence. rewrite Hok. repeat split.
    intros Hv ctx' Hg'.
    unfold RetrieveProduct, bind, wrap, GetState, ret, fail.
    rewrite Hg', lookup_insert_eq, Unmarshal_encode.
    rewrite coerceProduct_valid by assumption. reflexivity.
Qed.

(** C9 (amended). A product whose eight strings are valid UTF-8 is
    written to the flat JSON object of the wire format and read back,
    field for field, as it was. *)
Theorem Marshal_Unmarshal_round_trip (p p0 : ProductEntity) :
  json.validProduct p = true ->
  json.Marshal p = inl (json.encode p) /\
  json.Unmarshal (json.encode p) p0 = (p, None) /\
  roundTrips p.
Proof.
  intros Hv. split; [reflexivity|]. split.
  - rewrite Unmarshal_encode, coerceProduct_valid by assumption. reflexivity.
  - intros bytes [= <-]. rewrite Unmarshal_encode, coerceProduct_valid by assumption.
    reflexivity.
Qed.

End ContractProperties.

(** ** Timestamps over sequences of transactions *)

Section Timestamps.

Variable RFC3339 : Z -> Z -> string.
Variable tle : relation string.
Hypothesis tle_refl : Reflexive tle.
Hypothesis tle_trans : Transitive tle.
Hypothesis RFC3339_valid : forall s n, utf8.ValidString (RFC3339 s n) = true.

Lemma stored_insert_eq w k p :
  stored (<[k := json.encode p]> w) k = Some (json.coerceProduct p).
Proof. unfold stored. rewrite lookup_insert_eq, Unmarshal_encode. reflexivity. Qed.

Lemma stored_insert_ne w k k' bytes :
  k <> k' -> stored (<[k := bytes]> w) k' = stored w k'.
Proof. intros. unfold stored. rewrite lookup_insert_ne by assumption. reflexivity. Qed.

Lemma stampOf_ok ctx ts : txTimestamp ctx = inl ts -> stampOf RFC3339 ctx = Some (stamp RFC3339 ts).
Proof. intros H. unfold stampOf. rewrite H. reflexivity. Qed.

Lemma modified_fixed p status owner description category now :
  ProductID (modified p status owner description category now) = ProductID p /\
  CreatedDate (modified p status owner description category now) = CreatedDate p /\
  UpdatedDate (modified p status owner description category now) = now.
Proof. rewrite modified_mergeRule. repeat split. Qed.

(** A write of a record with a well-formed identifier and dates, not
    created after it is updated, under its identifier. *)
Lemma Good_insert w p :
  Good tle w ->
  utf8.ValidString (ProductID p) = true ->
  utf8.ValidString (CreatedDate p) = true ->
  utf8.ValidString (UpdatedDate p) = true ->
  tle (CreatedDate p) (UpdatedDate p) ->
  Good tle (<[ProductID p := json.encode p]> w).
Proof.
  intros Hg Hid Hc Hu Hle k bytes Hk.
  destruct (decide (ProductID p = k)) as [<-|Hne].
  - rewrite lookup_insert_eq in Hk. injection Hk as <-.
    exists (json.coerceProduct p). rewrite Unmarshal_encode.
    unfold json.coerceProduct. cbn [ProductID CreatedDate UpdatedDate].
    rewrite (coerceUTF8_valid _ Hid), (coerceUTF8_valid _ Hc), (coerceUTF8_valid _ Hu).
    repeat split; assumption.
  - rewrite lookup_insert_ne in Hk by assumption. eauto.
Qed.

Lemma invoke_step ctx op w :
  Good tle w -> registersValidId (ctx, op) ->
  (forall t, stampOf RFC3339 ctx = Some t -> Before tle w t) ->
  Good tle (invoke RFC3339 ctx op w).1 /\
  (forall k q, stored w k = Some q ->
     exists q', stored (invoke RFC3339 ctx op w).1 k = Some q' /\
                CreatedDate q' = CreatedDate q) /\
  (forall k q', stored (invoke RFC3339 ctx op w).1 k = Some q' ->
     stored w k = Some q' \/ stampOf RFC3339 ctx = Some (UpdatedDate q')).
Proof.
  intros Hg Hid Hb.
  assert (forall id status owner description category,
    let w' := (ModifyProduct RFC3339 ctx id status owner description category w).1 in
    Good tle w' /\
    (forall k q, stored w k = Some q ->
       exists q', stored w' k = Some q' /\ CreatedDate q' = CreatedDate q) /\
    (forall k q', stored w' k = Some q' ->
       stored w k = Some q' \/ stampOf RFC3339 ctx = Some (UpdatedDate q'))) as Hmod.
  { intros id status owner description category w'. subst w'.
    destruct (ModifyProduct_cases RFC3339 ctx id status owner description category w)
      as [[e He] | (bytes & ts & _ & Hw & Ht & _ & Hok)].
    { rewrite He. cbn [fst]. split; [exact Hg|]. split; [|auto].
      intros k q Hk. exists q. auto. }
    rewrite Hok. cbn [fst]. clear Hok.
    destruct (Hg _ _ Hw) as (q & Hq & Hqid & Hvid & Hvc & Hvu & Hle).
    rewrite Hq. cbn [fst].
    set (p' := modified q status owner description category (stamp RFC3339 ts)).
    destruct (modified_fixed q status owner description category (stamp RFC3339 ts))
      as (Eid & Ec & Eu). fold p' in Eid, Ec, Eu.
    assert (stored w id = Some q) as Hsq by (unfold stored; rewrite Hw, Hq; reflexivity).
    pose proof (Hb _ (stampOf_ok _ _ Ht) _ _ Hsq) as Hbt.
    assert (utf8.ValidString (UpdatedDate p') = true) as Hvu'
      by (rewrite Eu; apply RFC3339_valid).
    assert (json.coerceUTF8 (CreatedDate p') = CreatedDate q) as Ecc
      by (rewrite Ec; apply coerceUTF8_valid; assumption).
    assert (json.coerceUTF8 (UpdatedDate p') = stamp RFC3339 ts) as Ecu
      by (rewrite coerceUTF8_valid by assumption; exact Eu).
    split; [|split].
    - apply Good_insert; rewrite ?Eid, ?Ec, ?Eu, ?Hqid; auto.
      etransitivity; eassumption.
    - intros k q0 Hk. destruct (decide (ProductID p' = k)) as [<-|Hne].
      + rewrite stored_insert_eq. eexists. split; [reflexivity|].
        cbn [json.coerceProduct CreatedDate]. rewrite Ecc.
        rewrite Eid, Hqid, Hsq in Hk. congruence.
      + rewrite stored_insert_ne by assumption. eauto.
    - intros k q' Hk. destruct (decide (ProductID p' = k)) as [<-|Hne].
      + rewrite stored_insert_eq in Hk. injection Hk as <-. right.
        cbn [json.coerceProduct UpdatedDate]. rewrite Ecu. apply stampOf_ok, Ht.
      + rewrite stored_insert_ne in Hk by assumption. auto. }
  destruct op as [id name owner description category
                 | id status owner description category | id newOwner];
    cbn [invoke]; [| apply Hmod | apply Hmod].
  destruct (RegisterProduct_cases RFC3339 ctx id name owner description category w)
    as [[e He] | (ts & _ & Hw & Ht & _ & Hok)].
  { rewrite He. cbn [fst]. split; [exact Hg|]. split; [|auto].
    intros k q Hk. exists q. auto. }
  rewrite Hok. cbn [fst]. clear Hok.
  set (p := mkProduct id name "Manufactured" owner (stamp RFC3339 ts) (stamp RFC3339 ts)
                      category description).
  assert (utf8.ValidString id = true) as Hvid by (apply Hid; reflexivity).
  assert (stored w id = None) as Hnone by (unfold stored; rewrite Hw; reflexivity).
  split; [|split].
  - apply (Good_insert w p); cbn [p ProductID CreatedDate UpdatedDate];
      [exact Hg | exact Hvid | apply RFC3339_valid | apply RFC3339_valid | apply tle_refl].
  - intros k q Hk. destruct (decide (id = k)) as [<-|Hne].
    + congruence.
    + rewrite stored_insert_ne by assumption. eauto.
  - intros k q' Hk. destruct (decide (id = k)) as [<-|Hne].
    + rewrite stored_insert_eq in Hk. injection Hk as <-. right.
      cbn [json.coerceProduct p UpdatedDate].
      rewrite coerceUTF8_valid by apply RFC3339_valid. apply stampOf_ok, Ht.
    + rewrite stored_insert_ne in Hk by assumption. auto.
Qed.

Lemma stamps_cons ctx op tr :
  stamps RFC3339 ((ctx, op) :: tr)
  = match stampOf RFC3339 ctx with
    | Some t => t :: stamps RFC3339 tr
    | None => stamps RFC3339 tr
    end.
Proof. reflexivity. Qed.

Lemma run_invariant tr : forall w,
  Good tle w -> Forall registersValidId tr ->
  StronglySorted tle (stamps RFC3339 tr) ->
  (forall t, t ∈ stamps RFC3339 tr -> Before tle w t) ->
  Good tle (run RFC3339 tr w) /\
  (forall k q, stored w k = Some q ->
     exists q', stored (run RFC3339 tr w) k = Some q' /\ CreatedDate q' = CreatedDate q) /\
  (forall t, Before tle w t -> Forall (fun s => tle s t) (stamps RFC3339 tr) ->
             Before tle (run RFC3339 tr w) t).
Proof.
  induction tr as [|[ctx op] tr IH]; intros w Hg Hids Hs Hb.
  - cbn [run]. eauto.
  - apply Forall_cons in Hids as [Hid Hids]. rewrite stamps_cons in Hs, Hb.
    destruct (invoke_step ctx op w Hg Hid) as (Hg1 & Hc1 & Hu1).
    { intros t Ht. apply Hb. rewrite Ht. left. }
    cbn [run]. set (w1 := (invoke RFC3339 ctx op w).1) in *.
    assert (StronglySorted tle (stamps RFC3339 tr) /\
            forall t t', stampOf RFC3339 ctx = Some t -> t' ∈ stamps RFC3339 tr -> tle t t')
      as [Hs' Hle].
    { destruct (stampOf RFC3339 ctx) as [t|].
      - apply StronglySorted_inv in Hs as [Hs Hall]. split; [exact Hs|].
        intros t0 t' [= <-] Hin. rewrite Forall_forall in Hall. auto.
      - split; [exact Hs | discriminate]. }
    assert (forall t, Before tle w t ->
              (forall s, stampOf RFC3339 ctx = Some s -> tle s t) -> Before tle w1 t) as Hb1.
    { intros t Hbt Hst k q' Hk. destruct (Hu1 _ _ Hk) as [Hold | Hnew]; eauto. }
    destruct (IH w1 Hg1 Hids Hs') as (Hg2 & Hc2 & Hb2).
    { intros t Ht. apply Hb1.
      - apply Hb. destruct (stampOf RFC3339 ctx); [right|]; exact Ht.
      - intros s Hs0. eapply Hle; eassumption. }
    split; [exact Hg2|]. split.
    + intros k q Hk. destruct (Hc1 _ _ Hk) as (q1 & Hk1 & E1).
      destruct (Hc2 _ _ Hk1) as (q2 & Hk2 & E2). exists q2. split; [exact Hk2|congruence].
    + intros t Hbt Hall. rewrite stamps_cons in Hall. apply Hb2.
      * apply Hb1; [exact Hbt|]. intros s Hs0. rewrite Hs0 in Hall.
        apply Forall_cons in Hall as [? _]. assumption.
      * destruct (stampOf RFC3339 ctx); [apply Forall_cons in Hall as [_ ?]|]; assumption.
Qed.

Lemma run_app tr1 tr2 w : run RFC3339 (tr1 ++ tr2) w = run RFC3339 tr2 (run RFC3339 tr1 w).
Proof.
  revert w. induction tr1 as [|[ctx op] tr1 IH]; intros w; [reflexivity|].
  cbn [app run]. apply IH.
Qed.

Lemma stamps_app tr1 tr2 :
  stamps RFC3339 (tr1 ++ tr2) = (stamps RFC3339 tr1 ++ stamps RFC3339 tr2)%list.
Proof. apply omap_app. Qed.

Lemma Good_empty : Good tle ∅.
Proof. intros k bytes Hk. rewrite lookup_empty in Hk. discriminate. Qed.

Lemma Before_empty t : Before tle ∅ t.
Proof. intros k q Hk. unfold stored in Hk. rewrite lookup_empty in Hk. discriminate. Qed.

(** C7 (amended). Over transactions from the empty ledger whose oracle
    timestamps never decrease and whose registrations name identifiers
    that are valid UTF-8: a registration that succeeds sets createdAt
    and updatedAt to its timestamp, the createdAt of the record under a
    key never changes afterwards, and every record has createdAt no
    later than updatedAt after every transaction. *)
Theorem createdAt_fixed_and_not_after_updatedAt tr1 tr2 :
  nonDecreasing RFC3339 tle (tr1 ++ tr2) ->
  Forall registersValidId (tr1 ++ tr2) ->
  timestampsHold RFC3339 tle tr1 tr2 /\
  (forall tr ctx id name owner description category,
     tr1 = (tr ++ [(ctx, OpRegister id name owner description category)])%list ->
     (invoke RFC3339 ctx (OpRegister id name owner description category)
             (run RFC3339 tr ∅)).2 = Ok tt ->
     exists t p, stampOf RFC3339 ctx = Some t /\
                 stored (run RFC3339 tr1 ∅) id = Some p /\
                 CreatedDate p = t /\ UpdatedDate p = t).
Proof.
  unfold nonDecreasing, timestampsHold.
  intros Hs Hids. rewrite stamps_app in Hs.
  apply StronglySorted_app in Hs as (Hcross & Hs1 & Hs2).
  apply Forall_app in Hids as [Hids1 Hids2].
  destruct (run_invariant tr1 ∅ Good_empty Hids1 Hs1) as (Hg1 & _ & Hb1).
  { intros. apply Before_empty. }
  destruct (run_invariant tr2 (run RFC3339 tr1 ∅) Hg1 Hids2 Hs2) as (_ & Hc2 & _).
  { intros t Ht. apply Hb1; [apply Before_empty|]. apply Forall_forall. intros s Hin. auto. }
  split.
  - intros k p Hk. split.
    + unfold stored in Hk. destruct (run RFC3339 tr1 ∅ !! k) as [bytes|] eqn:Hw; [|discriminate].
      destruct (Hg1 _ _ Hw) as (q & Hq & _ & _ & _ & _ & Hle). rewrite Hq in Hk. congruence.
    + rewrite run_app. auto.
  - intros tr ctx id name owner description category -> Hok.
    rewrite run_app. cbn [run]. cbn [invoke] in *.
    apply Forall_app in Hids1 as [_ Hid]. apply Forall_cons in Hid as [Hid _].
    destruct (RegisterProduct_cases RFC3339 ctx id name owner description category
                (run RFC3339 tr ∅)) as [[e He] | (ts & _ & _ & Ht & _ & Hreg)].
    { rewrite He in Hok. discriminate. }
    rewrite Hreg. cbn [fst]. exists (stamp RFC3339 ts). eexists.
    split; [apply stampOf_ok, Ht|].
    set (p := mkProduct id name "Manufactured" owner (stamp RFC3339 ts) (stamp RFC3339 ts)
                        category description).
    rewrite stored_insert_eq.
    split; [reflexivity|].
    cbn [json.coerceProduct p CreatedDate UpdatedDate].
    rewrite coerceUTF8_valid by apply RFC3339_valid. auto.
Qed.

End Timestamps.

(** ** Listing *)

#[local] Instance keyLe_trans : Transitive keyLe.
Proof. intros a b c. unfold keyLe. apply transitivity. Qed.
#[local] Instance keyLe_total : Total keyLe.
Proof. intros a b. unfold keyLe. apply total. apply _. Qed.

Lemma inKeyRange_open (k : string) : inKeyRange "" "" k = true.
Proof. destruct k; reflexivity. Qed.

Lemma filter_open (l : list (string * string)) :
  List.filter (fun kv => inKeyRange "" "" kv.1) l = l.
Proof.
  induction l as [|kv l IH]; [reflexivity|].
  cbn [List.filter]. rewrite inKeyRange_open, IH. reflexivity.
Qed.

Lemma GetStateByRange_open ctx w :
  rangeFault ctx = None -> GetStateByRange ctx "" "" w = (w, Ok (scanned w)).
Proof. intros H. unfold GetStateByRange. rewrite H, filter_open. reflexivity. Qed.

Lemma listLoop_spec ctx entries : forall acc res,
  (forall k, nextFault ctx k = None) ->
  listLoop ctx entries acc = Ok res <->
  exists products, res = (acc ++ products)%list /\ Forall2 decodes entries products.
Proof.
  induction entries as [|kv entries IH]; intros acc res Hn.
  - cbn [listLoop]. split.
    + intros [= <-]. exists []. rewrite app_nil_r. split; [reflexivity | constructor].
    + intros (products & -> & H). inversion H. rewrite app_nil_r. reflexivity.
  - cbn [listLoop]. unfold Next. rewrite Hn.
    destruct (json.Unmarshal kv.2 zeroProduct) as [p [e|]] eqn:Hu.
    + split; [discriminate|]. intros (products & _ & H). inversion H as [|? y ? ? Hd]; subst.
      unfold decodes in Hd. congruence.
    + rewrite IH by assumption. split.
      * intros (products & -> & H). exists (p :: products). rewrite <- app_assoc.
        split; [reflexivity|]. constructor; assumption.
      * intros (products & -> & H). inversion H as [|? y ? l' Hd Hrest]; subst.
        unfold decodes in Hd. assert (y = p) as -> by congruence.
        exists l'. rewrite <- app_assoc. auto.
Qed.

(** C8. ListAll scans the whole key space and deserializes every value
    it meets; the products come in the byte-wise order of their keys,
    one per key of the store, and the empty store yields the empty
    sequence without error. *)
Theorem ListAllProducts_in_key_order ctx (w : World) :
  rangeFault ctx = None -> (forall k, nextFault ctx k = None) ->
  GetStateByRange ctx "" "" w = (w, Ok (scanned w)) /\
  scanned w ≡ₚ map_to_list w /\
  StronglySorted String.le (scanned w).*1 /\ NoDup (scanned w).*1 /\
  (forall products,
     ListAllProducts ctx w = (w, Ok products) <-> Forall2 decodes (scanned w) products) /\
  ListAllProducts ctx ∅ = (∅, Ok []).
Proof.
  intros Hr Hn. split; [apply GetStateByRange_open, Hr|].
  assert (scanned w ≡ₚ map_to_list w) as Hperm by apply merge_sort_Permutation.
  split; [exact Hperm|]. split; [|split; [|split]].
  - apply (StronglySorted_fmap fst keyLe String.le); [auto|].
    apply StronglySorted_merge_sort; apply _.
  - rewrite Hperm. apply NoDup_fst_map_to_list.
  - intros products. unfold ListAllProducts, bind.
    rewrite (GetStateByRange_open _ _ Hr).
    split.
    + intros [= H]. apply listLoop_spec in H as (ps & -> & H); assumption.
    + intros H. f_equal. apply listLoop_spec; [assumption|]. exists products. auto.
  - unfold ListAllProducts, bind. rewrite (GetStateByRange_open _ _ Hr).
    unfold scanned. rewrite map_to_list_empty. reflexivity.
Qed.

(** ** Records that cannot be deserialized *)

(** C5. The code at a record that cannot be deserialized: Retrieve
    reports the error of Unmarshal, Modify does not look at it and saves
    the zero-valued or partly filled struct. *)
Theorem ModifyProduct_proceeds_on_malformed_record (RFC3339 : Z -> Z -> string) :
  json.Unmarshal "garbage" zeroProduct = (zeroProduct, Some json.SyntaxError) /\
  RetrieveProduct (quietContext 2) "p1" garbageWorld
  = (garbageWorld, Err (JSONError json.SyntaxError)) /\
  ModifyProduct RFC3339 (quietContext 2) "p1" "Shipped" "" "" "" garbageWorld
  = (<["" := json.encode (mkProduct "" "" "Shipped" "" "" (RFC3339 2%Z 0%Z) "" "")]>
       garbageWorld, Ok tt) /\
  json.Unmarshal partialBytes zeroProduct
  = (mkProduct "p1" "" "" "" "" "" "" "",
     Some (json.UnmarshalTypeError "number" "product_name")) /\
  ModifyProduct RFC3339 (quietContext 2) "p1" "Shipped" "" "" "" partialWorld
  = (<["p1" := json.encode (mkProduct "p1" "" "Shipped" "" "" (RFC3339 2%Z 0%Z) "" "")]>
       partialWorld, Ok tt).
Proof.
  assert (json.Unmarshal "garbage" zeroProduct = (zeroProduct, Some json.SyntaxError)) as H1
    by (vm_compute; reflexivity).
  assert (json.Unmarshal partialBytes zeroProduct
          = (mkProduct "p1" "" "" "" "" "" "" "",
             Some (json.UnmarshalTypeError "number" "product_name"))) as H2
    by (vm_compute; reflexivity).
  split; [exact H1|]. split; [|split; [|split; [exact H2|]]].
  - unfold RetrieveProduct, bind, wrap, GetState, fail. cbn [getStateFault quietContext].
    unfold garbageWorld. rewrite lookup_singleton_eq, H1. reflexivity.
  - rewrite (ModifyProduct_present RFC3339 _ _ _ _ _ _ _ "garbage" (mkTimestamp 2 0));
      [| reflexivity | reflexivity].
    rewrite H1. reflexivity.
  - rewrite (ModifyProduct_present RFC3339 _ _ _ _ _ _ _ partialBytes (mkTimestamp 2 0));
      [| reflexivity | reflexivity].
    rewrite H2. reflexivity.
Qed.

(** ** Strings that are not UTF-8 *)

(** C9, as stated, fails: a name that is not valid UTF-8 is read back
    as the replacement character. *)
Lemma round_trip_loses_invalid_utf8 :
  json.validProduct badName = false /\
  json.Unmarshal (json.encode badName) zeroProduct
  = (setField FProductName replacement badName, None) /\
  ~ roundTrips badName.
Proof.
  split; [vm_compute; reflexivity|]. split; [vm_compute; reflexivity|].
  intros H. specialize (H _ eq_refl). vm_compute in H. discriminate H.
Qed.

(** C3, as stated, fails. A proposed status that is not valid UTF-8
    is not what the record holds after a successful Modify: it holds
    the replacement character. And on a record filed under a key other
    than its product_id, a successful Modify leaves the record under
    the identifier as it was, the proposed status not applied. *)
Lemma ModifyProduct_loses_proposed_value :
  (ModifyProduct sampleClock (quietContext 2) "p1" badByte "" "" "" sampleWorld).2 = Ok tt /\
  (exists q,
     stored (ModifyProduct sampleClock (quietContext 2) "p1" badByte "" "" "" sampleWorld).1
            "p1" = Some q /\
     ProductStatus q = replacement /\ ProductStatus q <> badByte) /\
  (ModifyProduct sampleClock (quietContext 2) "k" "Shipped" "" "" "" misfiled).2 = Ok tt /\
  (exists q,
     stored (ModifyProduct sampleClock (quietContext 2) "k" "Shipped" "" "" "" misfiled).1
            "k" = Some q /\
     ProductStatus q = "Manufactured" /\ ProductStatus q <> "Shipped").
Proof.
  split; [vm_compute; reflexivity|]. split.
  - eexists. split; [vm_compute; reflexivity|]. split; [vm_compute; reflexivity|].
    vm_compute. discriminate.
  - split; [vm_compute; reflexivity|].
    eexists. split; [vm_compute; reflexivity|]. split; [reflexivity | discriminate].
Qed.

Lemma sampleClock_valid (s n : Z) : utf8.ValidString (sampleClock s n) = true.
Proof.
  unfold sampleClock. destruct (s <=? 1)%Z; [reflexivity|].
  destruct (s =? 2)%Z; reflexivity.
Qed.

(** C7, as stated, fails: two identifiers that are written as the same
    JSON text file their records under one key, and the update of the
    second replaces the createdAt of the first. *)
Lemma createdAt_changes_under_aliased_ids :
  ~ (forall tr1 tr2,
       nonDecreasing sampleClock String.le (tr1 ++ tr2) ->
       timestampsHold sampleClock String.le tr1 tr2).
Proof.
  intros H.
  destruct (H aliasSetup aliasUpdate
              ltac:(refine (bool_decide_unpack _ _); vm_compute; exact I)
              replacement
              (mkProduct replacement "first" "Manufactured" "Acme"
                         "2025-10-14T10:30:00Z" "2025-10-14T10:30:00Z" "cat" "desc"))
    as (_ & q & Hq & Hc).
  - vm_compute. reflexivity.
  - vm_compute in Hq. injection Hq as <-. vm_compute in Hc. discriminate Hc.
Qed.

(** ** The theorems on the sample data *)

(** A second registration of [p1]. *)
Lemma RegisterProduct_already_exists_witness :
  (exists bytes, GetState (quietContext 2) "p1" sampleWorld = (sampleWorld, Ok (Some bytes))) /\
  RegisterProduct sampleClock (quietContext 1) "p1" "Widget" "Acme" "desc" "cat" ∅
  = (sampleWorld, Ok tt) /\
  getStateFault (quietContext 2) "p1" = None /\
  RegisterProduct sampleClock (quietContext 2) "p1" "Gadget" "Globex" "d" "c" sampleWorld
  = (sampleWorld, Err (ErrAlreadyExists "p1")) /\
  failsWith AlreadyExists sampleWorld
    (RegisterProduct sampleClock (quietContext 2) "p1" "Gadget" "Globex" "d" "c" sampleWorld).
Proof.
  destruct (RegisterProduct_already_exists sampleClock (quietContext 2) sampleWorld
              "p1" "Gadget" "Globex" "d" "c") as [H1 H2].
  assert (exists bytes,
            GetState (quietContext 2) "p1" sampleWorld = (sampleWorld, Ok (Some bytes))) as Hp
    by (eexists; reflexivity).
  assert (RegisterProduct sampleClock (quietContext 1) "p1" "Widget" "Acme" "desc" "cat" ∅
          = (sampleWorld, Ok tt)) as Hr by reflexivity.
  split; [exact Hp|]. split; [exact Hr|]. split; [reflexivity|].
  split; [exact (proj1 (H1 Hp))|].
  exact (H2 (quietContext 1) ∅ "Widget" "Acme" "desc" "cat" Hr eq_refl).
Defined.

(** An identifier the sample ledger does not hold. *)
Lemma absent_record_not_found_witness :
  GetState (quietContext 1) "p2" sampleWorld = (sampleWorld, Ok None) /\
  failsWith NotFound sampleWorld (RetrieveProduct (quietContext 1) "p2" sampleWorld) /\
  CheckProductExistence (quietContext 1) "p2" sampleWorld = (sampleWorld, Ok false) /\
  failsWith NotFound sampleWorld
    (ModifyProduct sampleClock (quietContext 1) "p2" "Shipped" "" "" "" sampleWorld) /\
  failsWith NotFound sampleWorld
    (TransferOwnership sampleClock (quietContext 1) "p2" "Globex" sampleWorld).
Proof.
  assert (GetState (quietContext 1) "p2" sampleWorld = (sampleWorld, Ok None)) as H
    by reflexivity.
  destruct (absent_record_not_found sampleClock (quietContext 1) sampleWorld "p2" H)
    as (H1 & H2 & H3 & H4).
  split; [exact H|]. split; [exact H1|]. split; [exact H2|].
  split; [apply H3 | apply H4].
Defined.

(** The widget is shipped: only the status is proposed. *)
Lemma ModifyProduct_merge_rule_witness :
  GetState (quietContext 2) "p1" sampleWorld = (sampleWorld, Ok (Some (json.encode widget))) /\
  json.Unmarshal (json.encode widget) zeroProduct = (widget, None) /\
  txTimestamp (quietContext 2) = inl (mkTimestamp 2 0) /\
  ProductID widget = "p1" /\ json.validProduct widget = true /\
  allValid ["Shipped"; ""; ""; ""; stamp sampleClock (mkTimestamp 2 0)] = true /\
  putStateFault (quietContext 2) "p1" (json.encode shipped) = None /\
  exists w' q,
    ModifyProduct sampleClock (quietContext 2) "p1" "Shipped" "" "" "" sampleWorld
    = (w', Ok tt) /\
    stored w' "p1" = Some q /\
    ProductStatus q = "Shipped" /\ CurrentOwner q = "Acme" /\
    ProductDescription q = "desc" /\ ProductCategory q = "cat" /\
    ProductID q = "p1" /\ ProductName q = "Widget" /\
    CreatedDate q = "2025-10-14T10:30:00Z".
Proof.
  assert (json.Unmarshal (json.encode widget) zeroProduct = (widget, None)) as Hu
    by (vm_compute; reflexivity).
  destruct (ModifyProduct_merge_rule sampleClock (quietContext 2) sampleWorld "p1"
              "Shipped" "" "" "" (json.encode widget) widget None (mkTimestamp 2 0)
              eq_refl Hu eq_refl eq_refl eq_refl eq_refl eq_refl)
    as (w' & q & H1 & H2 & H3 & H4 & H5 & H6 & H7 & H8 & H9 & _).
  split; [reflexivity|]. split; [exact Hu|]. split; [reflexivity|]. split; [reflexivity|].
  split; [reflexivity|]. split; [reflexivity|]. split; [reflexivity|].
  exists w', q. split; [exact H1|]. split; [exact H2|]. split; [exact H3|].
  split; [exact H4|]. split; [exact H5|]. split; [exact H6|]. split; [exact H7|].
  split; [exact H8 | exact H9].
Defined.

(** The widget changes hands. *)
Lemma TransferOwnership_is_ModifyProduct_witness :
  GetState (quietContext 2) "p1" sampleWorld = (sampleWorld, Ok (Some (json.encode widget))) /\
  json.Unmarshal (json.encode widget) zeroProduct = (widget, None) /\
  txTimestamp (quietContext 2) = inl (mkTimestamp 2 0) /\
  putStateFault (quietContext 2) "p1" (json.encode handedOver) = None /\
  GetState (quietContext 2) "p2" sampleWorld = (sampleWorld, Ok None) /\
  TransferOwnership sampleClock (quietContext 2) "p1" "Globex" sampleWorld
  = (<["p1" := json.encode handedOver]> sampleWorld, Ok tt) /\
  TransferOwnership sampleClock (quietContext 2) "p2" "Globex" sampleWorld
  = (sampleWorld, Err (ErrDoesNotExist "p2")).
Proof.
  assert (json.Unmarshal (json.encode widget) zeroProduct = (widget, None)) as Hu
    by (vm_compute; reflexivity).
  destruct (TransferOwnership_is_ModifyProduct sampleClock (quietContext 2) "p1" "Globex"
              sampleWorld) as (_ & _ & Hpresent).
  destruct (TransferOwnership_is_ModifyProduct sampleClock (quietContext 2) "p2" "Globex"
              sampleWorld) as (_ & Habsent & _).
  split; [reflexivity|]. split; [exact Hu|]. split; [reflexivity|]. split; [reflexivity|].
  split; [reflexivity|]. split.
  - exact (Hpresent (json.encode widget) widget None (mkTimestamp 2 0)
                    eq_refl Hu eq_refl eq_refl).
  - exact (Habsent eq_refl).
Defined.


(** Registration, update and transfer of [p1] at three successive instants. *)
Lemma createdAt_fixed_and_not_after_updatedAt_witness :
  Reflexive String.le /\ Transitive String.le /\
  (forall s n, utf8.ValidString (sampleClock s n) = true) /\
  nonDecreasing sampleClock String.le (sampleTrace ++ sampleTrace2) /\
  Forall registersValidId (sampleTrace ++ sampleTrace2) /\
  timestampsHold sampleClock String.le sampleTrace sampleTrace2.
Proof.
  assert (nonDecreasing sampleClock String.le (sampleTrace ++ sampleTrace2)) as Hs
    by (refine (bool_decide_unpack _ _); vm_compute; exact I).
  assert (Forall registersValidId (sampleTrace ++ sampleTrace2)) as Hv.
  { repeat constructor; intros id E; vm_compute in E; try discriminate E.
    injection E as <-. reflexivity. }
  split; [apply _|]. split; [apply _|]. split; [exact sampleClock_valid|].
  split; [exact Hs|]. split; [exact Hv|].
  exact (proj1 (createdAt_fixed_and_not_after_updatedAt sampleClock String.le _ _
                  sampleClock_valid sampleTrace sampleTrace2 Hs Hv)).
Defined.

(** Registered as B then A, listed as A then B. *)
Lemma ListAllProducts_in_key_order_witness :
  rangeFault (quietContext 3) = None /\
  (forall k, nextFault (quietContext 3) k = None) /\
  ListAllProducts (quietContext 3) twoProducts = (twoProducts, Ok [anvil; bolt]) /\
  ListAllProducts (quietContext 3) ∅ = (∅, Ok []).
Proof.
  destruct (ListAllProducts_in_key_order (quietContext 3) twoProducts eq_refl
              (fun _ => eq_refl)) as (_ & _ & _ & _ & Hiff & Hempty).
  split; [reflexivity|]. split; [intros k; reflexivity|]. split; [|exact Hempty].
  apply Hiff.
  assert (scanned twoProducts = [("A", json.encode anvil); ("B", json.encode bolt)]) as ->
    by (vm_compute; reflexivity).
  repeat constructor; vm_compute; reflexivity.
Defined.

(** The widget survives the round trip. *)
Lemma Marshal_Unmarshal_round_trip_witness :
  json.validProduct widget = true /\
  json.Unmarshal (json.encode widget) zeroProduct = (widget, None) /\
  roundTrips widget.
Proof.
  assert (json.validProduct widget = true) as Hv by (vm_compute; reflexivity).
  split; [exact Hv|].
  exact (proj2 (Marshal_Unmarshal_round_trip widget zeroProduct Hv)).
Defined.

(** A product whose five strings are empty is registered and read back. *)
Lemma RegisterProduct_no_validation_witness :
  GetState (quietContext 1) "" ∅ = (∅, Ok None) /\
  txTimestamp (quietContext 1) = inl (mkTimestamp 1 0) /\
  putStateFault (quietContext 1) "" (json.encode blank) = None /\
  RegisterProduct sampleClock (quietContext 1) "" "" "" "" "" ∅
  = (<["" := json.encode blank]> ∅, Ok tt) /\
  RetrieveProduct (quietContext 2) "" (<["" := json.encode blank]> ∅)
  = (<["" := json.encode blank]> ∅, Ok blank).
Proof.
  assert (GetState (quietContext 1) "" ∅ = (∅, Ok None)) as Hg by (vm_compute; reflexivity).
  destruct (RegisterProduct_no_validation sampleClock (quietContext 1) ∅ "" "" "" "" ""
              (mkTimestamp 1 0) Hg eq_refl eq_refl) as (H1 & _ & _ & _ & H2).
  split; [exact Hg|]. split; [reflexivity|]. split; [reflexivity|].
  split; [exact H1|]. apply H2; [vm_compute; reflexivity | reflexivity].
Defined.

(** * Further properties of the contract *)

(** ** Seeding, and hosts that fail *)

Section HostFaults.

Variable RFC3339 : Z -> Z -> string.

Lemma keeps_refl w : keeps w w.
Proof. intros k H. exact H. Qed.

Lemma keeps_insert (w : World) k v : keeps w (<[k := v]> w).
Proof.
  intros k' H. destruct (decide (k = k')) as [<-|Hne].
  - rewrite lookup_insert_eq. eauto.
  - rewrite lookup_insert_ne by assumption. exact H.
Qed.

Lemma keeps_trans w1 w2 w3 : keeps w1 w2 -> keeps w2 w3 -> keeps w1 w3.
Proof. intros H1 H2 k H. auto. Qed.

(** What the seeding does, case by case. *)
Lemma InitializeLedger_cases ctx (w : World) :
  match txTimestamp ctx with
  | inr msg => InitializeLedger RFC3339 ctx w = (w, Err (ErrTimestamp (HostError msg)))
  | inl ts =>
    let p1 := seed1 (stamp RFC3339 ts) in
    let p2 := seed2 (stamp RFC3339 ts) in
    match putStateFault ctx "prod1" (json.encode p1) with
    | Some msg => InitializeLedger RFC3339 ctx w = (w, Err (HostError msg))
    | None =>
      match putStateFault ctx "prod2" (json.encode p2) with
      | Some msg =>
        InitializeLedger RFC3339 ctx w
        = (<["prod1" := json.encode p1]> w, Err (HostError msg))
      | None =>
        InitializeLedger RFC3339 ctx w
        = (<["prod2" := json.encode p2]> (<["prod1" := json.encode p1]> w), Ok tt)
      end
    end
  end.
Proof.
  unfold InitializeLedger, bind.
  destruct (txTimestamp ctx) as [ts|msg] eqn:Ht.
  - rewrite (fetchTransactionTimestamp_ok RFC3339 ctx ts w Ht).
    cbv zeta. unfold initialProducts. cbn [saveAll]. unfold bind.
    rewrite saveProduct_eq. cbn [ProductID].
    fold (seed1 (stamp RFC3339 ts)). fold (seed2 (stamp RFC3339 ts)).
    destruct (putStateFault ctx "prod1" _) as [m1|]; [reflexivity|].
    rewrite saveProduct_eq. cbn [ProductID seed2].
    fold (seed2 (stamp RFC3339 ts)).
    destruct (putStateFault ctx "prod2" _) as [m2|]; reflexivity.
  - rewrite (fetchTransactionTimestamp_err RFC3339 ctx msg w Ht). reflexivity.
Qed.

Lemma seed_valid t :
  utf8.ValidString t = true ->
  json.validProduct (seed1 t) = true /\ json.validProduct (seed2 t) = true.
Proof.
  intros Hv. unfold json.validProduct, fields, seed1, seed2.
  cbn [forallb getField ProductID ProductName ProductStatus CurrentOwner CreatedDate
       UpdatedDate ProductCategory ProductDescription].
  rewrite Hv. split; vm_compute; reflexivity.
Qed.

(** X1. InitializeLedger, given a timestamp and a store that takes the
    two writes, saves the two sample products under [prod1] and [prod2]
    with both dates equal to the oracle timestamp, whatever those keys
    held before (there is no existence check), and touches no other key;
    the two records are what the keys hold afterwards. *)
Theorem InitializeLedger_seeds ctx (w : World) ts :
  txTimestamp ctx = inl ts ->
  let now := stamp RFC3339 ts in
  putStateFault ctx "prod1" (json.encode (seed1 now)) = None ->
  putStateFault ctx "prod2" (json.encode (seed2 now)) = None ->
  exists w',
    InitializeLedger RFC3339 ctx w = (w', Ok tt) /\
    w' !! "prod1" = Some (json.encode (seed1 now)) /\
    w' !! "prod2" = Some (json.encode (seed2 now)) /\
    (forall k, k <> "prod1" -> k <> "prod2" -> w' !! k = w !! k) /\
    (utf8.ValidString now = true ->
     stored w' "prod1" = Some (seed1 now) /\ stored w' "prod2" = Some (seed2 now)).
Proof.
  intros Ht now H1 H2. pose proof (InitializeLedger_cases ctx w) as H.
  rewrite Ht in H. cbv zeta in H. fold now in H. rewrite H1, H2 in H.
  eexists. split; [exact H|]. split; [|split; [|split]].
  - rewrite lookup_insert_ne by discriminate. apply lookup_insert_eq.
  - apply lookup_insert_eq.
  - intros k Hk1 Hk2. rewrite !lookup_insert_ne by congruence. reflexivity.
  - intros Hv. unfold stored.
    rewrite lookup_insert_ne by discriminate. rewrite !lookup_insert_eq.
    rewrite !Unmarshal_encode.
    destruct (seed_valid now Hv) as [V1 V2].
    rewrite !coerceProduct_valid by assumption. auto.
Qed.

(** X2. InitializeLedger does not look at what [prod1] and [prod2]
    hold: when it succeeds, the world state it leaves depends on the
    one before only outside these two keys. So seeding a ledger that was
    already seeded, in the same transaction context, changes nothing. *)
Theorem InitializeLedger_resets ctx (w1 w2 : World) ts :
  txTimestamp ctx = inl ts ->
  putStateFault ctx "prod1" (json.encode (seed1 (stamp RFC3339 ts))) = None ->
  putStateFault ctx "prod2" (json.encode (seed2 (stamp RFC3339 ts))) = None ->
  (forall k, k <> "prod1" -> k <> "prod2" -> w1 !! k = w2 !! k) ->
  (InitializeLedger RFC3339 ctx w1).1 = (InitializeLedger RFC3339 ctx w2).1 /\
  (InitializeLedger RFC3339 ctx (InitializeLedger RFC3339 ctx w1).1).1
  = (InitializeLedger RFC3339 ctx w1).1.
Proof.
  intros Ht H1 H2 Hsame.
  assert (forall w : World,
            (InitializeLedger RFC3339 ctx w).1
            = <["prod2" := json.encode (seed2 (stamp RFC3339 ts))]>
                (<["prod1" := json.encode (seed1 (stamp RFC3339 ts))]> w)) as Hw.
  { intros w. pose proof (InitializeLedger_cases ctx w) as H.
    rewrite Ht in H. cbv zeta in H. rewrite H1, H2 in H. rewrite H. reflexivity. }
  assert (forall wa wb : World,
            (forall k, k <> "prod1" -> k <> "prod2" -> wa !! k = wb !! k) ->
            (InitializeLedger RFC3339 ctx wa).1 = (InitializeLedger RFC3339 ctx wb).1) as Heq.
  { intros wa wb Hab. rewrite !Hw. apply map_eq. intros k.
    destruct (decide ("prod2" = k)) as [<-|N2]; [rewrite !lookup_insert_eq; reflexivity|].
    rewrite !(lookup_insert_ne _ "prod2") by assumption.
    destruct (decide ("prod1" = k)) as [<-|N1]; [rewrite !lookup_insert_eq; reflexivity|].
    rewrite !lookup_insert_ne by assumption. apply Hab; congruence. }
  split; [apply Heq, Hsame|].
  apply Heq. intros k N1 N2. rewrite Hw.
  rewrite !lookup_insert_ne by congruence. reflexivity.
Qed.

(** X3. InitializeLedger does not undo its first write: when the store
    takes the write of [prod1] and refuses that of [prod2], it returns
    the store's error with [prod1] written; when the store refuses
    [prod1], nothing is written. *)
Theorem InitializeLedger_partial ctx (w : World) ts msg :
  txTimestamp ctx = inl ts ->
  let now := stamp RFC3339 ts in
  (putStateFault ctx "prod1" (json.encode (seed1 now)) = Some msg ->
   InitializeLedger RFC3339 ctx w = (w, Err (HostError msg))) /\
  (putStateFault ctx "prod1" (json.encode (seed1 now)) = None ->
   putStateFault ctx "prod2" (json.encode (seed2 now)) = Some msg ->
   InitializeLedger RFC3339 ctx w
   = (<["prod1" := json.encode (seed1 now)]> w, Err (HostError msg))).
Proof.
  intros Ht now. pose proof (InitializeLedger_cases ctx w) as H.
  rewrite Ht in H. cbv zeta in H. fold now in H. split.
  - intros H1. rewrite H1 in H. exact H.
  - intros H1 H2. rewrite H1, H2 in H. exact H.
Qed.

(** X4. Without a transaction timestamp nothing is written:
    InitializeLedger, RegisterProduct on a free identifier and
    ModifyProduct on a present one all return the timestamp error, of
    kind TimestampUnavailable, and leave the world state as it was. *)
Theorem no_timestamp_no_write ctx (w : World) msg :
  txTimestamp ctx = inr msg ->
  kindOf (ErrTimestamp (HostError msg)) = TimestampUnavailable /\
  fetchTransactionTimestamp RFC3339 ctx w = (w, Err (ErrTimestamp (HostError msg))) /\
  InitializeLedger RFC3339 ctx w = (w, Err (ErrTimestamp (HostError msg))) /\
  (forall id name owner description category,
     GetState ctx id w = (w, Ok None) ->
     RegisterProduct RFC3339 ctx id name owner description category w
     = (w, Err (ErrTimestamp (HostError msg)))) /\
  (forall id status owner description category bytes,
     GetState ctx id w = (w, Ok (Some bytes)) ->
     ModifyProduct RFC3339 ctx id status owner description category w
     = (w, Err (ErrTimestamp (HostError msg)))).
Proof.
  intros Ht. split; [reflexivity|].
  pose proof (fetchTransactionTimestamp_err RFC3339 ctx msg w Ht) as Hf.
  split; [exact Hf|]. split; [|split].
  - pose proof (InitializeLedger_cases ctx w) as H. rewrite Ht in H. exact H.
  - intros id name owner description category Hg.
    apply GetState_missing in Hg as [Hg Hw].
    unfold RegisterProduct, CheckProductExistence, bind, wrap, GetState, ret, fail.
    rewrite Hg, Hw, Hf. reflexivity.
  - intros id status owner description category bytes Hg.
    apply GetState_found in Hg as [Hg Hw].
    unfold ModifyProduct, bind, wrap, GetState, ret, fail.
    rewrite Hg, Hw, Hf. reflexivity.
Qed.

(** X5. When the store cannot be read at an identifier, every
    operation on that identifier fails with the store's error in the
    wrapper of the operation, of kind StoreUnavailable, and writes
    nothing; RegisterProduct reports it as CheckProductExistence does. *)
Theorem unreadable_store ctx (w : World) id msg :
  getStateFault ctx id = Some msg ->
  RetrieveProduct ctx id w = (w, Err (ErrFetching (HostError msg))) /\
  CheckProductExistence ctx id w = (w, Err (ErrChecking (HostError msg))) /\
  (forall name owner description category,
     RegisterProduct RFC3339 ctx id name owner description category w
     = (w, Err (ErrChecking (HostError msg)))) /\
  (forall status owner description category,
     ModifyProduct RFC3339 ctx id status owner description category w
     = (w, Err (ErrRetrieving (HostError msg)))) /\
  (forall newOwner,
     TransferOwnership RFC3339 ctx id newOwner w
     = (w, Err (ErrRetrieving (HostError msg)))) /\
  kindOf (ErrFetching (HostError msg)) = StoreUnavailable /\
  kindOf (ErrChecking (HostError msg)) = StoreUnavailable /\
  kindOf (ErrRetrieving (HostError msg)) = StoreUnavailable.
Proof.
  intros Hg.
  assert (forall status owner description category,
            ModifyProduct RFC3339 ctx id status owner description category w
            = (w, Err (ErrRetrieving (HostError msg)))) as Hm.
  { intros. unfold ModifyProduct, bind, wrap, GetState. rewrite Hg. reflexivity. }
  repeat split; intros; try apply Hm.
  - unfold RetrieveProduct, bind, wrap, GetState. rewrite Hg. reflexivity.
  - unfold CheckProductExistence, bind, wrap, GetState. rewrite Hg. reflexivity.
  - unfold RegisterProduct, CheckProductExistence, bind, wrap, GetState. rewrite Hg.
    reflexivity.
Qed.

(** X6. A write the store refuses fails the operation with the store's
    own error, unwrapped, and the world state is as before: RegisterProduct
    on a free identifier and ModifyProduct on a present record. *)
Theorem refused_write ctx (w : World) id msg ts :
  txTimestamp ctx = inl ts ->
  (forall name owner description category,
     GetState ctx id w = (w, Ok None) ->
     putStateFault ctx id
       (json.encode (mkProduct id name "Manufactured" owner (stamp RFC3339 ts)
                               (stamp RFC3339 ts) category description)) = Some msg ->
     RegisterProduct RFC3339 ctx id name owner description category w
     = (w, Err (HostError msg))) /\
  (forall status owner description category bytes,
     GetState ctx id w = (w, Ok (Some bytes)) ->
     let p' := modified (json.Unmarshal bytes zeroProduct).1
                        status owner description category (stamp RFC3339 ts) in
     putStateFault ctx (ProductID p') (json.encode p') = Some msg ->
     ModifyProduct RFC3339 ctx id status owner description category w
     = (w, Err (HostError msg))).
Proof.
  intros Ht. split.
  - intros name owner description category Hg Hp.
    apply GetState_missing in Hg as [Hg Hw].
    unfold RegisterProduct, CheckProductExistence, bind, wrap, GetState, ret, fail.
    rewrite Hg, Hw, (fetchTransactionTimestamp_ok RFC3339 ctx ts w Ht), saveProduct_eq.
    cbn [ProductID]. rewrite Hp. reflexivity.
  - intros status owner description category bytes Hg p' Hp.
    rewrite (ModifyProduct_present RFC3339 _ _ _ _ _ _ _ bytes ts Hg Ht), saveProduct_eq.
    fold p'. rewrite Hp. reflexivity.
Qed.

End HostFaults.


(** ** What a transaction changes *)

Section Effects.

Variable RFC3339 : Z -> Z -> string.

(** What a transaction does to the world state, case by case. *)
Lemma invoke_cases ctx op (w : World) :
  (exists e, invoke RFC3339 ctx op w = (w, Err e)) \/
  (exists k bytes,
     invoke RFC3339 ctx op w = (<[k := bytes]> w, Ok tt) /\
     match op with
     | OpRegister id _ _ _ _ => w !! id = None /\ k = id
     | OpModify id _ _ _ _ | OpTransfer id _ =>
       exists old, w !! id = Some old /\
                   k = ProductID (json.Unmarshal old zeroProduct).1
     end).
Proof.
  assert (forall id status owner description category,
    (exists e, ModifyProduct RFC3339 ctx id status owner description category w = (w, Err e)) \/
    (exists k bytes,
       ModifyProduct RFC3339 ctx id status owner description category w
       = (<[k := bytes]> w, Ok tt) /\
       exists old, w !! id = Some old /\
                   k = ProductID (json.Unmarshal old zeroProduct).1)) as Hm.
  { intros id status owner description category.
    destruct (ModifyProduct_cases RFC3339 ctx id status owner description category w)
      as [He | (old & ts & _ & Hw & _ & Hok)]; [left; exact He|].
    cbv zeta in Hok. destruct Hok as [_ Hok]. right.
    eexists _, _. split; [exact Hok|]. exists old. split; [exact Hw|].
    rewrite modified_mergeRule. reflexivity. }
  destruct op as [id name owner description category
                 | id status owner description category | id newOwner];
    cbn [invoke]; [| apply Hm | apply Hm].
  destruct (RegisterProduct_cases RFC3339 ctx id name owner description category w)
    as [He | (ts & _ & Hw & _ & Hok)]; [left; exact He|].
  cbv zeta in Hok. destruct Hok as [_ Hok]. right. eexists _, _. eauto.
Qed.

Lemma invoke_keeps ctx op (w : World) : keeps w (invoke RFC3339 ctx op w).1.
Proof.
  destruct (invoke_cases ctx op w) as [[e ->] | (k & bytes & -> & _)]; cbn [fst].
  - apply keeps_refl.
  - apply keeps_insert.
Qed.

Lemma run_keeps tr : forall w : World, keeps w (run RFC3339 tr w).
Proof.
  induction tr as [|[ctx op] tr IH]; intros w; cbn [run].
  - apply keeps_refl.
  - eapply keeps_trans; [apply invoke_keeps | apply IH].
Qed.

(** X7. A transaction writes all or nothing: when RegisterProduct,
    ModifyProduct or TransferOwnership returns an error the world state
    is as before; when it succeeds exactly one key was written, the
    identifier for a registration (free until then), and for an update
    the product_id read from the stored bytes. *)
Theorem invoke_writes_one_key_or_nothing ctx op (w : World) :
  match invoke RFC3339 ctx op w with
  | (w', Err _) => w' = w
  | (w', Ok _) =>
    exists k bytes, w' = <[k := bytes]> w /\
      match op with
      | OpRegister id _ _ _ _ => w !! id = None /\ k = id
      | OpModify id _ _ _ _ | OpTransfer id _ =>
        exists old, w !! id = Some old /\
                    k = ProductID (json.Unmarshal old zeroProduct).1
      end
  end.
Proof.
  destruct (invoke_cases ctx op w) as [[e ->] | (k & bytes & -> & H)]; eauto.
Qed.

(** X8. The queries are read-only: RetrieveProduct,
    CheckProductExistence and ListAllProducts leave the world state as
    it was, whether they succeed or fail, and so does reading the
    transaction timestamp. *)
Theorem queries_read_only ctx id (w : World) :
  (RetrieveProduct ctx id w).1 = w /\
  (CheckProductExistence ctx id w).1 = w /\
  (ListAllProducts ctx w).1 = w /\
  (fetchTransactionTimestamp RFC3339 ctx w).1 = w.
Proof.
  split; [|split; [|split]].
  - unfold RetrieveProduct, bind, wrap, GetState, ret, fail.
    destruct (getStateFault ctx id); [reflexivity|].
    destruct (w !! id) as [bytes|]; [|reflexivity].
    destruct (json.Unmarshal bytes zeroProduct) as [p [e|]]; reflexivity.
  - unfold CheckProductExistence, bind, wrap, GetState, ret.
    destruct (getStateFault ctx id); reflexivity.
  - unfold ListAllProducts, bind, GetStateByRange.
    destruct (rangeFault ctx); reflexivity.
  - unfold fetchTransactionTimestamp, bind, wrap, GetTxTimestamp, ret.
    destruct (txTimestamp ctx); reflexivity.
Qed.

(** X9. The contract never deletes: a key that holds a value still
    holds one after any sequence of RegisterProduct, ModifyProduct and
    TransferOwnership transactions, failed ones included, and after
    InitializeLedger. *)
Theorem ledger_never_deletes tr ctx (w : World) k :
  is_Some (w !! k) ->
  is_Some (run RFC3339 tr w !! k) /\
  is_Some ((InitializeLedger RFC3339 ctx w).1 !! k).
Proof.
  intros H. split; [apply run_keeps, H|].
  pose proof (InitializeLedger_cases RFC3339 ctx w) as Hc.
  destruct (txTimestamp ctx) as [ts|msg]; [|rewrite Hc; exact H].
  cbv zeta in Hc.
  destruct (putStateFault ctx "prod1" _); [rewrite Hc; exact H|].
  destruct (putStateFault ctx "prod2" _); rewrite Hc; cbn [fst].
  - apply keeps_insert, H.
  - apply keeps_insert, keeps_insert, H.
Qed.

(** X10. CheckProductExistence looks at the presence of the key only,
    RetrieveProduct also deserializes: with a readable store the first
    returns whether the key holds bytes, the second returns a product
    exactly when the bytes deserialize to it without error; on bytes
    that do not, the product exists and cannot be retrieved, the error
    being that of Unmarshal, of kind SerializationFailure. *)
Theorem existence_is_not_readability ctx id (w : World) :
  getStateFault ctx id = None ->
  CheckProductExistence ctx id w = (w, Ok (bool_decide (is_Some (w !! id)))) /\
  (forall p, RetrieveProduct ctx id w = (w, Ok p) <-> stored w id = Some p) /\
  (forall bytes q e,
     w !! id = Some bytes -> json.Unmarshal bytes zeroProduct = (q, Some e) ->
     CheckProductExistence ctx id w = (w, Ok true) /\
     RetrieveProduct ctx id w = (w, Err (JSONError e)) /\
     kindOf (JSONError e) = SerializationFailure).
Proof.
  intros Hg.
  assert (CheckProductExistence ctx id w = (w, Ok (bool_decide (is_Some (w !! id))))) as Hc.
  { unfold CheckProductExistence, bind, wrap, GetState, ret. rewrite Hg.
    destruct (w !! id); reflexivity. }
  split; [exact Hc|]. split.
  - intros p. unfold RetrieveProduct, stored, bind, wrap, GetState, ret, fail. rewrite Hg.
    destruct (w !! id) as [bytes|]; [|split; discriminate].
    destruct (json.Unmarshal bytes zeroProduct) as [q [e|]]; split; congruence.
  - intros bytes q e Hw Hu. rewrite Hc, Hw. split; [reflexivity|]. split; [|reflexivity].
    unfold RetrieveProduct, bind, wrap, GetState, ret, fail. rewrite Hg, Hw, Hu.
    reflexivity.
Qed.

End Effects.


(** ** Listing, with a host that may fail *)

Lemma scanned_lookup (w : World) k bytes : (k, bytes) ∈ scanned w <-> w !! k = Some bytes.
Proof.
  unfold scanned. rewrite merge_sort_Permutation. apply elem_of_map_to_list.
Qed.

Lemma stored_decodes (w : World) k p :
  stored w k = Some p <-> exists bytes, w !! k = Some bytes /\ decodes (k, bytes) p.
Proof.
  unfold stored, decodes. cbn [snd]. destruct (w !! k) as [bytes|].
  - destruct (json.Unmarshal bytes zeroProduct) as [q [e|]] eqn:Hu; split.
    + discriminate.
    + intros (b & [= <-] & H). congruence.
    + intros [= <-]. eauto.
    + intros (b & [= <-] & H). congruence.
  - split; [discriminate|]. intros (b & H & _). discriminate.
Qed.

(** The loop succeeds exactly when the iterator yields every entry and
    every value deserializes. *)
Lemma listLoop_succeeds ctx entries : forall acc,
  (exists res, listLoop ctx entries acc = Ok res) <->
  Forall (fun kv => nextFault ctx kv.1 = None /\ exists p, decodes kv p) entries.
Proof.
  induction entries as [|kv entries IH]; intros acc.
  - cbn [listLoop]. split; [constructor | eauto].
  - cbn [listLoop]. unfold Next, decodes.
    destruct (nextFault ctx kv.1) as [msg|] eqn:Hn.
    { split.
      - intros [res H]. discriminate.
      - intros H. apply Forall_cons in H as [[H _] _]. cbn [fst] in *. congruence. }
    destruct (json.Unmarshal kv.2 zeroProduct) as [p [e|]] eqn:Hu.
    + split.
      * intros [res H]. discriminate.
      * intros H. apply Forall_cons in H as [(_ & q & H) _]. congruence.
    + rewrite IH. split.
      * intros H. constructor; [eauto | exact H].
      * intros H. apply Forall_cons in H as [_ H]. exact H.
Qed.

(** What the loop returns when it succeeds. *)
Lemma listLoop_decodes ctx entries : forall acc res,
  listLoop ctx entries acc = Ok res ->
  exists products, res = (acc ++ products)%list /\ Forall2 decodes entries products.
Proof.
  induction entries as [|kv entries IH]; intros acc res.
  - cbn [listLoop]. intros [= <-]. exists []. rewrite app_nil_r. split; [reflexivity|constructor].
  - cbn [listLoop]. destruct (Next ctx kv) as [r|e] eqn:Hn; [|discriminate].
    assert (r = kv) as -> by (unfold Next in Hn; destruct (nextFault ctx kv.1); congruence).
    destruct (json.Unmarshal kv.2 zeroProduct) as [p [e|]] eqn:Hu; [discriminate|].
    intros H. apply IH in H as (products & -> & H).
    exists (p :: products). rewrite <- app_assoc. split; [reflexivity|].
    constructor; assumption.
Qed.

Lemma Forall2_decodes_elem entries products :
  Forall2 decodes entries products ->
  forall p, p ∈ products <-> exists kv, kv ∈ entries /\ decodes kv p.
Proof.
  induction 1 as [|kv q entries products Hd _ IH]; intros p.
  - split; [intros H; inversion H | intros (kv & H & _); inversion H].
  - rewrite elem_of_cons, IH. split.
    + intros [-> | (kv' & Hin & Hp)].
      * exists kv. split; [left | exact Hd].
      * exists kv'. split; [right; exact Hin | exact Hp].
    + intros (kv' & Hin & Hp). apply elem_of_cons in Hin as [-> | Hin].
      * left. unfold decodes in *. congruence.
      * right. eauto.
Qed.

(** X11. ListAllProducts fails as a whole: an error of the range scan
    is returned as it is, and once the scan is open the listing
    succeeds exactly when the iterator yields every entry and every
    value in the store deserializes; one unreadable value makes the
    listing fail although every other record is readable. *)
Theorem ListAllProducts_fails_as_a_whole ctx (w : World) :
  (forall msg, rangeFault ctx = Some msg ->
     ListAllProducts ctx w = (w, Err (HostError msg))) /\
  (rangeFault ctx = None ->
   ((exists products, ListAllProducts ctx w = (w, Ok products)) <->
    (forall k bytes, w !! k = Some bytes ->
       nextFault ctx k = None /\ is_Some (stored w k)))).
Proof.
  split.
  - intros msg H. unfold ListAllProducts, bind, GetStateByRange. rewrite H. reflexivity.
  - intros Hr. unfold ListAllProducts, bind. rewrite (GetStateByRange_open _ _ Hr).
    transitivity (exists res, listLoop ctx (scanned w) [] = Ok res).
    { split; intros [res H]; exists res; congruence. }
    rewrite listLoop_succeeds, Forall_forall. split.
    + intros H k bytes Hw. destruct (H (k, bytes)) as (Hn & p & Hp).
      { apply scanned_lookup, Hw. }
      split; [exact Hn|]. exists p. apply stored_decodes. eauto.
    + intros H [k bytes] Hin. apply scanned_lookup in Hin.
      destruct (H k bytes Hin) as (Hn & p & Hp). split; [exact Hn|].
      apply stored_decodes in Hp as (b & Hb & Hd). exists p.
      assert (b = bytes) as -> by congruence. exact Hd.
Qed.

(** X12. When ListAllProducts succeeds it returns one product per key
    of the store: as many products as there are keys, and a product is
    in the list exactly when some key holds it. *)
Theorem ListAllProducts_lists_every_record ctx (w : World) products :
  ListAllProducts ctx w = (w, Ok products) ->
  length products = size w /\
  (forall p, p ∈ products <-> exists k, stored w k = Some p).
Proof.
  unfold ListAllProducts, bind, GetStateByRange.
  destruct (rangeFault ctx) as [msg|]; [discriminate|]. rewrite filter_open.
  fold (scanned w). intros [= H].
  apply listLoop_decodes in H as (ps & -> & H). cbn [app]. split.
  - rewrite <- (Forall2_length _ _ _ H). unfold scanned.
    rewrite merge_sort_Permutation. apply length_map_to_list.
  - intros p. rewrite (Forall2_decodes_elem _ _ H). split.
    + intros ([k bytes] & Hin & Hd). exists k. apply stored_decodes.
      exists bytes. split; [apply scanned_lookup, Hin | exact Hd].
    + intros (k & Hk). apply stored_decodes in Hk as (bytes & Hw & Hd).
      exists (k, bytes). split; [apply scanned_lookup, Hw | exact Hd].
Qed.


(** ** The wire format, further *)

Lemma DecodeRune_replacement (rest : string) :
  utf8.DecodeRune (utf8.EncodeRune utf8.RuneError +:+ rest) = (utf8.RuneError, 3%nat).
Proof. vm_compute. reflexivity. Qed.

(** What the coercion yields is valid UTF-8. *)
Lemma valid_go_coerce (fuel : nat) : forall s : string,
  (String.length s <= fuel)%nat ->
  forall fu, (String.length (json.coerce_go fuel s) <= fu)%nat ->
             utf8.valid_go fu (json.coerce_go fuel s) = true.
Proof.
  induction fuel as [|f IH]; intros s Hlen fu Hfu.
  - destruct s; [|simpl in Hlen; lia]. destruct fu; reflexivity.
  - destruct s as [|b t]; [destruct fu; reflexivity|].
    cbn [json.coerce_go] in *. unfold json.coerceStep in *.
    destruct (utf8.isError (utf8.DecodeRune (String b t))) eqn:He.
    + assert (String.length (skip 1 (String b t)) <= f)%nat as Hrest
        by (rewrite skip_length; cbn [String.length] in *; lia).
      remember (json.coerce_go f (skip 1 (String b t))) as rest eqn:Er.
      rewrite str_length_app in Hfu.
      change (String.length (utf8.EncodeRune utf8.RuneError)) with 3%nat in Hfu.
      destruct fu as [|fu']; [lia|].
      change (utf8.EncodeRune utf8.RuneError +:+ rest)
        with (String (byte_of 0xEF) (String (byte_of 0xBF) (String (byte_of 0xBD) rest))).
      cbn [utf8.valid_go].
      change (String (byte_of 0xEF) (String (byte_of 0xBF) (String (byte_of 0xBD) rest)))
        with (utf8.EncodeRune utf8.RuneError +:+ rest).
      rewrite DecodeRune_replacement. cbn [snd].
      change (utf8.isError (utf8.RuneError, 3%nat)) with false. cbv iota.
      change (skip 3 (utf8.EncodeRune utf8.RuneError +:+ rest)) with rest.
      subst rest. apply IH; [exact Hrest | lia].
    + destruct (DecodeRune_ok (String b t)) as (w & tl & Hs & Hw & Hpos & _ & Hdec & _);
        [discriminate | exact He |].
      rewrite <- Hw in *. rewrite Hs in *.
      rewrite take_app_length, skip_app_length in *.
      assert (String.length tl <= f)%nat as Hrest.
      { rewrite str_length_app in Hlen. lia. }
      remember (json.coerce_go f tl) as rest eqn:Er.
      rewrite str_length_app in Hfu.
      destruct fu as [|fu']; [lia|].
      destruct w as [|c w']; [simpl in Hpos; lia|].
      rewrite str_app_cons. cbn [utf8.valid_go]. rewrite <- str_app_cons.
      rewrite (Hdec rest), He.
      rewrite <- Hw, skip_app_length. subst rest. apply IH; [exact Hrest|].
      cbn [String.length] in Hfu. lia.
Qed.

Lemma coerceUTF8_is_valid (s : string) : utf8.ValidString (json.coerceUTF8 s) = true.
Proof. unfold utf8.ValidString, json.coerceUTF8. apply valid_go_coerce; lia. Qed.

Lemma coerceProduct_is_valid (p : ProductEntity) :
  json.validProduct (json.coerceProduct p) = true.
Proof.
  unfold json.validProduct, fields, json.coerceProduct.
  cbn [forallb getField ProductID ProductName ProductStatus CurrentOwner CreatedDate
       UpdatedDate ProductCategory ProductDescription].
  rewrite !coerceUTF8_is_valid. reflexivity.
Qed.

(** X13. One round trip settles a record: whatever Unmarshal reads
    back from what Marshal wrote has valid UTF-8 in its eight fields,
    and from then on it is written and read back unchanged. *)
Theorem round_trip_settles (p p0 p1 : ProductEntity) :
  json.validProduct (json.Unmarshal (json.encode p) p0).1 = true /\
  json.Unmarshal (json.encode (json.Unmarshal (json.encode p) p0).1) p1
  = ((json.Unmarshal (json.encode p) p0).1, None) /\
  roundTrips (json.Unmarshal (json.encode p) p0).1.
Proof.
  rewrite Unmarshal_encode. cbn [fst].
  pose proof (coerceProduct_is_valid p) as Hv.
  split; [exact Hv|]. split.
  - rewrite Unmarshal_encode, coerceProduct_valid by exact Hv. reflexivity.
  - intros bytes [= <-]. rewrite Unmarshal_encode, coerceProduct_valid by exact Hv.
    reflexivity.
Qed.

(** X14. Marshal tells valid records apart: two products written as
    the same text are read back as the same product, and when the
    strings of both are valid UTF-8 they are the same product. *)
Theorem encode_injective (p q : ProductEntity) :
  json.encode p = json.encode q ->
  json.coerceProduct p = json.coerceProduct q /\
  (json.validProduct p = true -> json.validProduct q = true -> p = q).
Proof.
  intros H.
  assert (json.coerceProduct p = json.coerceProduct q) as Hc.
  { pose proof (Unmarshal_encode p zeroProduct) as Hp.
    pose proof (Unmarshal_encode q zeroProduct) as Hq.
    rewrite H in Hp. congruence. }
  split; [exact Hc|]. intros Hp Hq.
  rewrite (coerceProduct_valid p Hp), (coerceProduct_valid q Hq) in Hc. exact Hc.
Qed.


Lemma quoteStep_plain (c : ascii) (t : string) :
  json.htmlSafe c = true -> json.quoteStep (String c t) = (String c "", 1%nat).
Proof.
  intros H. unfold json.quoteStep. rewrite H.
  unfold json.htmlSafe in H. rewrite !andb_true_iff in H.
  destruct H as [[[[[[_ H] _] _] _] _] _].
  change utf8.RuneSelf with 0x80. rewrite H. reflexivity.
Qed.

Lemma quote_go_plain (s : string) : forall fuel,
  (String.length s <= fuel)%nat -> plain s = true -> json.quote_go fuel s = s.
Proof.
  induction s as [|c t IH]; intros fuel Hlen Hp.
  - destruct fuel; reflexivity.
  - destruct fuel as [|f]; [simpl in Hlen; lia|].
    cbn [plain] in Hp. apply andb_true_iff in Hp as [Hc Ht].
    cbn [json.quote_go]. rewrite (quoteStep_plain c t Hc). cbn [skip].
    rewrite IH; [reflexivity | simpl in Hlen; lia | exact Ht].
Qed.

Lemma appendString_plain (s rest : string) :
  plain s = true ->
  json.appendString s +:+ rest = String json.dquote (s +:+ String json.dquote rest).
Proof.
  intros H. unfold json.appendString, json.quoteBody.
  rewrite quote_go_plain by (auto; lia).
  rewrite str_app_cons, str_app_assoc. reflexivity.
Qed.

(** X15. The text of a record whose strings [Marshal] has nothing to
    escape in (printable ASCII without the double quote, the backslash
    and the three HTML characters): one object without white space,
    the eight members in the order of the struct's fields, each under
    the name of its JSON tag, each value between quotes as it is. *)
Theorem encode_plain_text (p : ProductEntity) :
  (forall f, plain (getField f p) = true) ->
  json.encode p
  = "{" +:+ member "product_id" (ProductID p)
    +:+ "," +:+ member "product_name" (ProductName p)
    +:+ "," +:+ member "product_status" (ProductStatus p)
    +:+ "," +:+ member "current_owner" (CurrentOwner p)
    +:+ "," +:+ member "created_date" (CreatedDate p)
    +:+ "," +:+ member "updated_date" (UpdatedDate p)
    +:+ "," +:+ member "product_category" (ProductCategory p)
    +:+ "," +:+ member "product_description" (ProductDescription p) +:+ "}".
Proof.
  intros H.
  pose proof (H FProductID) as H1. pose proof (H FProductName) as H2.
  pose proof (H FProductStatus) as H3. pose proof (H FCurrentOwner) as H4.
  pose proof (H FCreatedDate) as H5. pose proof (H FUpdatedDate) as H6.
  pose proof (H FProductCategory) as H7. pose proof (H FProductDescription) as H8.
  cbn [getField] in *.
  unfold json.encode, fields, member. cbn [json.appendFields fieldName getField].
  rewrite !str_app_nil_l, str_app_nil_r.
  repeat (rewrite str_app_assoc || rewrite str_app_cons || rewrite str_app_nil_l).
  rewrite !appendString_plain by (assumption || reflexivity).
  repeat (rewrite str_app_assoc || rewrite str_app_cons || rewrite str_app_nil_l).
  reflexivity.
Qed.


(** ** Transactions one after the other *)

Section Composition.

Variable RFC3339 : Z -> Z -> string.



(** An update of a readable record on a host without faults. *)
Lemma ModifyProduct_stored ctx id status owner description category (w : World) p ts :
  faultless ctx -> txTimestamp ctx = inl ts -> stored w id = Some p ->
  ModifyProduct RFC3339 ctx id status owner description category w
  = (<[ProductID p :=
         json.encode (mergeRule p status owner description category (stamp RFC3339 ts))]> w,
     Ok tt).
Proof.
  intros (Hg & Hp & _) Ht Hs. apply stored_decodes in Hs as (bytes & Hw & Hd).
  unfold decodes in Hd. cbn [snd] in Hd.
  rewrite (ModifyProduct_present RFC3339 ctx id _ _ _ _ w bytes ts);
    [| apply GetState_found; auto | exact Ht].
  rewrite Hd. cbn [fst]. rewrite modified_mergeRule, saveProduct_eq, Hp. reflexivity.
Qed.

Lemma stored_insert_valid (w : World) k p :
  json.validProduct p = true -> stored (<[k := json.encode p]> w) k = Some p.
Proof.
  intros Hv. unfold stored. rewrite lookup_insert_eq, Unmarshal_encode.
  rewrite coerceProduct_valid by exact Hv. reflexivity.
Qed.

(** X16. Register, then update, then read: on hosts without faults and
    with strings that are valid UTF-8, registering a free identifier
    and then modifying it leaves under the identifier one record, the
    registered one merged with the update; RetrieveProduct returns it,
    created at the first transaction's timestamp and updated at the
    second's. *)
Theorem register_modify_retrieve ctx1 ctx2 ctx3 (w : World)
    id name owner description category status owner' description' category' ts1 ts2 :
  faultless ctx1 -> faultless ctx2 -> faultless ctx3 ->
  txTimestamp ctx1 = inl ts1 -> txTimestamp ctx2 = inl ts2 ->
  w !! id = None ->
  allValid [id; name; owner; description; category; stamp RFC3339 ts1] = true ->
  allValid [status; owner'; description'; category'; stamp RFC3339 ts2] = true ->
  let p := mkProduct id name "Manufactured" owner (stamp RFC3339 ts1) (stamp RFC3339 ts1)
                     category description in
  let p' := mergeRule p status owner' description' category' (stamp RFC3339 ts2) in
  let w2 := run RFC3339 [(ctx1, OpRegister id name owner description category);
                         (ctx2, OpModify id status owner' description' category')] w in
  w2 = <[id := json.encode p']> w /\
  RetrieveProduct ctx3 id w2 = (w2, Ok p') /\
  CreatedDate p' = stamp RFC3339 ts1 /\ UpdatedDate p' = stamp RFC3339 ts2.
Proof.
  intros F1 F2 F3 Ht1 Ht2 Hw V1 V2 p p' w2.
  assert (json.validProduct p = true) as Hp.
  { apply validProduct_fields. unfold allValid in *.
    cbn [forallb p ProductID ProductName ProductStatus CurrentOwner CreatedDate
         UpdatedDate ProductCategory ProductDescription] in *.
    rewrite !andb_true_iff in *. destruct V1 as (A1 & A2 & A3 & A4 & A5 & A6 & _).
    repeat split; auto. }
  assert (json.validProduct p' = true) as Hp' by (apply mergeRule_valid; assumption).
  assert (w2 = <[id := json.encode p']> w) as Hw2.
  { unfold w2. cbn [run invoke].
    destruct (RegisterProduct_cases RFC3339 ctx1 id name owner description category w)
      as [[e He] | (ts & _ & _ & Ht & Hok)].
    { exfalso. revert He. destruct F1 as (Hg & Hput & _).
      unfold RegisterProduct, CheckProductExistence, bind, wrap, GetState, ret, fail.
      rewrite Hg, Hw, (fetchTransactionTimestamp_ok RFC3339 ctx1 ts1 w Ht1), saveProduct_eq.
      rewrite Hput. discriminate. }
    cbv zeta in Hok. destruct Hok as [_ Hok].
    assert (ts = ts1) as -> by congruence. fold p in Hok. rewrite Hok. cbn [fst].
    rewrite (ModifyProduct_stored ctx2 id _ _ _ _ _ p ts2 F2 Ht2 (stored_insert_valid w id p Hp)).
    cbn [fst]. fold p'. change (ProductID p) with id. apply insert_insert_eq. }
  split; [exact Hw2|]. split; [|split; reflexivity].
  destruct F3 as (Hg & _).
  unfold RetrieveProduct, bind, wrap, GetState, ret, fail.
  rewrite Hg, Hw2, lookup_insert_eq, Unmarshal_encode.
  rewrite coerceProduct_valid by exact Hp'. reflexivity.
Qed.


End Composition.


(** ** The ledger over sequences of transactions *)

Section Ledger.

Variable RFC3339 : Z -> Z -> string.
Hypothesis RFC3339_valid : forall s n, utf8.ValidString (RFC3339 s n) = true.

(** The invariant of the ledger, the order of the dates left aside. *)
Lemma invoke_filed ctx op (w : World) :
  Good (fun _ _ => True) w -> registersValidId (ctx, op) ->
  Good (fun _ _ => True) (invoke RFC3339 ctx op w).1 /\
  (forall k, is_Some ((invoke RFC3339 ctx op w).1 !! k) ->
             is_Some (w !! k) \/ registeredId op = Some k).
Proof.
  intros Hg Hid. split.
  - apply (invoke_step RFC3339 (fun _ _ => True) (fun _ => I) (fun _ _ _ _ _ => I)
             RFC3339_valid ctx op w Hg Hid).
    intros t _ k q _. exact I.
  - intros k. destruct (invoke_cases RFC3339 ctx op w) as [[e ->] | (k' & bytes & -> & H)];
      cbn [fst]; [auto|].
    destruct (decide (k' = k)) as [<-|Hne]; [|rewrite lookup_insert_ne by exact Hne; auto].
    intros _.
    destruct op as [id name owner description category
                   | id status owner description category | id newOwner];
      cbn [registeredId].
    + destruct H as [_ ->]. right. reflexivity.
    + destruct H as (old & Hw & ->). left.
      destruct (Hg _ _ Hw) as (q & Hq & Hqid & _). rewrite Hq. cbn [fst].
      rewrite Hqid, Hw. eauto.
    + destruct H as (old & Hw & ->). left.
      destruct (Hg _ _ Hw) as (q & Hq & Hqid & _). rewrite Hq. cbn [fst].
      rewrite Hqid, Hw. eauto.
Qed.

Lemma run_filed tr : forall w : World,
  Good (fun _ _ => True) w -> Forall registersValidId tr ->
  Good (fun _ _ => True) (run RFC3339 tr w) /\
  (forall k, is_Some (run RFC3339 tr w !! k) ->
             is_Some (w !! k) \/ exists step, step ∈ tr /\ registeredId step.2 = Some k).
Proof.
  induction tr as [|[ctx op] tr IH]; intros w Hg Hids; cbn [run].
  - auto.
  - apply Forall_cons in Hids as [Hid Hids].
    destruct (invoke_filed ctx op w Hg Hid) as [Hg1 Hk1].
    destruct (IH _ Hg1 Hids) as [Hg2 Hk2]. split; [exact Hg2|].
    intros k Hk. destruct (Hk2 k Hk) as [H | (step & Hin & Hr)].
    + destruct (Hk1 k H) as [H' | H']; [left; exact H'|].
      right. exists (ctx, op). split; [left | exact H'].
    + right. exists step. split; [right; exact Hin | exact Hr].
Qed.

(** X18. From the empty ledger, when every identifier registered is
    valid UTF-8 (and so is the formatted timestamp), any sequence of
    registrations, updates and transfers leaves under every key a
    record that deserializes and carries the key as its product_id;
    every key is the identifier of a registration of the sequence
    (updates create no record); and ListAllProducts succeeds on a host
    without faults. *)
Theorem ledger_stays_readable tr :
  Forall registersValidId tr ->
  (forall k, is_Some (run RFC3339 tr ∅ !! k) ->
     (exists q, stored (run RFC3339 tr ∅) k = Some q /\ ProductID q = k) /\
     (exists step, step ∈ tr /\ registeredId step.2 = Some k)) /\
  (forall ctx, faultless ctx ->
     exists products,
       ListAllProducts ctx (run RFC3339 tr ∅) = (run RFC3339 tr ∅, Ok products)).
Proof.
  intros Hids.
  destruct (run_filed tr ∅ (Good_empty _) Hids) as [Hg Hk].
  assert (forall k bytes, run RFC3339 tr ∅ !! k = Some bytes ->
            exists q, stored (run RFC3339 tr ∅) k = Some q /\ ProductID q = k) as Hs.
  { intros k bytes Hw. destruct (Hg _ _ Hw) as (q & Hq & Hqid & _).
    exists q. split; [|exact Hqid]. unfold stored. rewrite Hw, Hq. reflexivity. }
  split.
  - intros k [bytes Hw]. split; [eapply Hs, Hw|].
    destruct (Hk k) as [H | H]; [eauto | | exact H].
    rewrite lookup_empty in H. destruct H as [? H]. discriminate.
  - intros ctx (_ & _ & Hr & Hn).
    unfold ListAllProducts, bind. rewrite (GetStateByRange_open _ _ Hr).
    destruct (proj2 (listLoop_succeeds ctx (scanned (run RFC3339 tr ∅)) [])) as [res Hres].
    { apply Forall_forall. intros [k bytes] Hin. apply scanned_lookup in Hin.
      split; [apply Hn|]. destruct (Hg _ _ Hin) as (q & Hq & _). exists q. exact Hq. }
    exists res. rewrite Hres. reflexivity.
Qed.

End Ledger.


(** ** Transactions on different products *)

Section Independence.

Variable RFC3339 : Z -> Z -> string.

(** A transaction does not look at the other keys: a write under a key
    it neither reads nor writes can be moved across it. *)
Lemma invoke_frame ctx op (w : World) k v :
  k <> target op ->
  (forall old, w !! target op = Some old ->
               ProductID (json.Unmarshal old zeroProduct).1 <> k) ->
  invoke RFC3339 ctx op (<[k := v]> w)
  = (<[k := v]> (invoke RFC3339 ctx op w).1, (invoke RFC3339 ctx op w).2).
Proof.
  assert (forall id status owner description category,
    k <> id ->
    (forall old, w !! id = Some old ->
                 ProductID (json.Unmarshal old zeroProduct).1 <> k) ->
    ModifyProduct RFC3339 ctx id status owner description category (<[k := v]> w)
    = (<[k := v]> (ModifyProduct RFC3339 ctx id status owner description category w).1,
       (ModifyProduct RFC3339 ctx id status owner description category w).2)) as Hm.
  { intros id status owner description category Hk Hf.
    unfold ModifyProduct, bind, wrap, GetState, ret, fail.
    rewrite lookup_insert_ne by exact Hk.
    destruct (getStateFault ctx id); [reflexivity|].
    destruct (w !! id) as [old|] eqn:Hw; [|reflexivity].
    specialize (Hf old eq_refl).
    unfold fetchTransactionTimestamp, bind, wrap, GetTxTimestamp, ret.
    destruct (txTimestamp ctx) as [ts|msg]; [|reflexivity].
    rewrite !saveProduct_eq.
    fold (modified (json.Unmarshal old zeroProduct).1 status owner description category
                   (RFC3339 (Seconds ts) (Nanos ts))).
    rewrite modified_mergeRule.
    destruct (putStateFault ctx _ _); [reflexivity|]. cbn [fst snd].
    f_equal. apply insert_insert_ne. exact Hf. }
  destruct op as [id name owner description category
                 | id status owner description category | id newOwner];
    cbn [invoke target]; [| apply Hm | apply Hm].
  intros Hk _.
  unfold RegisterProduct, CheckProductExistence, bind, wrap, GetState, ret, fail.
  rewrite lookup_insert_ne by exact Hk.
  destruct (getStateFault ctx id); [reflexivity|].
  destruct (w !! id) as [old|]; [reflexivity|].
  unfold fetchTransactionTimestamp, bind, wrap, GetTxTimestamp, ret.
  destruct (txTimestamp ctx) as [ts|msg]; [|reflexivity].
  rewrite !saveProduct_eq. cbn [ProductID].
  destruct (putStateFault ctx _ _); [reflexivity|]. cbn [fst snd].
  f_equal. apply insert_insert_ne. congruence.
Qed.

(** The key a transaction writes, when the record it is about is filed
    under its identifier. *)
Lemma invoke_filed_cases ctx op (w : World) :
  filed w (target op) ->
  (exists e, invoke RFC3339 ctx op w = (w, Err e)) \/
  (exists bytes, invoke RFC3339 ctx op w = (<[target op := bytes]> w, Ok tt)).
Proof.
  intros Hf.
  destruct (invoke_cases RFC3339 ctx op w) as [He | (k & bytes & Hok & H)]; [left; exact He|].
  right. exists bytes. rewrite Hok.
  destruct op as [id name owner description category
                 | id status owner description category | id newOwner];
    cbn [target] in *.
  - destruct H as [_ ->]. reflexivity.
  - destruct H as (old & Hw & ->). rewrite (Hf old Hw). reflexivity.
  - destruct H as (old & Hw & ->). rewrite (Hf old Hw). reflexivity.
Qed.

(** X19. Transactions on different products are independent: for two
    identifiers whose records, if any, are filed under them, the two
    transactions leave the same world state in either order, and each
    returns what it returns when run alone. *)
Theorem transactions_on_different_products_commute ctx1 op1 ctx2 op2 (w : World) :
  target op1 <> target op2 ->
  filed w (target op1) -> filed w (target op2) ->
  run RFC3339 [(ctx1, op1); (ctx2, op2)] w = run RFC3339 [(ctx2, op2); (ctx1, op1)] w /\
  (invoke RFC3339 ctx2 op2 (invoke RFC3339 ctx1 op1 w).1).2 = (invoke RFC3339 ctx2 op2 w).2 /\
  (invoke RFC3339 ctx1 op1 (invoke RFC3339 ctx2 op2 w).1).2 = (invoke RFC3339 ctx1 op1 w).2.
Proof.
  intros Hne F1 F2. cbn [run].
  assert (forall ctx op ctx' op' ,
    target op <> target op' -> filed w (target op) -> filed w (target op') ->
    invoke RFC3339 ctx' op' (invoke RFC3339 ctx op w).1
    = (match (invoke RFC3339 ctx op w).2 with
       | Ok _ => <[target op := default "" ((invoke RFC3339 ctx op w).1 !! target op)]>
                   (invoke RFC3339 ctx' op' w).1
       | Err _ => (invoke RFC3339 ctx' op' w).1
       end, (invoke RFC3339 ctx' op' w).2)) as Hswap.
  { intros ctx op ctx' op' Hd Fa Fb.
    destruct (invoke_filed_cases ctx op w Fa) as [[e ->] | [bytes ->]]; cbn [fst snd].
    - destruct (invoke RFC3339 ctx' op' w); reflexivity.
    - rewrite lookup_insert_eq. cbn [default].
      apply invoke_frame; [exact Hd|].
      intros old Hw. rewrite (Fb old Hw). congruence. }
  rewrite (Hswap ctx1 op1 ctx2 op2 Hne F1 F2).
  rewrite (Hswap ctx2 op2 ctx1 op1 (not_eq_sym Hne) F2 F1). cbn [fst snd].
  split; [|split; reflexivity].
  destruct (invoke_filed_cases ctx1 op1 w F1) as [[e1 ->] | [b1 ->]];
    destruct (invoke_filed_cases ctx2 op2 w F2) as [[e2 ->] | [b2 ->]];
    cbn [fst snd]; rewrite ?lookup_insert_eq; cbn [default]; try reflexivity.
  apply insert_insert_ne. exact Hne.
Qed.

End Independence.


Lemma scanned_seeds (a b : string) :
  scanned (<["prod2" := b]> (<["prod1" := a]> ∅)) = [("prod1", a); ("prod2", b)].
Proof. vm_compute. reflexivity. Qed.

Section Seeding.

Variable RFC3339 : Z -> Z -> string.

(** X20. Seeding the empty ledger and listing it, on hosts without
    faults and with a timestamp that is valid UTF-8: ListAllProducts
    returns the two sample products, [prod1] first, and [prod1] can no
    longer be registered. *)
Theorem InitializeLedger_then_list ctx ctx' ts :
  faultless ctx -> faultless ctx' -> txTimestamp ctx = inl ts ->
  utf8.ValidString (stamp RFC3339 ts) = true ->
  let w := (InitializeLedger RFC3339 ctx ∅).1 in
  ListAllProducts ctx' w
  = (w, Ok [seed1 (stamp RFC3339 ts); seed2 (stamp RFC3339 ts)]) /\
  (forall name owner description category,
     RegisterProduct RFC3339 ctx' "prod1" name owner description category w
     = (w, Err (ErrAlreadyExists "prod1"))).
Proof.
  intros (_ & Hp & _) (Hg & _ & Hr & Hn) Ht Hv w.
  pose proof (InitializeLedger_cases RFC3339 ctx ∅) as H.
  rewrite Ht in H. cbv zeta in H. rewrite !Hp in H.
  assert (w = <["prod2" := json.encode (seed2 (stamp RFC3339 ts))]>
                (<["prod1" := json.encode (seed1 (stamp RFC3339 ts))]> ∅)) as Hw
    by (unfold w; rewrite H; reflexivity).
  clearbody w. subst w. split.
  - unfold ListAllProducts, bind. rewrite (GetStateByRange_open _ _ Hr), scanned_seeds.
    destruct (seed_valid _ Hv) as [V1 V2].
    cbn [listLoop]. unfold Next. rewrite !Hn. cbn [fst snd].
    rewrite !Unmarshal_encode, !coerceProduct_valid by assumption. reflexivity.
  - intros name owner description category.
    unfold RegisterProduct, CheckProductExistence, bind, wrap, GetState, ret, fail.
    rewrite Hg, lookup_insert_ne by discriminate. rewrite lookup_insert_eq. reflexivity.
Qed.

End Seeding.


Section Misfiled.

Variable RFC3339 : Z -> Z -> string.

(** X21. ModifyProduct writes under the product_id of the record it
    read, not under the identifier it was called with: when the two
    differ the update succeeds, the value under the identifier stays
    as it was, and the merged record is written under the record's own
    product_id. *)
Theorem ModifyProduct_writes_under_stored_id ctx id status owner description category
    (w : World) p ts :
  faultless ctx -> txTimestamp ctx = inl ts ->
  stored w id = Some p -> ProductID p <> id ->
  let p' := mergeRule p status owner description category (stamp RFC3339 ts) in
  let r := ModifyProduct RFC3339 ctx id status owner description category w in
  r.2 = Ok tt /\
  r.1 !! id = w !! id /\
  r.1 !! ProductID p = Some (json.encode p').
Proof.
  intros F Ht Hs Hne p' r. unfold r.
  rewrite (ModifyProduct_stored RFC3339 ctx id _ _ _ _ w p ts F Ht Hs). cbn [fst snd].
  fold p'. split; [reflexivity|]. split; [apply lookup_insert_ne, Hne|].
  apply lookup_insert_eq.
Qed.

End Misfiled.


(** ** Examples of the further properties *)

Lemma quietContext_faultless (seconds : Z) : faultless (quietContext seconds).
Proof. repeat split. Qed.

(** The sample ledger is seeded at the second instant. *)
Lemma InitializeLedger_seeds_witness :
  txTimestamp (quietContext 2) = inl (mkTimestamp 2 0) /\
  exists w',
    InitializeLedger sampleClock (quietContext 2) sampleWorld = (w', Ok tt) /\
    w' !! "prod1" = Some (json.encode (seed1 "2025-10-14T11:45:00Z")) /\
    w' !! "prod2" = Some (json.encode (seed2 "2025-10-14T11:45:00Z")) /\
    w' !! "p1" = sampleWorld !! "p1" /\
    stored w' "prod1" = Some (seed1 "2025-10-14T11:45:00Z") /\
    stored w' "prod2" = Some (seed2 "2025-10-14T11:45:00Z").
Proof.
  split; [reflexivity|].
  destruct (InitializeLedger_seeds sampleClock (quietContext 2) sampleWorld (mkTimestamp 2 0)
              eq_refl eq_refl eq_refl) as (w' & H1 & H2 & H3 & H4 & H5).
  exists w'. split; [exact H1|]. split; [exact H2|]. split; [exact H3|].
  split; [apply H4; discriminate|]. apply H5. reflexivity.
Defined.

(** Seeding over a stale [prod1] and seeding the empty ledger. *)
Lemma InitializeLedger_resets_witness :
  txTimestamp (quietContext 2) = inl (mkTimestamp 2 0) /\
  (forall k, k <> "prod1" -> k <> "prod2" -> staleSeed !! k = (∅ : World) !! k) /\
  (InitializeLedger sampleClock (quietContext 2) staleSeed).1
  = (InitializeLedger sampleClock (quietContext 2) ∅).1.
Proof.
  assert (forall k, k <> "prod1" -> k <> "prod2" -> staleSeed !! k = (∅ : World) !! k) as H.
  { intros k H1 _. unfold staleSeed. rewrite lookup_singleton_ne by congruence.
    rewrite lookup_empty. reflexivity. }
  split; [reflexivity|]. split; [exact H|].
  exact (proj1 (InitializeLedger_resets sampleClock (quietContext 2) staleSeed ∅
                  (mkTimestamp 2 0) eq_refl eq_refl eq_refl H)).
Defined.

(** The store takes [prod1] and refuses [prod2]. *)
Lemma InitializeLedger_partial_witness :
  txTimestamp noProd2 = inl (mkTimestamp 2 0) /\
  InitializeLedger sampleClock noProd2 ∅
  = (<["prod1" := json.encode (seed1 "2025-10-14T11:45:00Z")]> ∅, Err (HostError "refused")) /\
  InitializeLedger sampleClock noWrites ∅ = (∅, Err (HostError "read only")).
Proof.
  split; [reflexivity|]. split.
  - exact (proj2 (InitializeLedger_partial sampleClock noProd2 ∅ (mkTimestamp 2 0) "refused"
                    eq_refl) eq_refl eq_refl).
  - exact (proj1 (InitializeLedger_partial sampleClock noWrites ∅ (mkTimestamp 2 0) "read only"
                    eq_refl) eq_refl).
Defined.

(** No timestamp: nothing is registered, updated or seeded. *)
Lemma no_timestamp_no_write_witness :
  txTimestamp noClock = inr "no timestamp" /\
  InitializeLedger sampleClock noClock sampleWorld
  = (sampleWorld, Err (ErrTimestamp (HostError "no timestamp"))) /\
  RegisterProduct sampleClock noClock "p2" "Gadget" "Globex" "d" "c" sampleWorld
  = (sampleWorld, Err (ErrTimestamp (HostError "no timestamp"))) /\
  ModifyProduct sampleClock noClock "p1" "Shipped" "" "" "" sampleWorld
  = (sampleWorld, Err (ErrTimestamp (HostError "no timestamp"))).
Proof.
  destruct (no_timestamp_no_write sampleClock noClock sampleWorld "no timestamp" eq_refl)
    as (_ & _ & H1 & H2 & H3).
  split; [reflexivity|]. split; [exact H1|]. split.
  - apply H2. reflexivity.
  - apply (H3 "p1" "Shipped" "" "" "" (json.encode widget)). reflexivity.
Defined.

(** The store cannot be read. *)
Lemma unreadable_store_witness :
  getStateFault noReads "p1" = Some "unavailable" /\
  RetrieveProduct noReads "p1" sampleWorld
  = (sampleWorld, Err (ErrFetching (HostError "unavailable"))) /\
  CheckProductExistence noReads "p1" sampleWorld
  = (sampleWorld, Err (ErrChecking (HostError "unavailable"))) /\
  RegisterProduct sampleClock noReads "p1" "Gadget" "Globex" "d" "c" sampleWorld
  = (sampleWorld, Err (ErrChecking (HostError "unavailable"))) /\
  TransferOwnership sampleClock noReads "p1" "Globex" sampleWorld
  = (sampleWorld, Err (ErrRetrieving (HostError "unavailable"))).
Proof.
  destruct (unreadable_store sampleClock noReads sampleWorld "p1" "unavailable" eq_refl)
    as (H1 & H2 & H3 & _ & H5 & _).
  split; [reflexivity|]. split; [exact H1|]. split; [exact H2|].
  split; [apply H3 | apply H5].
Defined.

(** The store refuses the write. *)
Lemma refused_write_witness :
  txTimestamp noWrites = inl (mkTimestamp 2 0) /\
  RegisterProduct sampleClock noWrites "p2" "Gadget" "Globex" "d" "c" sampleWorld
  = (sampleWorld, Err (HostError "read only")) /\
  ModifyProduct sampleClock noWrites "p1" "Shipped" "" "" "" sampleWorld
  = (sampleWorld, Err (HostError "read only")).
Proof.
  destruct (refused_write sampleClock noWrites sampleWorld "p2" "read only" (mkTimestamp 2 0)
              eq_refl) as [H1 _].
  destruct (refused_write sampleClock noWrites sampleWorld "p1" "read only" (mkTimestamp 2 0)
              eq_refl) as [_ H2].
  split; [reflexivity|]. split.
  - apply H1; reflexivity.
  - apply (H2 "Shipped" "" "" "" (json.encode widget)); reflexivity.
Defined.

(** The widget is still there after a transfer and after seeding. *)
Lemma ledger_never_deletes_witness :
  is_Some (sampleWorld !! "p1") /\
  is_Some (run sampleClock sampleTrace2 sampleWorld !! "p1") /\
  is_Some ((InitializeLedger sampleClock (quietContext 2) sampleWorld).1 !! "p1").
Proof.
  assert (is_Some (sampleWorld !! "p1")) as H by (eexists; reflexivity).
  split; [exact H|].
  exact (ledger_never_deletes sampleClock sampleTrace2 (quietContext 2) sampleWorld "p1" H).
Defined.

(** Bytes that are not JSON: the product exists and cannot be retrieved. *)
Lemma existence_is_not_readability_witness :
  getStateFault (quietContext 2) "p1" = None /\
  CheckProductExistence (quietContext 2) "p1" garbageWorld = (garbageWorld, Ok true) /\
  RetrieveProduct (quietContext 2) "p1" garbageWorld
  = (garbageWorld, Err (JSONError json.SyntaxError)).
Proof.
  destruct (existence_is_not_readability (quietContext 2) "p1" garbageWorld eq_refl)
    as (_ & _ & H).
  destruct (H "garbage" zeroProduct json.SyntaxError) as (H1 & H2 & _);
    [reflexivity | vm_compute; reflexivity |].
  split; [reflexivity|]. split; [exact H1 | exact H2].
Defined.


(** A failed scan, and one value that is not a product among readable ones. *)
Lemma ListAllProducts_fails_as_a_whole_witness :
  rangeFault noScan = Some "scan failed" /\
  ListAllProducts noScan twoProducts = (twoProducts, Err (HostError "scan failed")) /\
  rangeFault (quietContext 3) = None /\
  (exists products, ListAllProducts (quietContext 3) twoProducts = (twoProducts, Ok products)) /\
  ~ (exists products,
       ListAllProducts (quietContext 3) (<["C" := "garbage"]> twoProducts)
       = (<["C" := "garbage"]> twoProducts, Ok products)).
Proof.
  destruct (ListAllProducts_fails_as_a_whole noScan twoProducts) as [Hscan _].
  destruct (ListAllProducts_fails_as_a_whole (quietContext 3) twoProducts) as [_ Hok].
  destruct (ListAllProducts_fails_as_a_whole (quietContext 3) (<["C" := "garbage"]> twoProducts))
    as [_ Hbad].
  split; [reflexivity|]. split; [exact (Hscan _ eq_refl)|]. split; [reflexivity|]. split.
  - exists [anvil; bolt]. vm_compute. reflexivity.
  - intros H. pose proof (proj1 (Hbad eq_refl) H) as H'.
    destruct (H' "C" "garbage") as [_ [p Hp]]; [apply lookup_insert_eq|].
    vm_compute in Hp. discriminate Hp.
Defined.

(** The two products, one per key. *)
Lemma ListAllProducts_lists_every_record_witness :
  ListAllProducts (quietContext 3) twoProducts = (twoProducts, Ok [anvil; bolt]) /\
  length [anvil; bolt] = size twoProducts /\
  (exists k, stored twoProducts k = Some bolt).
Proof.
  assert (ListAllProducts (quietContext 3) twoProducts = (twoProducts, Ok [anvil; bolt])) as H
    by (vm_compute; reflexivity).
  destruct (ListAllProducts_lists_every_record (quietContext 3) twoProducts _ H) as [H1 H2].
  split; [exact H|]. split; [exact H1|].
  apply H2. right. left.
Defined.

(** The widget and its text. *)
Lemma encode_injective_witness :
  json.encode widget = json.encode (json.coerceProduct widget) /\
  widget = json.coerceProduct widget.
Proof.
  assert (json.encode widget = json.encode (json.coerceProduct widget)) as H
    by (vm_compute; reflexivity).
  split; [exact H|].
  apply (encode_injective widget (json.coerceProduct widget) H); vm_compute; reflexivity.
Defined.

(** The text of the widget. *)
Lemma encode_plain_text_witness :
  (forall f, plain (getField f widget) = true) /\
  json.encode widget
  = "{" +:+ member "product_id" "p1"
    +:+ "," +:+ member "product_name" "Widget"
    +:+ "," +:+ member "product_status" "Manufactured"
    +:+ "," +:+ member "current_owner" "Acme"
    +:+ "," +:+ member "created_date" "2025-10-14T10:30:00Z"
    +:+ "," +:+ member "updated_date" "2025-10-14T10:30:00Z"
    +:+ "," +:+ member "product_category" "cat"
    +:+ "," +:+ member "product_description" "desc" +:+ "}".
Proof.
  assert (forall f, plain (getField f widget) = true) as H by (intros []; reflexivity).
  split; [exact H|]. exact (encode_plain_text widget H).
Defined.

(** The widget is registered, shipped and read. *)
Lemma register_modify_retrieve_witness :
  faultless (quietContext 1) /\ faultless (quietContext 2) /\ faultless (quietContext 3) /\
  run sampleClock sampleTrace ∅ = <["p1" := json.encode shipped]> ∅ /\
  RetrieveProduct (quietContext 3) "p1" (run sampleClock sampleTrace ∅)
  = (run sampleClock sampleTrace ∅, Ok shipped).
Proof.
  destruct (register_modify_retrieve sampleClock (quietContext 1) (quietContext 2)
              (quietContext 3) ∅ "p1" "Widget" "Acme" "desc" "cat" "Shipped" "" "" ""
              (mkTimestamp 1 0) (mkTimestamp 2 0)
              (quietContext_faultless 1) (quietContext_faultless 2)
              (quietContext_faultless 3) eq_refl eq_refl (lookup_empty _) eq_refl eq_refl)
    as (H1 & H2 & _).
  split; [apply quietContext_faultless|]. split; [apply quietContext_faultless|].
  split; [apply quietContext_faultless|]. split; [exact H1 | exact H2].
Defined.




Lemma sampleTrace_valid : Forall registersValidId sampleTrace.
Proof.
  repeat constructor; intros id E; vm_compute in E; try discriminate E.
  injection E as <-. reflexivity.
Qed.

(** After the registration and the update of the widget. *)
Lemma ledger_stays_readable_witness :
  (forall s n, utf8.ValidString (sampleClock s n) = true) /\
  Forall registersValidId sampleTrace /\
  (exists q, stored (run sampleClock sampleTrace ∅) "p1" = Some q /\ ProductID q = "p1") /\
  (exists products,
     ListAllProducts (quietContext 3) (run sampleClock sampleTrace ∅)
     = (run sampleClock sampleTrace ∅, Ok products)).
Proof.
  destruct (ledger_stays_readable sampleClock sampleClock_valid sampleTrace sampleTrace_valid)
    as [H1 H2].
  split; [exact sampleClock_valid|]. split; [exact sampleTrace_valid|]. split.
  - apply H1. eexists. vm_compute. reflexivity.
  - apply H2, quietContext_faultless.
Defined.

Lemma filed_sampleWorld (id : string) : filed sampleWorld id.
Proof.
  intros bytes H. unfold sampleWorld in H.
  apply lookup_singleton_Some in H as [<- <-]. vm_compute. reflexivity.
Qed.

(** A transfer of the widget and the registration of a gadget. *)
Lemma transactions_on_different_products_commute_witness :
  target (OpTransfer "p1" "Globex") <> target (OpRegister "p2" "Gadget" "Globex" "d" "c") /\
  run sampleClock [(quietContext 2, OpTransfer "p1" "Globex");
                   (quietContext 3, OpRegister "p2" "Gadget" "Globex" "d" "c")] sampleWorld
  = run sampleClock [(quietContext 3, OpRegister "p2" "Gadget" "Globex" "d" "c");
                     (quietContext 2, OpTransfer "p1" "Globex")] sampleWorld.
Proof.
  assert (target (OpTransfer "p1" "Globex")
          <> target (OpRegister "p2" "Gadget" "Globex" "d" "c")) as H by discriminate.
  split; [exact H|].
  exact (proj1 (transactions_on_different_products_commute sampleClock
                  (quietContext 2) (OpTransfer "p1" "Globex")
                  (quietContext 3) (OpRegister "p2" "Gadget" "Globex" "d" "c") sampleWorld
                  H (filed_sampleWorld _) (filed_sampleWorld _))).
Defined.

(** The empty ledger is seeded and listed. *)
Lemma InitializeLedger_then_list_witness :
  faultless (quietContext 2) /\ faultless (quietContext 3) /\
  utf8.ValidString (stamp sampleClock (mkTimestamp 2 0)) = true /\
  ListAllProducts (quietContext 3) (InitializeLedger sampleClock (quietContext 2) ∅).1
  = ((InitializeLedger sampleClock (quietContext 2) ∅).1,
     Ok [seed1 "2025-10-14T11:45:00Z"; seed2 "2025-10-14T11:45:00Z"]).
Proof.
  split; [apply quietContext_faultless|]. split; [apply quietContext_faultless|].
  split; [reflexivity|].
  exact (proj1 (InitializeLedger_then_list sampleClock (quietContext 2) (quietContext 3)
                  (mkTimestamp 2 0) (quietContext_faultless 2) (quietContext_faultless 3)
                  eq_refl eq_refl)).
Defined.

Lemma stored_misfiled : stored misfiled "k" = Some widget.
Proof. vm_compute. reflexivity. Qed.

(** The widget, stored under another key, is shipped. *)
Lemma ModifyProduct_writes_under_stored_id_witness :
  stored misfiled "k" = Some widget /\ ProductID widget <> "k" /\
  (ModifyProduct sampleClock (quietContext 2) "k" "Shipped" "" "" "" misfiled).2 = Ok tt /\
  (ModifyProduct sampleClock (quietContext 2) "k" "Shipped" "" "" "" misfiled).1 !! "k"
  = Some (json.encode widget) /\
  (ModifyProduct sampleClock (quietContext 2) "k" "Shipped" "" "" "" misfiled).1 !! "p1"
  = Some (json.encode shipped).
Proof.
  assert (ProductID widget <> "k") as Hne by discriminate.
  destruct (ModifyProduct_writes_under_stored_id sampleClock (quietContext 2) "k"
              "Shipped" "" "" "" misfiled widget (mkTimestamp 2 0)
              (quietContext_faultless 2) eq_refl stored_misfiled Hne) as (H1 & H2 & H3).
  split; [exact stored_misfiled|]. split; [exact Hne|]. split; [exact H1|].
  split; [|exact H3]. rewrite H2. apply lookup_singleton_eq.
Defined.
